(** * Bitcoin utility library (src/main.py): a shallow embedding and its properties

    The Python functions are embedded as Rocq functions over
    - [Z] for Python's unbounded [int],
    - the kernel's binary64 [float] for Python's [float],
    - [string] for [str] (code points below 256), and a sequence of code
      points ([list Z]) where a property is stated on every [str],
    - stdpp's [gmap] for [dict],
    - an error monad [res] for raised exceptions.

    The first part models the fragment of the Python runtime the functions rely
    on (mixed int/float arithmetic, comparisons, [int()], [str.strip], ...);
    the second part embeds the functions of [src/main.py] one by one; the last
    part states and proves their properties. *)

From Stdlib Require Import ZArith Floats Ascii String List Lia.
From stdpp Require Import gmap strings list fin_maps.

Set Warnings "-inexact-float,-clear-no-such-hyp".
Local Open Scope Z_scope.

(** ** Exceptions and the error monad *)

Inductive exn : Type :=
  | ZeroDivisionError
  | OverflowError
  | ValueError
  | KeyError
  | IndexError.

#[global] Instance exn_eq_dec : EqDecision exn.
Proof. solve_decision. Defined.

Inductive res (A : Type) : Type :=
  | Ok (a : A)
  | Raise (e : exn).
Arguments Ok {A} a.
Arguments Raise {A} e.

Definition res_bind {A B : Type} (c : res A) (k : A -> res B) : res B :=
  match c with
  | Ok a => k a
  | Raise e => Raise e
  end.

Notation "'let*' x ':=' c 'in' k" := (res_bind c (fun x => k))
  (at level 10, x pattern, c at level 100, k at level 200).

(** [try: c except e: h] *)
Definition try_except {A : Type} (c : res A) (e : exn) (h : res A) : res A :=
  match c with
  | Ok a => Ok a
  | Raise e' => if decide (e' = e) then h else Raise e'
  end.

(** ** Python numbers *)

Module Py.

(** A Python number as the functions of this module receive it: an [int] or a
    [float]. *)
Inductive number : Type :=
  | PInt (z : Z)
  | PFloat (f : float).

(** *** Exact views of a binary64 value *)

(** The integer [z] as an exact (unrounded) [spec_float]. *)
Definition SF_of_Z (z : Z) : spec_float :=
  match z with
  | Z0 => S754_zero false
  | Zpos p => S754_finite false p 0
  | Zneg p => S754_finite true p 0
  end.

(** Truncation toward zero and floor of the value [(-1)^s * m * 2^e]. *)
Definition SF_trunc (s : bool) (m : positive) (e : Z) : Z :=
  if 0 <=? e then cond_Zopp s (Zpos m * 2 ^ e)
  else Z.quot (cond_Zopp s (Zpos m)) (2 ^ (- e)).

Definition SF_floor (s : bool) (m : positive) (e : Z) : Z :=
  if 0 <=? e then cond_Zopp s (Zpos m * 2 ^ e)
  else Z.div (cond_Zopp s (Zpos m)) (2 ^ (- e)).

(** Is [m * 2^e] a whole number? *)
Definition SF_integral (m : positive) (e : Z) : bool :=
  (0 <=? e) || (Zpos m mod 2 ^ (- e) =? 0).

Definition is_finite (f : float) : bool :=
  match Prim2SF f with
  | S754_zero _ | S754_finite _ _ _ => true
  | S754_infinity _ | S754_nan => false
  end.

(** *** Conversions *)

(** [float(z)] (PyLong_AsDouble): the nearest binary64 value, ties to even;
    OverflowError "int too large to convert to float" when that value is out
    of range. *)
Definition float_of_int (z : Z) : res float :=
  match binary_normalize prec emax z 0 false with
  | S754_infinity _ => Raise OverflowError
  | sf => Ok (SF2Prim sf)
  end.

(** [int(f)] (float.__trunc__): truncation toward zero; OverflowError on an
    infinity, ValueError on a NaN. *)
Definition int_of_float (f : float) : res Z :=
  match Prim2SF f with
  | S754_zero _ => Ok 0
  | S754_finite s m e => Ok (SF_trunc s m e)
  | S754_infinity _ => Raise OverflowError
  | S754_nan => Raise ValueError
  end.

(** [f.is_integer()]: false on infinities and NaN, else [floor(f) == f]. *)
Definition float_is_integer (f : float) : bool :=
  match Prim2SF f with
  | S754_zero _ => true
  | S754_finite _ m e => SF_integral m e
  | S754_infinity _ | S754_nan => false
  end.

(** [math.floor] on the float itself, as C's [floor]: the result is a float. *)
Definition float_floor (f : float) : float :=
  match Prim2SF f with
  | S754_finite s m e =>
      if 0 <=? e then f
      else match SF_floor s m e with
           | Z0 => if s then PrimFloat.neg_zero else PrimFloat.zero
           | z => SF2Prim (binary_normalize prec emax z 0 false)
           end
  | _ => f
  end.

(** *** Comparisons *)

(** [a >= b], [a > b], [a < b] on floats: false as soon as one side is NaN. *)
Definition float_ge (a b : float) : bool := PrimFloat.leb b a.
Definition float_gt (a b : float) : bool := PrimFloat.ltb b a.
Definition float_lt (a b : float) : bool := PrimFloat.ltb a b.
Definition float_le (a b : float) : bool := PrimFloat.leb a b.

(** Exact comparison of an [int] with a float (float_richcompare never rounds
    the integer): [None] when the float is a NaN. *)
Definition int_float_compare (z : Z) (f : float) : option comparison :=
  match Prim2SF f with
  | S754_nan => None
  | S754_infinity s => Some (if s then Gt else Lt)
  | S754_zero _ => Some (z ?= 0)
  | S754_finite s m e =>
      if 0 <=? e then Some (z ?= cond_Zopp s (Zpos m * 2 ^ e))
      else Some (z * 2 ^ (- e) ?= cond_Zopp s (Zpos m))
  end.

(** [x > b] for a number [x] and a float [b]. *)
Definition num_gt (x : number) (b : float) : bool :=
  match x with
  | PFloat a => float_gt a b
  | PInt z => match int_float_compare z b with Some Gt => true | _ => false end
  end.

(** *** Arithmetic *)

(** [a / b] on two floats (float_div): ZeroDivisionError on a zero divisor of
    either sign; no other check, an overflow yields an infinity. *)
Definition float_truediv (a b : float) : res float :=
  if PrimFloat.eqb b PrimFloat.zero then Raise ZeroDivisionError
  else Ok (PrimFloat.div a b).

(** [a / b] on two ints (long_true_divide): the exact quotient rounded once
    to the nearest binary64 value; OverflowError "integer division result too
    large for a float" when it is out of range. *)
Definition int_truediv (a b : Z) : res float :=
  if b =? 0 then Raise ZeroDivisionError
  else match SFdiv prec emax (SF_of_Z a) (SF_of_Z b) with
       | S754_infinity _ => Raise OverflowError
       | sf => Ok (SF2Prim sf)
       end.

(** [x / y]: an int operand facing a float is converted first. *)
Definition truediv (x y : number) : res float :=
  match x, y with
  | PInt a, PInt b => int_truediv a b
  | PFloat a, PFloat b => float_truediv a b
  | PFloat a, PInt b => let* b' := float_of_int b in float_truediv a b'
  | PInt a, PFloat b => let* a' := float_of_int a in float_truediv a' b
  end.

(** [x * y] *)
Definition mul (x y : number) : res number :=
  match x, y with
  | PInt a, PInt b => Ok (PInt (a * b))
  | PFloat a, PFloat b => Ok (PFloat (PrimFloat.mul a b))
  | PFloat a, PInt b => let* b' := float_of_int b in Ok (PFloat (PrimFloat.mul a b'))
  | PInt a, PFloat b => let* a' := float_of_int a in Ok (PFloat (PrimFloat.mul a' b))
  end.

(** C's [fmod]: the exact remainder of the truncated quotient, with the sign
    of [x]. *)
Definition float_fmod (x y : float) : float :=
  match Prim2SF x, Prim2SF y with
  | S754_nan, _ | _, S754_nan => PrimFloat.nan
  | S754_infinity _, _ => PrimFloat.nan
  | _, S754_zero _ => PrimFloat.nan
  | _, S754_infinity _ => x
  | S754_zero _, _ => x
  | S754_finite sx mx ex, S754_finite _ my ey =>
      let e := Z.min ex ey in
      let r := (Zpos mx * 2 ^ (ex - e)) mod (Zpos my * 2 ^ (ey - e)) in
      match r with
      | Z0 => if sx then PrimFloat.neg_zero else PrimFloat.zero
      | _ => SF2Prim (binary_normalize prec emax (cond_Zopp sx r) e false)
      end
  end.

Definition float_nonzero (x : float) : bool := negb (PrimFloat.eqb x PrimFloat.zero).

(** [copysign(0.0, x)] *)
Definition signed_zero (x : float) : float :=
  if PrimFloat.get_sign x then PrimFloat.neg_zero else PrimFloat.zero.

(** [vx // wx] on two floats (float_floor_div over _float_div_mod). *)
Definition float_floordiv (vx wx : float) : res float :=
  if PrimFloat.eqb wx PrimFloat.zero then Raise ZeroDivisionError
  else
    let mod_ := float_fmod vx wx in
    let div := PrimFloat.div (PrimFloat.sub vx mod_) wx in
    let div :=
      if float_nonzero mod_ &&
         negb (Bool.eqb (float_lt wx PrimFloat.zero) (float_lt mod_ PrimFloat.zero))
      then PrimFloat.sub div PrimFloat.one else div in
    if float_nonzero div then
      let floordiv := float_floor div in
      Ok (if float_gt (PrimFloat.sub div floordiv) 0.5%float
          then PrimFloat.add floordiv PrimFloat.one else floordiv)
    else Ok (signed_zero (PrimFloat.div vx wx)).

(** [a // b] on two ints: the quotient rounds toward minus infinity, as
    [Z.div] does. *)
Definition int_floordiv (a b : Z) : res Z :=
  if b =? 0 then Raise ZeroDivisionError else Ok (a / b).

(** [x // y]: floor division. *)
Definition floordiv (x y : number) : res number :=
  match x, y with
  | PInt a, PInt b => let* q := int_floordiv a b in Ok (PInt q)
  | PFloat a, PFloat b => let* q := float_floordiv a b in Ok (PFloat q)
  | PFloat a, PInt b => let* b' := float_of_int b in let* q := float_floordiv a b' in Ok (PFloat q)
  | PInt a, PFloat b => let* a' := float_of_int a in let* q := float_floordiv a' b in Ok (PFloat q)
  end.

(** [2 ** n] for an int [n]: an int when [n >= 0]; for [n < 0] both operands
    are converted to float and the result is the float [2.0 ** float(n)], the
    power of two [2^n] rounded to binary64 (0.0 below [2^-1075]). *)
Definition pow2 (n : Z) : res number :=
  if 0 <=? n then Ok (PInt (2 ^ n))
  else let* _ := float_of_int n in Ok (PFloat (Z.ldexp PrimFloat.one n)).

(** [int(x)] on a number. *)
Definition int_ (x : number) : res Z :=
  match x with
  | PInt z => Ok z
  | PFloat f => int_of_float f
  end.

(** *** Strings *)

(** [str.isspace] on one character (code points below 256): TAB, LF, VT, FF,
    CR, FS, GS, RS, US, SPACE, NEL and NBSP. *)
Definition is_space (c : ascii) : bool :=
  let n := N_of_ascii c in
  ((9 <=? n) && (n <=? 13) || (28 <=? n) && (n <=? 32) || (n =? 133) || (n =? 160))%N.

(** [str.lower] on one character (code points below 256): A-Z and the
    capital letters of Latin-1 (U+00C0 to U+00DE but the sign U+00D7) move up
    by 32. *)
Definition lower_char (c : ascii) : ascii :=
  let n := N_of_ascii c in
  if ((65 <=? n) && (n <=? 90) || (192 <=? n) && (n <=? 222) && negb (n =? 215))%N
  then ascii_of_N (n + 32) else c.

Fixpoint lower (s : string) : string :=
  match s with
  | EmptyString => EmptyString
  | String c s' => String (lower_char c) (lower s')
  end.

Fixpoint lstrip (s : string) : string :=
  match s with
  | EmptyString => EmptyString
  | String c s' => if is_space c then lstrip s' else s
  end.

Fixpoint rstrip (s : string) : string :=
  match s with
  | EmptyString => EmptyString
  | String c s' =>
      match rstrip s' with
      | EmptyString => if is_space c then EmptyString else String c EmptyString
      | r => String c r
      end
  end.

(** [s.strip()] *)
Definition strip (s : string) : string := rstrip (lstrip s).

(** [len(s)] *)
Definition len (s : string) : Z := Z.of_nat (String.length s).

(** *** Dictionaries and sequences *)

(** [d[k]]: KeyError when the key is absent. *)
Definition getitem {V : Type} (d : gmap string V) (k : string) : res V :=
  match d !! k with
  | Some v => Ok v
  | None => Raise KeyError
  end.

(** [min(items, key=key)]: the first item whose key is strictly below the
    keys of all items before it and not above any key after it; ValueError
    on an empty sequence. *)
Fixpoint min_loop {A : Type} (key : A -> res Z) (items : list A)
    (minitem : A) (minval : Z) : res A :=
  match items with
  | [] => Ok minitem
  | item :: rest =>
      let* val := key item in
      if val <? minval then min_loop key rest item val
      else min_loop key rest minitem minval
  end.

Definition min_by {A : Type} (key : A -> res Z) (items : list A) : res A :=
  match items with
  | [] => Raise ValueError
  | item :: rest => let* val := key item in min_loop key rest item val
  end.

(** *** The random source *)

(** The generator's state is the stream of its future raw draws; drawing an
    index below [n] consumes one of them. *)
Definition rng : Type := nat -> nat.

Definition randbelow (n : nat) (g : rng) : nat * rng :=
  (g 0%nat mod n, fun i => g (S i))%nat.

(** [random.choices(population, k=k)]: [k] independent draws with
    replacement; no draw at all when [k <= 0]. *)
Fixpoint choices_loop (population : list ascii) (k : nat) (g : rng) : res (list ascii) * rng :=
  match k with
  | O => (Ok [], g)
  | S k' =>
      let '(i, g1) := randbelow (length population) g in
      match population !! i with
      | None => (Raise IndexError, g1)
      | Some c =>
          let '(r, g2) := choices_loop population k' g1 in
          (let* cs := r in Ok (c :: cs), g2)
      end
  end.

Definition choices (population : string) (k : Z) (g : rng) : res (list ascii) * rng :=
  choices_loop (list_ascii_of_string population) (Z.to_nat k) g.

(** [''.join(chars)] *)
Definition join (chars : list ascii) : string := string_of_list_ascii chars.

Definition ascii_lowercase : string := "abcdefghijklmnopqrstuvwxyz".
Definition digits : string := "0123456789".

End Py.

(** ** The functions of [src/main.py] *)

Import Py.

Definition BTC_TO_SATS : Z := 100000000.

(** [tx_priority(size_bytes, fee_btc)] *)
Definition tx_priority (size_bytes : Z) (fee_btc : number) : res string :=
  let* fee_rate := truediv fee_btc (PInt size_bytes) in
  if float_ge fee_rate 0.00005%float then Ok "high"%string
  else if float_ge fee_rate 0.00001%float then Ok "medium"%string
  else Ok "low"%string.

(** [normalize_address(address)] *)
Definition normalize_address (address : string) : string :=
  lower (strip address).

(** [find_high_fee(fee_list)]: the loop over [enumerate(fee_list)], started at
    position [index]. *)
Fixpoint find_high_fee_from (index : nat) (fee_list : list number) : option (nat * number) :=
  match fee_list with
  | [] => None
  | fee :: rest =>
      if num_gt fee 0.005%float then Some (index, fee)
      else find_high_fee_from (S index) rest
  end.

Definition find_high_fee (fee_list : list number) : option (nat * number) :=
  find_high_fee_from 0 fee_list.

(** [calculate_sats(btc)] *)
Definition calculate_sats (btc : float) : res Z :=
  let* product := mul (PFloat btc) (PInt BTC_TO_SATS) in
  int_ product.

(** [generate_address(prefix)]: the result and the generator's next state. *)
Definition generate_address (prefix : string) (g : rng) : res string * rng :=
  let suffix_length := 32 - len prefix in
  let '(drawn, g') := choices (ascii_lowercase ++ digits) suffix_length g in
  (let* chars := drawn in Ok (prefix ++ join chars)%string, g').

Definition default_prefix : string := "bc1q".

(** [validate_block_height(height)]: the argument is a number or a string. *)
Inductive height_arg : Type :=
  | HNum (n : number)
  | HStr (s : string).

Definition must_be_integer : string := "Block height must be an integer".
Definition cannot_be_negative : string := "Block height cannot be negative".
Definition seems_unrealistic : string := "Block height seems unrealistic".
Definition valid_block_height : string := "Valid block height".

Definition is_fractional_float (n : number) : bool :=
  match n with
  | PFloat f => negb (float_is_integer f)
  | PInt _ => false
  end.

Definition validate_block_height (height : height_arg) : res (bool * string) :=
  match height with
  | HStr _ => Ok (false, must_be_integer)
  | HNum n =>
      try_except
        (if is_fractional_float n then Ok (false, must_be_integer)
         else
           let* height_int := int_ n in
           if height_int <? 0 then Ok (false, cannot_be_negative)
           else if height_int >? 800000 then Ok (false, seems_unrealistic)
           else Ok (true, valid_block_height))
        ValueError
        (Ok (false, must_be_integer))
  end.

(** [halving_schedule(blocks)]: the loop, threading the dictionary [result]. *)
Definition base_reward : Z := 50 * BTC_TO_SATS.
Definition halving_interval : Z := 210000.

Fixpoint halving_loop (blocks : list Z) (result : gmap Z number) : res (gmap Z number) :=
  match blocks with
  | [] => Ok result
  | block :: rest =>
      let* halvings := int_floordiv block halving_interval in
      let* power := pow2 halvings in
      let* reward := floordiv (PInt base_reward) power in
      halving_loop rest (<[block := reward]> result)
  end.

Definition halving_schedule (blocks : list Z) : res (gmap Z number) :=
  halving_loop blocks ∅.

(** [find_utxo_with_min_value(utxos, target)] *)
Abbreviation utxo := (gmap string Z).

Fixpoint valid_utxos (utxos : list utxo) (target : Z) : res (list utxo) :=
  match utxos with
  | [] => Ok []
  | u :: rest =>
      let* value := getitem u "value" in
      let* rest' := valid_utxos rest target in
      Ok (if value >=? target then u :: rest' else rest')
  end.

Definition find_utxo_with_min_value (utxos : list utxo) (target : Z) : res utxo :=
  let* valid := valid_utxos utxos target in
  match valid with
  | [] => Ok ∅
  | _ => min_by (fun x => getitem x "value") valid
  end.

(** ** The other functions of [src/main.py] *)

(** *** Comparisons of a number with a literal *)

(** [a <= x] and [x <= b] for a float literal and a number, [a <= x] and
    [x <= b] for an int literal and a number: an int is compared with a float
    exactly, without conversion. *)
Definition float_le_num (a : float) (x : number) : bool :=
  match x with
  | PFloat f => float_le a f
  | PInt z => match int_float_compare z a with Some (Gt | Eq) => true | _ => false end
  end.

Definition num_le_float (x : number) (b : float) : bool :=
  match x with
  | PFloat f => float_le f b
  | PInt z => match int_float_compare z b with Some (Lt | Eq) => true | _ => false end
  end.

Definition int_le_num (a : Z) (x : number) : bool :=
  match x with
  | PInt z => a <=? z
  | PFloat f => match int_float_compare a f with Some (Lt | Eq) => true | _ => false end
  end.

Definition num_le_int (x : number) (b : Z) : bool :=
  match x with
  | PInt z => z <=? b
  | PFloat f => match int_float_compare b f with Some (Gt | Eq) => true | _ => false end
  end.

(** *** Objects *)

(** A reference to an object, and the store of the list objects: Python
    passes and returns references, and a list is mutated in place. *)
Abbreviation ref := positive.

Abbreviation store A := (gmap ref (list A)).

(** [l.append(x)] on the list object behind [l]. *)
Definition list_append {A : Type} (l : ref) (x : A) (st : store A) : store A :=
  alter (fun items => items ++ [x]) l st.

(** A field of a UTXO dictionary: a string or an integer. *)
Inductive field : Type :=
  | FStr (s : string)
  | FInt (z : Z).

(** [d.update(other)]: every key of [other] is set in [d]. *)
Definition dict_update {V : Type} (d other : gmap string V) : gmap string V :=
  other ∪ d.

(** *** The functions *)

Definition MINING_REWARD : float := 3.125%float.

(** [calculate_total_reward(blocks_mined)] *)
Definition calculate_total_reward (blocks_mined : number) : res number :=
  mul blocks_mined (PFloat MINING_REWARD).

(** [is_valid_tx_fee(fee)]: the chained comparison [0.00001 <= fee <= 0.01]. *)
Definition is_valid_tx_fee (fee : number) : bool :=
  float_le_num 0.00001%float fee && num_le_float fee 0.01%float.

(** [is_large_balance(balance)] *)
Definition is_large_balance (balance : number) : bool :=
  num_gt balance 50.0%float.

(** [is_mainnet(network)] *)
Definition is_mainnet (network : string) : bool :=
  String.eqb (lower network) "mainnet".

(** [is_in_range(value)]: the chained comparison [100 <= value <= 200]. *)
Definition is_in_range (value : number) : bool :=
  int_le_num 100 value && num_le_int value 200.

(** [is_same_wallet(wallet1, wallet2)]: identity of the two objects. *)
Definition is_same_wallet (wallet1 wallet2 : ref) : bool :=
  bool_decide (wallet1 = wallet2).

(** [add_utxo(utxos, new_utxo)]: the list behind [utxos] is extended in place
    and the same reference is returned. *)
Definition add_utxo {A : Type} (utxos : ref) (new_utxo : A) (st : store A) : ref * store A :=
  let st' := list_append utxos new_utxo st in
  (utxos, st').

(** [get_wallet_details()] *)
Definition get_wallet_details : string * float :=
  ("satoshi_wallet"%string, 50.0%float).

(** [get_tx_status(tx_pool, txid)] *)
Definition get_tx_status (tx_pool : gmap string string) (txid : string) : string :=
  default "not found"%string (tx_pool !! txid).

(** [create_utxo(txid, vout, **kwargs)] *)
Definition create_utxo (txid : string) (vout : Z) (kwargs : gmap string field)
    : gmap string field :=
  let utxo := {[ "txid"%string := FStr txid; "vout"%string := FInt vout ]} in
  dict_update utxo kwargs.

(** ** Strings of arbitrary code points *)

(** The functions above read a [str] as an 8-bit [string], which is all of
    Python's [str] only up to U+00FF. [normalize_address] is modelled a second
    time here on sequences of code points, with the tables of the runtime
    (CPython 3.11, Unicode 14.0): the white space of [str.strip], and
    [str.lower] with its one lower case of two code points (U+0130) and its
    rule on the capital sigma. *)
Module Unicode.

Definition in_ranges (c : Z) (ranges : list (Z * Z)) : bool :=
  existsb (fun r => (fst r <=? c) && (c <=? snd r)) ranges.

(** The code points of [_PyUnicode_IsWhitespace] (bidirectional type WS, B or S,
    or category Zs), as inclusive ranges. *)
Definition whitespace_ranges : list (Z * Z) :=
  [(9, 13); (28, 32); (133, 133); (160, 160); (5760, 5760); (8192, 8202); (8232, 8233);
   (8239, 8239); (8287, 8287); (12288, 12288)].

(** The code points with the property Case_Ignorable (Unicode 14.0), as
    inclusive ranges. *)
Definition case_ignorable_ranges : list (Z * Z) :=
  [(39, 39); (46, 46); (58, 58); (94, 94); (96, 96); (168, 168); (173, 173); (175, 175);
   (180, 180); (183, 184); (688, 879); (884, 885); (890, 890); (900, 901); (903, 903);
   (1155, 1161); (1369, 1369); (1375, 1375); (1425, 1469); (1471, 1471); (1473, 1474);
   (1476, 1477); (1479, 1479); (1524, 1524); (1536, 1541); (1552, 1562); (1564, 1564);
   (1600, 1600); (1611, 1631); (1648, 1648); (1750, 1757); (1759, 1768); (1770, 1773);
   (1807, 1807); (1809, 1809); (1840, 1866); (1958, 1968); (2027, 2037); (2042, 2042);
   (2045, 2045); (2070, 2093); (2137, 2139); (2184, 2184); (2192, 2193); (2200, 2207);
   (2249, 2306); (2362, 2362); (2364, 2364); (2369, 2376); (2381, 2381); (2385, 2391);
   (2402, 2403); (2417, 2417); (2433, 2433); (2492, 2492); (2497, 2500); (2509, 2509);
   (2530, 2531); (2558, 2558); (2561, 2562); (2620, 2620); (2625, 2626); (2631, 2632);
   (2635, 2637); (2641, 2641); (2672, 2673); (2677, 2677); (2689, 2690); (2748, 2748);
   (2753, 2757); (2759, 2760); (2765, 2765); (2786, 2787); (2810, 2815); (2817, 2817);
   (2876, 2876); (2879, 2879); (2881, 2884); (2893, 2893); (2901, 2902); (2914, 2915);
   (2946, 2946); (3008, 3008); (3021, 3021); (3072, 3072); (3076, 3076); (3132, 3132);
   (3134, 3136); (3142, 3144); (3146, 3149); (3157, 3158); (3170, 3171); (3201, 3201);
   (3260, 3260); (3263, 3263); (3270, 3270); (3276, 3277); (3298, 3299); (3328, 3329);
   (3387, 3388); (3393, 3396); (3405, 3405); (3426, 3427); (3457, 3457); (3530, 3530);
   (3538, 3540); (3542, 3542); (3633, 3633); (3636, 3642); (3654, 3662); (3761, 3761);
   (3764, 3772); (3782, 3782); (3784, 3789); (3864, 3865); (3893, 3893); (3895, 3895);
   (3897, 3897); (3953, 3966); (3968, 3972); (3974, 3975); (3981, 3991); (3993, 4028);
   (4038, 4038); (4141, 4144); (4146, 4151); (4153, 4154); (4157, 4158); (4184, 4185);
   (4190, 4192); (4209, 4212); (4226, 4226); (4229, 4230); (4237, 4237); (4253, 4253);
   (4348, 4348); (4957, 4959); (5906, 5908); (5938, 5939); (5970, 5971); (6002, 6003);
   (6068, 6069); (6071, 6077); (6086, 6086); (6089, 6099); (6103, 6103); (6109, 6109);
   (6155, 6159); (6211, 6211); (6277, 6278); (6313, 6313); (6432, 6434); (6439, 6440);
   (6450, 6450); (6457, 6459); (6679, 6680); (6683, 6683); (6742, 6742); (6744, 6750);
   (6752, 6752); (6754, 6754); (6757, 6764); (6771, 6780); (6783, 6783); (6823, 6823);
   (6832, 6862); (6912, 6915); (6964, 6964); (6966, 6970); (6972, 6972); (6978, 6978);
   (7019, 7027); (7040, 7041); (7074, 7077); (7080, 7081); (7083, 7085); (7142, 7142);
   (7144, 7145); (7149, 7149); (7151, 7153); (7212, 7219); (7222, 7223); (7288, 7293);
   (7376, 7378); (7380, 7392); (7394, 7400); (7405, 7405); (7412, 7412); (7416, 7417);
   (7468, 7530); (7544, 7544); (7579, 7679); (8125, 8125); (8127, 8129); (8141, 8143);
   (8157, 8159); (8173, 8175); (8189, 8190); (8203, 8207); (8216, 8217); (8228, 8228);
   (8231, 8231); (8234, 8238); (8288, 8292); (8294, 8303); (8305, 8305); (8319, 8319);
   (8336, 8348); (8400, 8432); (11388, 11389); (11503, 11505); (11631, 11631); (11647, 11647);
   (11744, 11775); (11823, 11823); (12293, 12293); (12330, 12333); (12337, 12341);
   (12347, 12347); (12441, 12446); (12540, 12542); (40981, 40981); (42232, 42237);
   (42508, 42508); (42607, 42610); (42612, 42621); (42623, 42623); (42652, 42655);
   (42736, 42737); (42752, 42785); (42864, 42864); (42888, 42890); (42994, 42996);
   (43000, 43001); (43010, 43010); (43014, 43014); (43019, 43019); (43045, 43046);
   (43052, 43052); (43204, 43205); (43232, 43249); (43263, 43263); (43302, 43309);
   (43335, 43345); (43392, 43394); (43443, 43443); (43446, 43449); (43452, 43453);
   (43471, 43471); (43493, 43494); (43561, 43566); (43569, 43570); (43573, 43574);
   (43587, 43587); (43596, 43596); (43632, 43632); (43644, 43644); (43696, 43696);
   (43698, 43700); (43703, 43704); (43710, 43711); (43713, 43713); (43741, 43741);
   (43756, 43757); (43763, 43764); (43766, 43766); (43867, 43871); (43881, 43883);
   (44005, 44005); (44008, 44008); (44013, 44013); (64286, 64286); (64434, 64450);
   (65024, 65039); (65043, 65043); (65056, 65071); (65106, 65106); (65109, 65109);
   (65279, 65279); (65287, 65287); (65294, 65294); (65306, 65306); (65342, 65342);
   (65344, 65344); (65392, 65392); (65438, 65439); (65507, 65507); (65529, 65531);
   (66045, 66045); (66272, 66272); (66422, 66426); (67456, 67461); (67463, 67504);
   (67506, 67514); (68097, 68099); (68101, 68102); (68108, 68111); (68152, 68154);
   (68159, 68159); (68325, 68326); (68900, 68903); (69291, 69292); (69446, 69456);
   (69506, 69509); (69633, 69633); (69688, 69702); (69744, 69744); (69747, 69748);
   (69759, 69761); (69811, 69814); (69817, 69818); (69821, 69821); (69826, 69826);
   (69837, 69837); (69888, 69890); (69927, 69931); (69933, 69940); (70003, 70003);
   (70016, 70017); (70070, 70078); (70089, 70092); (70095, 70095); (70191, 70193);
   (70196, 70196); (70198, 70199); (70206, 70206); (70367, 70367); (70371, 70378);
   (70400, 70401); (70459, 70460); (70464, 70464); (70502, 70508); (70512, 70516);
   (70712, 70719); (70722, 70724); (70726, 70726); (70750, 70750); (70835, 70840);
   (70842, 70842); (70847, 70848); (70850, 70851); (71090, 71093); (71100, 71101);
   (71103, 71104); (71132, 71133); (71219, 71226); (71229, 71229); (71231, 71232);
   (71339, 71339); (71341, 71341); (71344, 71349); (71351, 71351); (71453, 71455);
   (71458, 71461); (71463, 71467); (71727, 71735); (71737, 71738); (71995, 71996);
   (71998, 71998); (72003, 72003); (72148, 72151); (72154, 72155); (72160, 72160);
   (72193, 72202); (72243, 72248); (72251, 72254); (72263, 72263); (72273, 72278);
   (72281, 72283); (72330, 72342); (72344, 72345); (72752, 72758); (72760, 72765);
   (72767, 72767); (72850, 72871); (72874, 72880); (72882, 72883); (72885, 72886);
   (73009, 73014); (73018, 73018); (73020, 73021); (73023, 73029); (73031, 73031);
   (73104, 73105); (73109, 73109); (73111, 73111); (73459, 73460); (78896, 78904);
   (92912, 92916); (92976, 92982); (92992, 92995); (94031, 94031); (94095, 94111);
   (94176, 94177); (94179, 94180); (110576, 110579); (110581, 110587); (110589, 110590);
   (113821, 113822); (113824, 113827); (118528, 118573); (118576, 118598); (119143, 119145);
   (119155, 119170); (119173, 119179); (119210, 119213); (119362, 119364); (121344, 121398);
   (121403, 121452); (121461, 121461); (121476, 121476); (121499, 121503); (121505, 121519);
   (122880, 122886); (122888, 122904); (122907, 122913); (122915, 122916); (122918, 122922);
   (123184, 123197); (123566, 123566); (123628, 123631); (125136, 125142); (125252, 125259);
   (127995, 127999); (917505, 917505); (917536, 917631); (917760, 917999)].

(** The code points with the property Cased (Unicode 14.0), as inclusive
    ranges. *)
Definition cased_ranges : list (Z * Z) :=
  [(65, 90); (97, 122); (170, 170); (181, 181); (186, 186); (192, 214); (216, 246); (248, 442);
   (444, 447); (452, 659); (661, 696); (704, 705); (736, 740); (837, 837); (880, 883);
   (886, 887); (890, 893); (895, 895); (902, 902); (904, 906); (908, 908); (910, 929);
   (931, 1013); (1015, 1153); (1162, 1327); (1329, 1366); (1376, 1416); (4256, 4293);
   (4295, 4295); (4301, 4301); (4304, 4346); (4349, 4351); (5024, 5109); (5112, 5117);
   (7296, 7304); (7312, 7354); (7357, 7359); (7424, 7615); (7680, 7957); (7960, 7965);
   (7968, 8005); (8008, 8013); (8016, 8023); (8025, 8025); (8027, 8027); (8029, 8029);
   (8031, 8061); (8064, 8116); (8118, 8124); (8126, 8126); (8130, 8132); (8134, 8140);
   (8144, 8147); (8150, 8155); (8160, 8172); (8178, 8180); (8182, 8188); (8305, 8305);
   (8319, 8319); (8336, 8348); (8450, 8450); (8455, 8455); (8458, 8467); (8469, 8469);
   (8473, 8477); (8484, 8484); (8486, 8486); (8488, 8488); (8490, 8493); (8495, 8500);
   (8505, 8505); (8508, 8511); (8517, 8521); (8526, 8526); (8544, 8575); (8579, 8580);
   (9398, 9449); (11264, 11492); (11499, 11502); (11506, 11507); (11520, 11557);
   (11559, 11559); (11565, 11565); (42560, 42605); (42624, 42653); (42786, 42887);
   (42891, 42894); (42896, 42954); (42960, 42961); (42963, 42963); (42965, 42969);
   (42997, 42998); (43000, 43002); (43824, 43866); (43868, 43880); (43888, 43967);
   (64256, 64262); (64275, 64279); (65313, 65338); (65345, 65370); (66560, 66639);
   (66736, 66771); (66776, 66811); (66928, 66938); (66940, 66954); (66956, 66962);
   (66964, 66965); (66967, 66977); (66979, 66993); (66995, 67001); (67003, 67004);
   (67456, 67456); (67459, 67461); (67463, 67504); (67506, 67514); (68736, 68786);
   (68800, 68850); (71840, 71903); (93760, 93823); (119808, 119892); (119894, 119964);
   (119966, 119967); (119970, 119970); (119973, 119974); (119977, 119980); (119982, 119993);
   (119995, 119995); (119997, 120003); (120005, 120069); (120071, 120074); (120077, 120084);
   (120086, 120092); (120094, 120121); (120123, 120126); (120128, 120132); (120134, 120134);
   (120138, 120144); (120146, 120485); (120488, 120512); (120514, 120538); (120540, 120570);
   (120572, 120596); (120598, 120628); (120630, 120654); (120656, 120686); (120688, 120712);
   (120714, 120744); (120746, 120770); (120772, 120779); (122624, 122633); (122635, 122654);
   (125184, 125251); (127280, 127305); (127312, 127337); (127344, 127369)].

(** [_PyUnicode_ToLowerFull] (Unicode 14.0): every code point whose lower case
    is not itself, with its lower case. *)
Definition lower_table : list (Z * list Z) :=
  [(65, [97]); (66, [98]); (67, [99]); (68, [100]); (69, [101]); (70, [102]); (71, [103]);
   (72, [104]); (73, [105]); (74, [106]); (75, [107]); (76, [108]); (77, [109]); (78, [110]);
   (79, [111]); (80, [112]); (81, [113]); (82, [114]); (83, [115]); (84, [116]); (85, [117]);
   (86, [118]); (87, [119]); (88, [120]); (89, [121]); (90, [122]); (192, [224]); (193, [225]);
   (194, [226]); (195, [227]); (196, [228]); (197, [229]); (198, [230]); (199, [231]);
   (200, [232]); (201, [233]); (202, [234]); (203, [235]); (204, [236]); (205, [237]);
   (206, [238]); (207, [239]); (208, [240]); (209, [241]); (210, [242]); (211, [243]);
   (212, [244]); (213, [245]); (214, [246]); (216, [248]); (217, [249]); (218, [250]);
   (219, [251]); (220, [252]); (221, [253]); (222, [254]); (256, [257]); (258, [259]);
   (260, [261]); (262, [263]); (264, [265]); (266, [267]); (268, [269]); (270, [271]);
   (272, [273]); (274, [275]); (276, [277]); (278, [279]); (280, [281]); (282, [283]);
   (284, [285]); (286, [287]); (288, [289]); (290, [291]); (292, [293]); (294, [295]);
   (296, [297]); (298, [299]); (300, [301]); (302, [303]); (304, [105; 775]); (306, [307]);
   (308, [309]); (310, [311]); (313, [314]); (315, [316]); (317, [318]); (319, [320]);
   (321, [322]); (323, [324]); (325, [326]); (327, [328]); (330, [331]); (332, [333]);
   (334, [335]); (336, [337]); (338, [339]); (340, [341]); (342, [343]); (344, [345]);
   (346, [347]); (348, [349]); (350, [351]); (352, [353]); (354, [355]); (356, [357]);
   (358, [359]); (360, [361]); (362, [363]); (364, [365]); (366, [367]); (368, [369]);
   (370, [371]); (372, [373]); (374, [375]); (376, [255]); (377, [378]); (379, [380]);
   (381, [382]); (385, [595]); (386, [387]); (388, [389]); (390, [596]); (391, [392]);
   (393, [598]); (394, [599]); (395, [396]); (398, [477]); (399, [601]); (400, [603]);
   (401, [402]); (403, [608]); (404, [611]); (406, [617]); (407, [616]); (408, [409]);
   (412, [623]); (413, [626]); (415, [629]); (416, [417]); (418, [419]); (420, [421]);
   (422, [640]); (423, [424]); (425, [643]); (428, [429]); (430, [648]); (431, [432]);
   (433, [650]); (434, [651]); (435, [436]); (437, [438]); (439, [658]); (440, [441]);
   (444, [445]); (452, [454]); (453, [454]); (455, [457]); (456, [457]); (458, [460]);
   (459, [460]); (461, [462]); (463, [464]); (465, [466]); (467, [468]); (469, [470]);
   (471, [472]); (473, [474]); (475, [476]); (478, [479]); (480, [481]); (482, [483]);
   (484, [485]); (486, [487]); (488, [489]); (490, [491]); (492, [493]); (494, [495]);
   (497, [499]); (498, [499]); (500, [501]); (502, [405]); (503, [447]); (504, [505]);
   (506, [507]); (508, [509]); (510, [511]); (512, [513]); (514, [515]); (516, [517]);
   (518, [519]); (520, [521]); (522, [523]); (524, [525]); (526, [527]); (528, [529]);
   (530, [531]); (532, [533]); (534, [535]); (536, [537]); (538, [539]); (540, [541]);
   (542, [543]); (544, [414]); (546, [547]); (548, [549]); (550, [551]); (552, [553]);
   (554, [555]); (556, [557]); (558, [559]); (560, [561]); (562, [563]); (570, [11365]);
   (571, [572]); (573, [410]); (574, [11366]); (577, [578]); (579, [384]); (580, [649]);
   (581, [652]); (582, [583]); (584, [585]); (586, [587]); (588, [589]); (590, [591]);
   (880, [881]); (882, [883]); (886, [887]); (895, [1011]); (902, [940]); (904, [941]);
   (905, [942]); (906, [943]); (908, [972]); (910, [973]); (911, [974]); (913, [945]);
   (914, [946]); (915, [947]); (916, [948]); (917, [949]); (918, [950]); (919, [951]);
   (920, [952]); (921, [953]); (922, [954]); (923, [955]); (924, [956]); (925, [957]);
   (926, [958]); (927, [959]); (928, [960]); (929, [961]); (931, [963]); (932, [964]);
   (933, [965]); (934, [966]); (935, [967]); (936, [968]); (937, [969]); (938, [970]);
   (939, [971]); (975, [983]); (984, [985]); (986, [987]); (988, [989]); (990, [991]);
   (992, [993]); (994, [995]); (996, [997]); (998, [999]); (1000, [1001]); (1002, [1003]);
   (1004, [1005]); (1006, [1007]); (1012, [952]); (1015, [1016]); (1017, [1010]);
   (1018, [1019]); (1021, [891]); (1022, [892]); (1023, [893]); (1024, [1104]); (1025, [1105]);
   (1026, [1106]); (1027, [1107]); (1028, [1108]); (1029, [1109]); (1030, [1110]);
   (1031, [1111]); (1032, [1112]); (1033, [1113]); (1034, [1114]); (1035, [1115]);
   (1036, [1116]); (1037, [1117]); (1038, [1118]); (1039, [1119]); (1040, [1072]);
   (1041, [1073]); (1042, [1074]); (1043, [1075]); (1044, [1076]); (1045, [1077]);
   (1046, [1078]); (1047, [1079]); (1048, [1080]); (1049, [1081]); (1050, [1082]);
   (1051, [1083]); (1052, [1084]); (1053, [1085]); (1054, [1086]); (1055, [1087]);
   (1056, [1088]); (1057, [1089]); (1058, [1090]); (1059, [1091]); (1060, [1092]);
   (1061, [1093]); (1062, [1094]); (1063, [1095]); (1064, [1096]); (1065, [1097]);
   (1066, [1098]); (1067, [1099]); (1068, [1100]); (1069, [1101]); (1070, [1102]);
   (1071, [1103]); (1120, [1121]); (1122, [1123]); (1124, [1125]); (1126, [1127]);
   (1128, [1129]); (1130, [1131]); (1132, [1133]); (1134, [1135]); (1136, [1137]);
   (1138, [1139]); (1140, [1141]); (1142, [1143]); (1144, [1145]); (1146, [1147]);
   (1148, [1149]); (1150, [1151]); (1152, [1153]); (1162, [1163]); (1164, [1165]);
   (1166, [1167]); (1168, [1169]); (1170, [1171]); (1172, [1173]); (1174, [1175]);
   (1176, [1177]); (1178, [1179]); (1180, [1181]); (1182, [1183]); (1184, [1185]);
   (1186, [1187]); (1188, [1189]); (1190, [1191]); (1192, [1193]); (1194, [1195]);
   (1196, [1197]); (1198, [1199]); (1200, [1201]); (1202, [1203]); (1204, [1205]);
   (1206, [1207]); (1208, [1209]); (1210, [1211]); (1212, [1213]); (1214, [1215]);
   (1216, [1231]); (1217, [1218]); (1219, [1220]); (1221, [1222]); (1223, [1224]);
   (1225, [1226]); (1227, [1228]); (1229, [1230]); (1232, [1233]); (1234, [1235]);
   (1236, [1237]); (1238, [1239]); (1240, [1241]); (1242, [1243]); (1244, [1245]);
   (1246, [1247]); (1248, [1249]); (1250, [1251]); (1252, [1253]); (1254, [1255]);
   (1256, [1257]); (1258, [1259]); (1260, [1261]); (1262, [1263]); (1264, [1265]);
   (1266, [1267]); (1268, [1269]); (1270, [1271]); (1272, [1273]); (1274, [1275]);
   (1276, [1277]); (1278, [1279]); (1280, [1281]); (1282, [1283]); (1284, [1285]);
   (1286, [1287]); (1288, [1289]); (1290, [1291]); (1292, [1293]); (1294, [1295]);
   (1296, [1297]); (1298, [1299]); (1300, [1301]); (1302, [1303]); (1304, [1305]);
   (1306, [1307]); (1308, [1309]); (1310, [1311]); (1312, [1313]); (1314, [1315]);
   (1316, [1317]); (1318, [1319]); (1320, [1321]); (1322, [1323]); (1324, [1325]);
   (1326, [1327]); (1329, [1377]); (1330, [1378]); (1331, [1379]); (1332, [1380]);
   (1333, [1381]); (1334, [1382]); (1335, [1383]); (1336, [1384]); (1337, [1385]);
   (1338, [1386]); (1339, [1387]); (1340, [1388]); (1341, [1389]); (1342, [1390]);
   (1343, [1391]); (1344, [1392]); (1345, [1393]); (1346, [1394]); (1347, [1395]);
   (1348, [1396]); (1349, [1397]); (1350, [1398]); (1351, [1399]); (1352, [1400]);
   (1353, [1401]); (1354, [1402]); (1355, [1403]); (1356, [1404]); (1357, [1405]);
   (1358, [1406]); (1359, [1407]); (1360, [1408]); (1361, [1409]); (1362, [1410]);
   (1363, [1411]); (1364, [1412]); (1365, [1413]); (1366, [1414]); (4256, [11520]);
   (4257, [11521]); (4258, [11522]); (4259, [11523]); (4260, [11524]); (4261, [11525]);
   (4262, [11526]); (4263, [11527]); (4264, [11528]); (4265, [11529]); (4266, [11530]);
   (4267, [11531]); (4268, [11532]); (4269, [11533]); (4270, [11534]); (4271, [11535]);
   (4272, [11536]); (4273, [11537]); (4274, [11538]); (4275, [11539]); (4276, [11540]);
   (4277, [11541]); (4278, [11542]); (4279, [11543]); (4280, [11544]); (4281, [11545]);
   (4282, [11546]); (4283, [11547]); (4284, [11548]); (4285, [11549]); (4286, [11550]);
   (4287, [11551]); (4288, [11552]); (4289, [11553]); (4290, [11554]); (4291, [11555]);
   (4292, [11556]); (4293, [11557]); (4295, [11559]); (4301, [11565]); (5024, [43888]);
   (5025, [43889]); (5026, [43890]); (5027, [43891]); (5028, [43892]); (5029, [43893]);
   (5030, [43894]); (5031, [43895]); (5032, [43896]); (5033, [43897]); (5034, [43898]);
   (5035, [43899]); (5036, [43900]); (5037, [43901]); (5038, [43902]); (5039, [43903]);
   (5040, [43904]); (5041, [43905]); (5042, [43906]); (5043, [43907]); (5044, [43908]);
   (5045, [43909]); (5046, [43910]); (5047, [43911]); (5048, [43912]); (5049, [43913]);
   (5050, [43914]); (5051, [43915]); (5052, [43916]); (5053, [43917]); (5054, [43918]);
   (5055, [43919]); (5056, [43920]); (5057, [43921]); (5058, [43922]); (5059, [43923]);
   (5060, [43924]); (5061, [43925]); (5062, [43926]); (5063, [43927]); (5064, [43928]);
   (5065, [43929]); (5066, [43930]); (5067, [43931]); (5068, [43932]); (5069, [43933]);
   (5070, [43934]); (5071, [43935]); (5072, [43936]); (5073, [43937]); (5074, [43938]);
   (5075, [43939]); (5076, [43940]); (5077, [43941]); (5078, [43942]); (5079, [43943]);
   (5080, [43944]); (5081, [43945]); (5082, [43946]); (5083, [43947]); (5084, [43948]);
   (5085, [43949]); (5086, [43950]); (5087, [43951]); (5088, [43952]); (5089, [43953]);
   (5090, [43954]); (5091, [43955]); (5092, [43956]); (5093, [43957]); (5094, [43958]);
   (5095, [43959]); (5096, [43960]); (5097, [43961]); (5098, [43962]); (5099, [43963]);
   (5100, [43964]); (5101, [43965]); (5102, [43966]); (5103, [43967]); (5104, [5112]);
   (5105, [5113]); (5106, [5114]); (5107, [5115]); (5108, [5116]); (5109, [5117]);
   (7312, [4304]); (7313, [4305]); (7314, [4306]); (7315, [4307]); (7316, [4308]);
   (7317, [4309]); (7318, [4310]); (7319, [4311]); (7320, [4312]); (7321, [4313]);
   (7322, [4314]); (7323, [4315]); (7324, [4316]); (7325, [4317]); (7326, [4318]);
   (7327, [4319]); (7328, [4320]); (7329, [4321]); (7330, [4322]); (7331, [4323]);
   (7332, [4324]); (7333, [4325]); (7334, [4326]); (7335, [4327]); (7336, [4328]);
   (7337, [4329]); (7338, [4330]); (7339, [4331]); (7340, [4332]); (7341, [4333]);
   (7342, [4334]); (7343, [4335]); (7344, [4336]); (7345, [4337]); (7346, [4338]);
   (7347, [4339]); (7348, [4340]); (7349, [4341]); (7350, [4342]); (7351, [4343]);
   (7352, [4344]); (7353, [4345]); (7354, [4346]); (7357, [4349]); (7358, [4350]);
   (7359, [4351]); (7680, [7681]); (7682, [7683]); (7684, [7685]); (7686, [7687]);
   (7688, [7689]); (7690, [7691]); (7692, [7693]); (7694, [7695]); (7696, [7697]);
   (7698, [7699]); (7700, [7701]); (7702, [7703]); (7704, [7705]); (7706, [7707]);
   (7708, [7709]); (7710, [7711]); (7712, [7713]); (7714, [7715]); (7716, [7717]);
   (7718, [7719]); (7720, [7721]); (7722, [7723]); (7724, [7725]); (7726, [7727]);
   (7728, [7729]); (7730, [7731]); (7732, [7733]); (7734, [7735]); (7736, [7737]);
   (7738, [7739]); (7740, [7741]); (7742, [7743]); (7744, [7745]); (7746, [7747]);
   (7748, [7749]); (7750, [7751]); (7752, [7753]); (7754, [7755]); (7756, [7757]);
   (7758, [7759]); (7760, [7761]); (7762, [7763]); (7764, [7765]); (7766, [7767]);
   (7768, [7769]); (7770, [7771]); (7772, [7773]); (7774, [7775]); (7776, [7777]);
   (7778, [7779]); (7780, [7781]); (7782, [7783]); (7784, [7785]); (7786, [7787]);
   (7788, [7789]); (7790, [7791]); (7792, [7793]); (7794, [7795]); (7796, [7797]);
   (7798, [7799]); (7800, [7801]); (7802, [7803]); (7804, [7805]); (7806, [7807]);
   (7808, [7809]); (7810, [7811]); (7812, [7813]); (7814, [7815]); (7816, [7817]);
   (7818, [7819]); (7820, [7821]); (7822, [7823]); (7824, [7825]); (7826, [7827]);
   (7828, [7829]); (7838, [223]); (7840, [7841]); (7842, [7843]); (7844, [7845]);
   (7846, [7847]); (7848, [7849]); (7850, [7851]); (7852, [7853]); (7854, [7855]);
   (7856, [7857]); (7858, [7859]); (7860, [7861]); (7862, [7863]); (7864, [7865]);
   (7866, [7867]); (7868, [7869]); (7870, [7871]); (7872, [7873]); (7874, [7875]);
   (7876, [7877]); (7878, [7879]); (7880, [7881]); (7882, [7883]); (7884, [7885]);
   (7886, [7887]); (7888, [7889]); (7890, [7891]); (7892, [7893]); (7894, [7895]);
   (7896, [7897]); (7898, [7899]); (7900, [7901]); (7902, [7903]); (7904, [7905]);
   (7906, [7907]); (7908, [7909]); (7910, [7911]); (7912, [7913]); (7914, [7915]);
   (7916, [7917]); (7918, [7919]); (7920, [7921]); (7922, [7923]); (7924, [7925]);
   (7926, [7927]); (7928, [7929]); (7930, [7931]); (7932, [7933]); (7934, [7935]);
   (7944, [7936]); (7945, [7937]); (7946, [7938]); (7947, [7939]); (7948, [7940]);
   (7949, [7941]); (7950, [7942]); (7951, [7943]); (7960, [7952]); (7961, [7953]);
   (7962, [7954]); (7963, [7955]); (7964, [7956]); (7965, [7957]); (7976, [7968]);
   (7977, [7969]); (7978, [7970]); (7979, [7971]); (7980, [7972]); (7981, [7973]);
   (7982, [7974]); (7983, [7975]); (7992, [7984]); (7993, [7985]); (7994, [7986]);
   (7995, [7987]); (7996, [7988]); (7997, [7989]); (7998, [7990]); (7999, [7991]);
   (8008, [8000]); (8009, [8001]); (8010, [8002]); (8011, [8003]); (8012, [8004]);
   (8013, [8005]); (8025, [8017]); (8027, [8019]); (8029, [8021]); (8031, [8023]);
   (8040, [8032]); (8041, [8033]); (8042, [8034]); (8043, [8035]); (8044, [8036]);
   (8045, [8037]); (8046, [8038]); (8047, [8039]); (8072, [8064]); (8073, [8065]);
   (8074, [8066]); (8075, [8067]); (8076, [8068]); (8077, [8069]); (8078, [8070]);
   (8079, [8071]); (8088, [8080]); (8089, [8081]); (8090, [8082]); (8091, [8083]);
   (8092, [8084]); (8093, [8085]); (8094, [8086]); (8095, [8087]); (8104, [8096]);
   (8105, [8097]); (8106, [8098]); (8107, [8099]); (8108, [8100]); (8109, [8101]);
   (8110, [8102]); (8111, [8103]); (8120, [8112]); (8121, [8113]); (8122, [8048]);
   (8123, [8049]); (8124, [8115]); (8136, [8050]); (8137, [8051]); (8138, [8052]);
   (8139, [8053]); (8140, [8131]); (8152, [8144]); (8153, [8145]); (8154, [8054]);
   (8155, [8055]); (8168, [8160]); (8169, [8161]); (8170, [8058]); (8171, [8059]);
   (8172, [8165]); (8184, [8056]); (8185, [8057]); (8186, [8060]); (8187, [8061]);
   (8188, [8179]); (8486, [969]); (8490, [107]); (8491, [229]); (8498, [8526]); (8544, [8560]);
   (8545, [8561]); (8546, [8562]); (8547, [8563]); (8548, [8564]); (8549, [8565]);
   (8550, [8566]); (8551, [8567]); (8552, [8568]); (8553, [8569]); (8554, [8570]);
   (8555, [8571]); (8556, [8572]); (8557, [8573]); (8558, [8574]); (8559, [8575]);
   (8579, [8580]); (9398, [9424]); (9399, [9425]); (9400, [9426]); (9401, [9427]);
   (9402, [9428]); (9403, [9429]); (9404, [9430]); (9405, [9431]); (9406, [9432]);
   (9407, [9433]); (9408, [9434]); (9409, [9435]); (9410, [9436]); (9411, [9437]);
   (9412, [9438]); (9413, [9439]); (9414, [9440]); (9415, [9441]); (9416, [9442]);
   (9417, [9443]); (9418, [9444]); (9419, [9445]); (9420, [9446]); (9421, [9447]);
   (9422, [9448]); (9423, [9449]); (11264, [11312]); (11265, [11313]); (11266, [11314]);
   (11267, [11315]); (11268, [11316]); (11269, [11317]); (11270, [11318]); (11271, [11319]);
   (11272, [11320]); (11273, [11321]); (11274, [11322]); (11275, [11323]); (11276, [11324]);
   (11277, [11325]); (11278, [11326]); (11279, [11327]); (11280, [11328]); (11281, [11329]);
   (11282, [11330]); (11283, [11331]); (11284, [11332]); (11285, [11333]); (11286, [11334]);
   (11287, [11335]); (11288, [11336]); (11289, [11337]); (11290, [11338]); (11291, [11339]);
   (11292, [11340]); (11293, [11341]); (11294, [11342]); (11295, [11343]); (11296, [11344]);
   (11297, [11345]); (11298, [11346]); (11299, [11347]); (11300, [11348]); (11301, [11349]);
   (11302, [11350]); (11303, [11351]); (11304, [11352]); (11305, [11353]); (11306, [11354]);
   (11307, [11355]); (11308, [11356]); (11309, [11357]); (11310, [11358]); (11311, [11359]);
   (11360, [11361]); (11362, [619]); (11363, [7549]); (11364, [637]); (11367, [11368]);
   (11369, [11370]); (11371, [11372]); (11373, [593]); (11374, [625]); (11375, [592]);
   (11376, [594]); (11378, [11379]); (11381, [11382]); (11390, [575]); (11391, [576]);
   (11392, [11393]); (11394, [11395]); (11396, [11397]); (11398, [11399]); (11400, [11401]);
   (11402, [11403]); (11404, [11405]); (11406, [11407]); (11408, [11409]); (11410, [11411]);
   (11412, [11413]); (11414, [11415]); (11416, [11417]); (11418, [11419]); (11420, [11421]);
   (11422, [11423]); (11424, [11425]); (11426, [11427]); (11428, [11429]); (11430, [11431]);
   (11432, [11433]); (11434, [11435]); (11436, [11437]); (11438, [11439]); (11440, [11441]);
   (11442, [11443]); (11444, [11445]); (11446, [11447]); (11448, [11449]); (11450, [11451]);
   (11452, [11453]); (11454, [11455]); (11456, [11457]); (11458, [11459]); (11460, [11461]);
   (11462, [11463]); (11464, [11465]); (11466, [11467]); (11468, [11469]); (11470, [11471]);
   (11472, [11473]); (11474, [11475]); (11476, [11477]); (11478, [11479]); (11480, [11481]);
   (11482, [11483]); (11484, [11485]); (11486, [11487]); (11488, [11489]); (11490, [11491]);
   (11499, [11500]); (11501, [11502]); (11506, [11507]); (42560, [42561]); (42562, [42563]);
   (42564, [42565]); (42566, [42567]); (42568, [42569]); (42570, [42571]); (42572, [42573]);
   (42574, [42575]); (42576, [42577]); (42578, [42579]); (42580, [42581]); (42582, [42583]);
   (42584, [42585]); (42586, [42587]); (42588, [42589]); (42590, [42591]); (42592, [42593]);
   (42594, [42595]); (42596, [42597]); (42598, [42599]); (42600, [42601]); (42602, [42603]);
   (42604, [42605]); (42624, [42625]); (42626, [42627]); (42628, [42629]); (42630, [42631]);
   (42632, [42633]); (42634, [42635]); (42636, [42637]); (42638, [42639]); (42640, [42641]);
   (42642, [42643]); (42644, [42645]); (42646, [42647]); (42648, [42649]); (42650, [42651]);
   (42786, [42787]); (42788, [42789]); (42790, [42791]); (42792, [42793]); (42794, [42795]);
   (42796, [42797]); (42798, [42799]); (42802, [42803]); (42804, [42805]); (42806, [42807]);
   (42808, [42809]); (42810, [42811]); (42812, [42813]); (42814, [42815]); (42816, [42817]);
   (42818, [42819]); (42820, [42821]); (42822, [42823]); (42824, [42825]); (42826, [42827]);
   (42828, [42829]); (42830, [42831]); (42832, [42833]); (42834, [42835]); (42836, [42837]);
   (42838, [42839]); (42840, [42841]); (42842, [42843]); (42844, [42845]); (42846, [42847]);
   (42848, [42849]); (42850, [42851]); (42852, [42853]); (42854, [42855]); (42856, [42857]);
   (42858, [42859]); (42860, [42861]); (42862, [42863]); (42873, [42874]); (42875, [42876]);
   (42877, [7545]); (42878, [42879]); (42880, [42881]); (42882, [42883]); (42884, [42885]);
   (42886, [42887]); (42891, [42892]); (42893, [613]); (42896, [42897]); (42898, [42899]);
   (42902, [42903]); (42904, [42905]); (42906, [42907]); (42908, [42909]); (42910, [42911]);
   (42912, [42913]); (42914, [42915]); (42916, [42917]); (42918, [42919]); (42920, [42921]);
   (42922, [614]); (42923, [604]); (42924, [609]); (42925, [620]); (42926, [618]);
   (42928, [670]); (42929, [647]); (42930, [669]); (42931, [43859]); (42932, [42933]);
   (42934, [42935]); (42936, [42937]); (42938, [42939]); (42940, [42941]); (42942, [42943]);
   (42944, [42945]); (42946, [42947]); (42948, [42900]); (42949, [642]); (42950, [7566]);
   (42951, [42952]); (42953, [42954]); (42960, [42961]); (42966, [42967]); (42968, [42969]);
   (42997, [42998]); (65313, [65345]); (65314, [65346]); (65315, [65347]); (65316, [65348]);
   (65317, [65349]); (65318, [65350]); (65319, [65351]); (65320, [65352]); (65321, [65353]);
   (65322, [65354]); (65323, [65355]); (65324, [65356]); (65325, [65357]); (65326, [65358]);
   (65327, [65359]); (65328, [65360]); (65329, [65361]); (65330, [65362]); (65331, [65363]);
   (65332, [65364]); (65333, [65365]); (65334, [65366]); (65335, [65367]); (65336, [65368]);
   (65337, [65369]); (65338, [65370]); (66560, [66600]); (66561, [66601]); (66562, [66602]);
   (66563, [66603]); (66564, [66604]); (66565, [66605]); (66566, [66606]); (66567, [66607]);
   (66568, [66608]); (66569, [66609]); (66570, [66610]); (66571, [66611]); (66572, [66612]);
   (66573, [66613]); (66574, [66614]); (66575, [66615]); (66576, [66616]); (66577, [66617]);
   (66578, [66618]); (66579, [66619]); (66580, [66620]); (66581, [66621]); (66582, [66622]);
   (66583, [66623]); (66584, [66624]); (66585, [66625]); (66586, [66626]); (66587, [66627]);
   (66588, [66628]); (66589, [66629]); (66590, [66630]); (66591, [66631]); (66592, [66632]);
   (66593, [66633]); (66594, [66634]); (66595, [66635]); (66596, [66636]); (66597, [66637]);
   (66598, [66638]); (66599, [66639]); (66736, [66776]); (66737, [66777]); (66738, [66778]);
   (66739, [66779]); (66740, [66780]); (66741, [66781]); (66742, [66782]); (66743, [66783]);
   (66744, [66784]); (66745, [66785]); (66746, [66786]); (66747, [66787]); (66748, [66788]);
   (66749, [66789]); (66750, [66790]); (66751, [66791]); (66752, [66792]); (66753, [66793]);
   (66754, [66794]); (66755, [66795]); (66756, [66796]); (66757, [66797]); (66758, [66798]);
   (66759, [66799]); (66760, [66800]); (66761, [66801]); (66762, [66802]); (66763, [66803]);
   (66764, [66804]); (66765, [66805]); (66766, [66806]); (66767, [66807]); (66768, [66808]);
   (66769, [66809]); (66770, [66810]); (66771, [66811]); (66928, [66967]); (66929, [66968]);
   (66930, [66969]); (66931, [66970]); (66932, [66971]); (66933, [66972]); (66934, [66973]);
   (66935, [66974]); (66936, [66975]); (66937, [66976]); (66938, [66977]); (66940, [66979]);
   (66941, [66980]); (66942, [66981]); (66943, [66982]); (66944, [66983]); (66945, [66984]);
   (66946, [66985]); (66947, [66986]); (66948, [66987]); (66949, [66988]); (66950, [66989]);
   (66951, [66990]); (66952, [66991]); (66953, [66992]); (66954, [66993]); (66956, [66995]);
   (66957, [66996]); (66958, [66997]); (66959, [66998]); (66960, [66999]); (66961, [67000]);
   (66962, [67001]); (66964, [67003]); (66965, [67004]); (68736, [68800]); (68737, [68801]);
   (68738, [68802]); (68739, [68803]); (68740, [68804]); (68741, [68805]); (68742, [68806]);
   (68743, [68807]); (68744, [68808]); (68745, [68809]); (68746, [68810]); (68747, [68811]);
   (68748, [68812]); (68749, [68813]); (68750, [68814]); (68751, [68815]); (68752, [68816]);
   (68753, [68817]); (68754, [68818]); (68755, [68819]); (68756, [68820]); (68757, [68821]);
   (68758, [68822]); (68759, [68823]); (68760, [68824]); (68761, [68825]); (68762, [68826]);
   (68763, [68827]); (68764, [68828]); (68765, [68829]); (68766, [68830]); (68767, [68831]);
   (68768, [68832]); (68769, [68833]); (68770, [68834]); (68771, [68835]); (68772, [68836]);
   (68773, [68837]); (68774, [68838]); (68775, [68839]); (68776, [68840]); (68777, [68841]);
   (68778, [68842]); (68779, [68843]); (68780, [68844]); (68781, [68845]); (68782, [68846]);
   (68783, [68847]); (68784, [68848]); (68785, [68849]); (68786, [68850]); (71840, [71872]);
   (71841, [71873]); (71842, [71874]); (71843, [71875]); (71844, [71876]); (71845, [71877]);
   (71846, [71878]); (71847, [71879]); (71848, [71880]); (71849, [71881]); (71850, [71882]);
   (71851, [71883]); (71852, [71884]); (71853, [71885]); (71854, [71886]); (71855, [71887]);
   (71856, [71888]); (71857, [71889]); (71858, [71890]); (71859, [71891]); (71860, [71892]);
   (71861, [71893]); (71862, [71894]); (71863, [71895]); (71864, [71896]); (71865, [71897]);
   (71866, [71898]); (71867, [71899]); (71868, [71900]); (71869, [71901]); (71870, [71902]);
   (71871, [71903]); (93760, [93792]); (93761, [93793]); (93762, [93794]); (93763, [93795]);
   (93764, [93796]); (93765, [93797]); (93766, [93798]); (93767, [93799]); (93768, [93800]);
   (93769, [93801]); (93770, [93802]); (93771, [93803]); (93772, [93804]); (93773, [93805]);
   (93774, [93806]); (93775, [93807]); (93776, [93808]); (93777, [93809]); (93778, [93810]);
   (93779, [93811]); (93780, [93812]); (93781, [93813]); (93782, [93814]); (93783, [93815]);
   (93784, [93816]); (93785, [93817]); (93786, [93818]); (93787, [93819]); (93788, [93820]);
   (93789, [93821]); (93790, [93822]); (93791, [93823]); (125184, [125218]);
   (125185, [125219]); (125186, [125220]); (125187, [125221]); (125188, [125222]);
   (125189, [125223]); (125190, [125224]); (125191, [125225]); (125192, [125226]);
   (125193, [125227]); (125194, [125228]); (125195, [125229]); (125196, [125230]);
   (125197, [125231]); (125198, [125232]); (125199, [125233]); (125200, [125234]);
   (125201, [125235]); (125202, [125236]); (125203, [125237]); (125204, [125238]);
   (125205, [125239]); (125206, [125240]); (125207, [125241]); (125208, [125242]);
   (125209, [125243]); (125210, [125244]); (125211, [125245]); (125212, [125246]);
   (125213, [125247]); (125214, [125248]); (125215, [125249]); (125216, [125250]);
   (125217, [125251])].

Definition is_whitespace (c : Z) : bool := in_ranges c whitespace_ranges.
Definition is_case_ignorable (c : Z) : bool := in_ranges c case_ignorable_ranges.
Definition is_cased (c : Z) : bool := in_ranges c cased_ranges.

Fixpoint assoc (c : Z) (table : list (Z * list Z)) : option (list Z) :=
  match table with
  | [] => None
  | (k, v) :: table' => if k =? c then Some v else assoc c table'
  end.

Definition to_lower_full (c : Z) : list Z :=
  match assoc c lower_table with
  | Some mapped => mapped
  | None => [c]
  end.

(** The first code point of [s] that is not case-ignorable, if any: the loops
    of [handle_capital_sigma]. *)
Fixpoint skip_case_ignorable (s : list Z) : option Z :=
  match s with
  | [] => None
  | c :: s' => if is_case_ignorable c then skip_case_ignorable s' else Some c
  end.

(** [handle_capital_sigma]: U+03A3 becomes the final sigma U+03C2 when a cased
    code point precedes it and none follows it, case-ignorable code points
    apart, and U+03C3 otherwise. [before] holds the code points before the
    sigma, the nearest first; [after] those after it. *)
Definition handle_capital_sigma (before after : list Z) : Z :=
  let final_sigma :=
    match skip_case_ignorable before with
    | Some c => is_cased c
    | None => false
    end in
  let final_sigma :=
    if final_sigma
    then match skip_case_ignorable after with
         | Some c => negb (is_cased c)
         | None => true
         end
    else false in
  if final_sigma then 962 else 963.

Definition lower_ucs4 (before : list Z) (c : Z) (after : list Z) : list Z :=
  if c =? 931 then [handle_capital_sigma before after] else to_lower_full c.

(** [do_lower]: the loop of [str.lower] over the code points. *)
Fixpoint do_lower (before s : list Z) : list Z :=
  match s with
  | [] => []
  | c :: rest => lower_ucs4 before c rest ++ do_lower (c :: before) rest
  end.

Definition lower (s : list Z) : list Z := do_lower [] s.

Fixpoint lstrip (s : list Z) : list Z :=
  match s with
  | [] => []
  | c :: s' => if is_whitespace c then lstrip s' else s
  end.

Fixpoint rstrip (s : list Z) : list Z :=
  match s with
  | [] => []
  | c :: s' =>
      match rstrip s' with
      | [] => if is_whitespace c then [] else [c]
      | r => c :: r
      end
  end.

Definition strip (s : list Z) : list Z := rstrip (lstrip s).

(** [normalize_address(address)] *)
Definition normalize_address (address : list Z) : list Z :=
  lower (strip address).

(** The code points of an 8-bit string. *)
Definition codes (s : string) : list Z :=
  map (fun c => Z.of_N (N_of_ascii c)) (list_ascii_of_string s).

(** A code point that [str.lower] leaves alone wherever it stands. *)
Definition stable (c : Z) : bool :=
  negb (c =? 931) && match assoc c lower_table with None => true | Some _ => false end.

(** The lower case of an entry of the table is not empty, has no white space
    and is stable. *)
Definition checked (entry : Z * list Z) : bool :=
  match snd entry with
  | [] => false
  | mapped => forallb (fun d => negb (is_whitespace d) && stable d) mapped
  end.

Definition starts_clean (s : list Z) : bool :=
  match s with
  | [] => true
  | c :: _ => negb (is_whitespace c)
  end.

Fixpoint ends_clean (s : list Z) : bool :=
  match s with
  | [] => true
  | c :: s' =>
      match s' with
      | [] => negb (is_whitespace c)
      | _ => ends_clean s'
      end
  end.

End Unicode.

(** ** Vocabulary of the properties *)

(** The least magnitude that rounds out of the binary64 range: half a unit
    in the last place above the largest finite float. *)
Definition float_int_limit : Z := 2 ^ 1024 - 2 ^ 970.

(** The quotient [fee_btc / size_bytes] stays in the float range: a size that
    converts to a float under a float fee, a quotient of integers below
    [float_int_limit] under an int fee. *)
Definition quotient_fits (fee_btc : number) (size_bytes : Z) : Prop :=
  match fee_btc with
  | PFloat _ => Z.abs size_bytes < float_int_limit
  | PInt a => Z.abs a < float_int_limit * Z.abs size_bytes
  end.

(** [math.floor(f)] as an integer: the largest integer not above [f];
    undefined (an exception) on infinities and NaN. *)
Definition floor_int (f : float) : res Z :=
  match Prim2SF f with
  | S754_zero _ => Ok 0
  | S754_finite s m e => Ok (SF_floor s m e)
  | S754_infinity _ => Raise OverflowError
  | S754_nan => Raise ValueError
  end.

(** The outcome of rounding to 53 digits at exponent [e1]: the mantissa [m2]
    that rounding to nearest even left, or [2^52] one exponent higher when the
    rounding carried to [2^53], and an infinity when the exponent leaves the
    format. *)
Definition rounded_normal (s : bool) (m2 e1 : Z) : spec_float :=
  if m2 <? 2 ^ 53
  then (if e1 <=? 971 then S754_finite s (Z.to_pos m2) e1 else S754_infinity s)
  else (if e1 + 1 <=? 971 then S754_finite s (Z.to_pos (2 ^ 52)) (e1 + 1)
        else S754_infinity s).

(** The reward the schedule assigns to a height, in integer arithmetic. *)
Definition reward_at (height : Z) : Z :=
  50 * 100000000 / 2 ^ (height / 210000).

(** One turn of the loop of [halving_schedule] on a non-negative height. *)
Definition record_reward (result : gmap Z number) (block : Z) : gmap Z number :=
  <[block := PInt (reward_at block)]> result.

(** [u] has a ['value'] key. *)
Definition has_value (u : utxo) : Prop := is_Some (u !! "value").

(** [u] carries a value that meets the target. *)
Definition qualifies (target : Z) (u : utxo) : bool :=
  match u !! "value" with
  | Some v => target <=? v
  | None => false
  end.

(** The verdict on a height once it is an integer. *)
Definition verdict (height_int : Z) : bool * string :=
  if height_int <? 0 then (false, cannot_be_negative)
  else if 800000 <? height_int then (false, seems_unrealistic)
  else (true, valid_block_height).

(** A string is trimmed on the left when it does not start with white
    space. *)
Definition starts_clean (s : string) : bool :=
  match s with
  | EmptyString => true
  | String c _ => negb (is_space c)
  end.

(** No character of [s] is white space. *)
Fixpoint no_space (s : string) : bool :=
  match s with
  | EmptyString => true
  | String c s' => negb (is_space c) && no_space s'
  end.

(** [f] is exactly [num / 2^k]. *)
Definition is_ratio (f : float) (num k : Z) : bool :=
  match Prim2SF f with
  | S754_zero _ => num =? 0
  | S754_finite s m e =>
      if 0 <=? e then cond_Zopp s (Zpos m) * 2 ^ e * 2 ^ k =? num
      else cond_Zopp s (Zpos m) * 2 ^ k =? num * 2 ^ (- e)
  | S754_infinity _ | S754_nan => false
  end.

(** ** Properties *)

(** *** Strings: [strip] and [lower] *)

Section StringFacts.

Ltac by_cases_on_char c :=
  destruct c as [[] [] [] [] [] [] [] []]; vm_compute; reflexivity.

Lemma is_space_lower_char (c : ascii) : is_space (lower_char c) = is_space c.
Proof. by_cases_on_char c. Qed.

Lemma lower_char_idem (c : ascii) : lower_char (lower_char c) = lower_char c.
Proof. by_cases_on_char c. Qed.

Lemma lower_idem (s : string) : lower (lower s) = lower s.
Proof.
  induction s as [|c s IH]; simpl; [reflexivity|].
  now rewrite lower_char_idem, IH.
Qed.

Lemma lstrip_lower (s : string) : lstrip (lower s) = lower (lstrip s).
Proof.
  induction s as [|c s IH]; simpl; [reflexivity|].
  rewrite is_space_lower_char. now destruct (is_space c).
Qed.

Lemma rstrip_lower (s : string) : rstrip (lower s) = lower (rstrip s).
Proof.
  induction s as [|c s IH]; simpl; [reflexivity|].
  rewrite IH, is_space_lower_char.
  destruct (rstrip s); simpl; [now destruct (is_space c)|reflexivity].
Qed.

Lemma strip_lower (s : string) : strip (lower s) = lower (strip s).
Proof. unfold strip. now rewrite lstrip_lower, rstrip_lower. Qed.

Lemma lstrip_starts_clean (s : string) : starts_clean (lstrip s) = true.
Proof.
  induction s as [|c s IH]; simpl; [reflexivity|].
  destruct (is_space c) eqn:E; [exact IH|]. simpl. now rewrite E.
Qed.

Lemma lstrip_clean (s : string) : starts_clean s = true -> lstrip s = s.
Proof.
  destruct s as [|c s]; simpl; [reflexivity|].
  now destruct (is_space c).
Qed.

Lemma rstrip_starts_clean (s : string) :
  starts_clean s = true -> starts_clean (rstrip s) = true.
Proof.
  destruct s as [|c s]; simpl; [reflexivity|].
  intros Hc. destruct (rstrip s); simpl.
  - destruct (is_space c) eqn:E; [discriminate|]. simpl. now rewrite E.
  - exact Hc.
Qed.

Lemma rstrip_idem (s : string) : rstrip (rstrip s) = rstrip s.
Proof.
  induction s as [|c s IH]; simpl; [reflexivity|].
  destruct (rstrip s) as [|d r] eqn:E.
  - destruct (is_space c) eqn:Ec; simpl; [reflexivity|]. now rewrite Ec.
  - simpl. simpl in IH. now rewrite IH.
Qed.

Lemma strip_idem (s : string) : strip (strip s) = strip s.
Proof.
  unfold strip.
  rewrite (lstrip_clean (rstrip (lstrip s))).
  - apply rstrip_idem.
  - apply rstrip_starts_clean, lstrip_starts_clean.
Qed.

End StringFacts.

(** On 8-bit strings [normalize_address] is idempotent. *)
Lemma normalize_address_idempotent_latin1 (a : string) :
  normalize_address (normalize_address a) = normalize_address a.
Proof.
  unfold normalize_address.
  now rewrite strip_lower, strip_idem, lower_idem.
Qed.

(** *** [find_high_fee] *)

Lemma find_high_fee_from_spec (fee_list : list number) (start : nat) :
  match find_high_fee_from start fee_list with
  | Some (index, fee) =>
      (start <= index)%nat /\
      fee_list !! (index - start)%nat = Some fee /\
      num_gt fee 0.005%float = true /\
      forall j f, (j < index - start)%nat -> fee_list !! j = Some f ->
                  num_gt f 0.005%float = false
  | None => forall f, f ∈ fee_list -> num_gt f 0.005%float = false
  end.
Proof.
  revert start. induction fee_list as [|fee rest IH]; intros start; simpl.
  - intros f Hf. inversion Hf.
  - destruct (num_gt fee 0.005%float) eqn:Hfee.
    + replace (start - start)%nat with 0%nat by lia.
      repeat split; auto with lia.
    + specialize (IH (S start)).
      destruct (find_high_fee_from (S start) rest) as [[index f']|].
      * destruct IH as (Hle & Hat & Hgt & Hbefore).
        replace (index - start)%nat with (S (index - S start)) by lia.
        repeat split; auto with lia.
        intros [|j] f Hj Hf; simpl in Hf.
        -- now inversion Hf; subst.
        -- apply (Hbefore j); auto with lia.
      * intros f Hf. apply elem_of_cons in Hf as [->|Hf]; auto.
Qed.

(** C8. [find_high_fee] returns the pair (index, fee) of the element at the
    lowest index whose fee is strictly greater than 0.005 (every element
    before it is not), and [None] when no element exceeds 0.005; in
    particular [find_high_fee([0.001, 0.006, 0.01]) == (1, 0.006)] and
    [find_high_fee([0.001]) == None]. *)
Theorem find_high_fee_first_match (fee_list : list number) :
  match find_high_fee fee_list with
  | Some (index, fee) =>
      fee_list !! index = Some fee /\
      num_gt fee 0.005%float = true /\
      forall j f, (j < index)%nat -> fee_list !! j = Some f ->
                  num_gt f 0.005%float = false
  | None => forall f, f ∈ fee_list -> num_gt f 0.005%float = false
  end
  /\ find_high_fee [PFloat 0.001; PFloat 0.006; PFloat 0.01] = Some (1%nat, PFloat 0.006)
  /\ find_high_fee [PFloat 0.001] = None.
Proof.
  split; [|split; reflexivity].
  unfold find_high_fee.
  pose proof (find_high_fee_from_spec fee_list 0) as H.
  destruct (find_high_fee_from 0 fee_list) as [[index fee]|]; [|exact H].
  destruct H as (_ & Hat & Hgt & Hbefore).
  rewrite Nat.sub_0_r in Hat, Hbefore. auto.
Qed.

(** *** [halving_schedule] *)

Lemma halving_loop_nonneg (blocks : list Z) (result : gmap Z number) :
  Forall (fun h => 0 <= h) blocks ->
  halving_loop blocks result = Ok (foldl record_reward result blocks).
Proof.
  intros H. revert result.
  induction H as [|block rest Hblock _ IH]; intros result; [reflexivity|].
  cbn [halving_loop foldl].
  unfold int_floordiv, halving_interval. simpl (210000 =? 0). cbn [res_bind].
  assert (Hh : 0 <= block / 210000) by (apply Z.div_pos; lia).
  unfold pow2. destruct (Z.leb_spec 0 (block / 210000)) as [_|]; [|lia].
  cbn [res_bind floordiv]. unfold int_floordiv.
  assert (Hp : 0 < 2 ^ (block / 210000)) by (apply Z.pow_pos_nonneg; lia).
  destruct (Z.eqb_spec (2 ^ (block / 210000)) 0) as [E|_]; [lia|].
  cbn [res_bind]. rewrite IH. reflexivity.
Qed.

Lemma foldl_record_reward_dom (blocks : list Z) (result : gmap Z number) :
  dom (foldl record_reward result blocks) = dom result ∪ list_to_set blocks.
Proof.
  revert result. induction blocks as [|block rest IH]; intros result; simpl.
  - set_solver.
  - rewrite IH. unfold record_reward. rewrite dom_insert_L. set_solver.
Qed.

Lemma foldl_record_reward_lookup (blocks : list Z) (result : gmap Z number) (h : Z) :
  h ∈ blocks ->
  foldl record_reward result blocks !! h = Some (PInt (reward_at h)).
Proof.
  revert result. induction blocks as [|block rest IH]; intros result Hin; simpl.
  - inversion Hin.
  - destruct (decide (h ∈ rest)) as [Hrest|Hrest]; [now apply IH|].
    apply elem_of_cons in Hin as [->|Hin]; [|contradiction].
    assert (Hkeep : forall l m, block ∉ l ->
              foldl record_reward m l !! block = m !! block).
    { induction l as [|x l IHl]; intros m Hl; simpl; [reflexivity|].
      rewrite IHl by set_solver. unfold record_reward.
      apply lookup_insert_ne. set_solver. }
    rewrite Hkeep by assumption. unfold record_reward. apply lookup_insert_eq.
Qed.

(** C1 (as amended). For every list of non-negative block heights,
    [halving_schedule] returns a mapping with one entry per distinct input
    height, each height [h] mapped to [floor(50 * 100000000 / 2^(h div 210000))]
    in integer arithmetic (so duplicates all carry the one value that the last
    occurrence writes); in particular [halving_schedule([0]) == {0: 5000000000}],
    [halving_schedule([210000]) == {210000: 2500000000}] and
    [halving_schedule([420000]) == {420000: 1250000000}]. *)
Theorem halving_schedule_nonneg (blocks : list Z) :
  Forall (fun h => 0 <= h) blocks ->
  (exists result,
      halving_schedule blocks = Ok result /\
      dom result = list_to_set blocks /\
      size result = length (remove_dups blocks) /\
      forall h, h ∈ blocks -> result !! h = Some (PInt (reward_at h)))
  /\ halving_schedule [0] = Ok {[0 := PInt 5000000000]}
  /\ halving_schedule [210000] = Ok {[210000 := PInt 2500000000]}
  /\ halving_schedule [420000] = Ok {[420000 := PInt 1250000000]}.
Proof.
  intros H. split.
  - exists (foldl record_reward ∅ blocks).
    assert (Hdom : dom (foldl record_reward ∅ blocks) =@{gset Z} list_to_set blocks).
    { rewrite foldl_record_reward_dom, dom_empty_L. apply (left_id_L ∅ (∪)). }
    repeat split.
    + now apply halving_loop_nonneg.
    + exact Hdom.
    + assert (Hnd : list_to_set (remove_dups blocks) =@{gset Z} list_to_set blocks).
      { apply set_eq. intros x. rewrite !elem_of_list_to_set.
        apply elem_of_remove_dups. }
      rewrite <- size_dom, Hdom, <- Hnd.
      apply size_list_to_set, NoDup_remove_dups.
    + intros h Hh. now apply foldl_record_reward_lookup.
  - repeat split; unfold halving_schedule;
      (rewrite halving_loop_nonneg by (repeat constructor; lia));
      cbn [foldl]; unfold record_reward; rewrite insert_empty; reflexivity.
Qed.

Lemma halving_schedule_nonneg_witness :
  Forall (fun h => 0 <= h) [0; 210000; 0] /\
  exists result, halving_schedule [0; 210000; 0] = Ok result /\
                 result !! 0 = Some (PInt 5000000000).
Proof.
  assert (H : Forall (fun h => 0 <= h) [0; 210000; 0]) by (repeat constructor; lia).
  split; [exact H|].
  destruct (halving_schedule_nonneg [0; 210000; 0] H) as [(result & Hres & _ & _ & Hlook) _].
  exists result. split; [exact Hres|].
  apply (Hlook 0). apply list_elem_of_here.
Defined.

(** C1, counterexample. A height below [-1074 * 210000] makes [2 ** halvings]
    the float [0.0], and the floor division by it raises ZeroDivisionError: no
    mapping is returned. *)
Lemma halving_schedule_negative_height :
  halving_schedule [-225750000] = Raise ZeroDivisionError /\
  ~ exists result, halving_schedule [-225750000] = Ok result /\
                   result !! (-225750000) = Some (PInt (reward_at (-225750000))).
Proof.
  assert (H : halving_schedule [-225750000] = Raise ZeroDivisionError)
    by (vm_compute; reflexivity).
  split; [exact H|].
  intros (result & Hres & _). rewrite H in Hres. discriminate.
Qed.

(** *** [find_utxo_with_min_value] *)

Section MinValue.

Variable target : Z.

Let key : utxo -> res Z := fun x => getitem x "value".

Lemma valid_utxos_filter (utxos : list utxo) :
  Forall has_value utxos ->
  valid_utxos utxos target = Ok (List.filter (qualifies target) utxos).
Proof.
  induction 1 as [|u rest [v Hu] _ IH]; [reflexivity|].
  cbn [valid_utxos List.filter]. unfold getitem, qualifies at 1.
  rewrite Hu, IH. cbn [res_bind].
  rewrite Z.geb_leb. now destruct (target <=? v).
Qed.

Lemma filter_split {A : Type} (f : A -> bool) (l b a : list A) (x : A) :
  List.filter f l = b ++ x :: a ->
  exists B A', l = B ++ x :: A' /\ List.filter f B = b /\ List.filter f A' = a.
Proof.
  revert b. induction l as [|y l IH]; intros b H; simpl in H.
  - now destruct b.
  - destruct (f y) eqn:Hy.
    + destruct b as [|y' b]; simpl in H; inversion H; subst.
      * exists [], l. now split.
      * destruct (IH b H2) as (B & A' & -> & HB & HA).
        exists (y' :: B), A'. simpl. rewrite Hy, HB. now split.
    + destruct (IH b H) as (B & A' & -> & HB & HA).
      exists (y :: B), A'. simpl. rewrite Hy. now split.
Qed.

(** The strict minimum so far survives exactly when nothing later is strictly
    smaller; otherwise the first strictly smaller item that nothing later
    undercuts takes over. *)
Lemma min_loop_spec (items : list utxo) (minitem : utxo) (minval : Z) :
  Forall has_value items ->
  exists u,
    min_loop key items minitem minval = Ok u /\
    ((u = minitem /\
      forall u' v', u' ∈ items -> u' !! "value" = Some v' -> minval <= v') \/
     (exists b a v,
        items = b ++ u :: a /\ u !! "value" = Some v /\ v < minval /\
        (forall u' v', u' ∈ b -> u' !! "value" = Some v' -> v < v') /\
        (forall u' v', u' ∈ a -> u' !! "value" = Some v' -> v <= v'))).
Proof.
  intros H. revert minitem minval.
  induction H as [|x rest [xv Hx] _ IH]; intros minitem minval.
  - exists minitem. split; [reflexivity|]. left. split; [reflexivity|].
    intros u' v' Hin. inversion Hin.
  - cbn [min_loop]. unfold key at 1, getitem. rewrite Hx. cbn [res_bind].
    destruct (Z.ltb_spec xv minval) as [Hlt|Hge].
    + destruct (IH x xv) as (u & Hu & [[-> Hall]|(b & a & v & -> & Hv & Hvx & Hb & Ha)]).
      * exists x. split; [exact Hu|]. right. exists [], rest, xv.
        repeat split; auto. intros u' v' Hin. inversion Hin.
      * exists u. split; [exact Hu|]. right. exists (x :: b), a, v.
        repeat split; auto with lia.
        intros u' v' Hin Hv'. apply elem_of_cons in Hin as [->|Hin].
        -- rewrite Hx in Hv'. inversion Hv'; subst. lia.
        -- eauto.
    + destruct (IH minitem minval) as (u & Hu & [[-> Hall]|(b & a & v & -> & Hv & Hvx & Hb & Ha)]).
      * exists minitem. split; [exact Hu|]. left. split; [reflexivity|].
        intros u' v' Hin Hv'. apply elem_of_cons in Hin as [->|Hin].
        -- rewrite Hx in Hv'. inversion Hv'; subst. lia.
        -- eauto.
      * exists u. split; [exact Hu|]. right. exists (x :: b), a, v.
        repeat split; auto.
        intros u' v' Hin Hv'. apply elem_of_cons in Hin as [->|Hin].
        -- rewrite Hx in Hv'. inversion Hv'; subst. lia.
        -- eauto.
Qed.

Lemma min_by_spec (items : list utxo) :
  Forall has_value items -> items <> [] ->
  exists b u a v,
    min_by key items = Ok u /\ items = b ++ u :: a /\ u !! "value" = Some v /\
    (forall u' v', u' ∈ b -> u' !! "value" = Some v' -> v < v') /\
    (forall u' v', u' ∈ a -> u' !! "value" = Some v' -> v <= v').
Proof.
  intros H Hne. destruct H as [|x rest [xv Hx] Hrest]; [contradiction|].
  cbn [min_by]. unfold key at 1, getitem. rewrite Hx. cbn [res_bind].
  destruct (min_loop_spec rest x xv Hrest)
    as (u & Hu & [[-> Hall]|(b & a & v & -> & Hv & Hvx & Hb & Ha)]).
  - exists [], x, rest, xv. repeat split; auto.
    intros u' v' Hin. inversion Hin.
  - exists (x :: b), u, a, v. repeat split; auto.
    intros u' v' Hin Hv'. apply elem_of_cons in Hin as [->|Hin].
    + rewrite Hx in Hv'. inversion Hv'; subst. lia.
    + eauto.
Qed.

End MinValue.

(** C2. On UTXOs that all have a ['value'] key, [find_utxo_with_min_value]
    returns the empty mapping when no UTXO has [value >= target]; otherwise it
    returns a UTXO of the list with [value >= target] whose value is strictly
    below that of every qualifying UTXO before it and not above that of any
    qualifying UTXO after it (the smallest value, first occurrence on ties);
    in particular on [{value:100}, {value:300}, {value:200}] with target 150
    it returns [{value:200}]. *)
Theorem find_utxo_with_min_value_spec (utxos : list utxo) (target : Z) :
  Forall has_value utxos ->
  ((forall u, u ∈ utxos -> qualifies target u = false) ->
   find_utxo_with_min_value utxos target = Ok ∅)
  /\
  ((exists u, u ∈ utxos /\ qualifies target u = true) ->
   exists before u after v,
     find_utxo_with_min_value utxos target = Ok u /\
     utxos = before ++ u :: after /\
     u !! "value" = Some v /\ target <= v /\
     (forall u' v', u' ∈ before -> u' !! "value" = Some v' -> target <= v' -> v < v') /\
     (forall u' v', u' ∈ after -> u' !! "value" = Some v' -> target <= v' -> v <= v'))
  /\
  find_utxo_with_min_value
    [{["value" := 100]}; {["value" := 300]}; {["value" := 200]}] 150
  = Ok {["value" := 200]}.
Proof.
  intros H. unfold find_utxo_with_min_value.
  rewrite (valid_utxos_filter target utxos H). cbn [res_bind].
  assert (Hq : forall l (u' : utxo), u' ∈ List.filter (qualifies target) l <->
                 u' ∈ l /\ qualifies target u' = true).
  { intros l u'. rewrite !list_elem_of_In. apply List.filter_In. }
  split; [|split].
  - intros Hnone.
    destruct (List.filter (qualifies target) utxos) as [|x rest] eqn:E; [reflexivity|].
    assert (Hx : x ∈ List.filter (qualifies target) utxos)
      by (rewrite E; apply list_elem_of_here).
    apply (Hq utxos x) in Hx as [Hin Hqx]. rewrite (Hnone x Hin) in Hqx. discriminate.
  - intros (u0 & Hin0 & Hq0).
    assert (Hne : List.filter (qualifies target) utxos <> []).
    { intros E. assert (Hu0 : u0 ∈ List.filter (qualifies target) utxos)
        by (apply (Hq utxos u0); auto).
      rewrite E in Hu0. inversion Hu0. }
    assert (Hvalid : Forall has_value (List.filter (qualifies target) utxos)).
    { apply Forall_forall. intros x Hx. apply (Hq utxos x) in Hx as [Hx _].
      rewrite Forall_forall in H. auto. }
    destruct (min_by_spec (List.filter (qualifies target) utxos) Hvalid Hne)
      as (b & u & a & v & Hmin & Hsplit & Hv & Hb & Ha).
    destruct (filter_split _ _ _ _ _ Hsplit) as (B & A' & HBA & HB & HA).
    exists B, u, A', v.
    assert (Hu : u ∈ List.filter (qualifies target) utxos)
      by (rewrite Hsplit; apply elem_of_app; right; apply list_elem_of_here).
    apply (Hq utxos u) in Hu as [_ Hqu]. unfold qualifies in Hqu. rewrite Hv in Hqu.
    split.
    { destruct (List.filter (qualifies target) utxos); [contradiction|exact Hmin]. }
    repeat split; auto with lia.
    + intros u' v' Hin Hv' Hge. apply (Hb u' v'); [|exact Hv'].
      rewrite <- HB. apply (Hq B u'). split; [exact Hin|].
      unfold qualifies. rewrite Hv'. lia.
    + intros u' v' Hin Hv' Hge. apply (Ha u' v'); [|exact Hv'].
      rewrite <- HA. apply (Hq A' u'). split; [exact Hin|].
      unfold qualifies. rewrite Hv'. lia.
  - vm_compute. reflexivity.
Qed.

Lemma find_utxo_with_min_value_spec_witness :
  Forall has_value [{["value" := 100]}; {["value" := 300]}; {["value" := 200]}] /\
  find_utxo_with_min_value
    [{["value" := 100]}; {["value" := 300]}; {["value" := 200]}] 150
  = Ok {["value" := 200]}.
Proof.
  assert (H : Forall has_value
                [{["value" := 100]}; {["value" := 300]}; {["value" := 200]}]).
  { repeat constructor; eexists; vm_compute; reflexivity. }
  split; [exact H|].
  exact (proj2 (proj2 (find_utxo_with_min_value_spec _ 150 H))).
Defined.

(** *** [generate_address] *)

Lemma length_append (s t : string) :
  String.length (s ++ t) = (String.length s + String.length t)%nat.
Proof.
  induction s as [|c s IH]; [reflexivity|].
  change (S (String.length (s ++ t)) = S (String.length s + String.length t)).
  now f_equal.
Qed.

Lemma append_empty_r (s : string) : (s ++ "")%string = s.
Proof.
  induction s as [|c s IH]; [reflexivity|].
  change (String c (s ++ "") = String c s)%string. now f_equal.
Qed.

Lemma length_join (chars : list ascii) : String.length (join chars) = length chars.
Proof. induction chars as [|c chars IH]; simpl; [reflexivity|now rewrite IH]. Qed.

Lemma choices_loop_spec (population : list ascii) (k : nat) (g : rng) :
  population <> [] ->
  exists chars,
    fst (choices_loop population k g) = Ok chars /\
    length chars = k /\
    Forall (fun c => c ∈ population) chars.
Proof.
  intros Hne. revert g. induction k as [|k IH]; intros g.
  - exists []. repeat split. constructor.
  - cbn [choices_loop randbelow].
    assert (Hlt : (g 0 mod length population < length population)%nat).
    { apply Nat.mod_upper_bound. destruct population; [contradiction|discriminate]. }
    destruct (lookup_lt_is_Some_2 _ _ Hlt) as [c Hc]. rewrite Hc.
    destruct (IH (fun i => g (S i))) as (chars & Hchars & Hlen & Hall).
    destruct (choices_loop population k (fun i => g (S i))) as [r g2].
    simpl in Hchars. subst r. exists (c :: chars). repeat split.
    + simpl. now rewrite Hlen.
    + constructor; [|exact Hall]. eapply list_elem_of_lookup_2, Hc.
Qed.

(** C6. For every prefix and every outcome of the random source,
    [generate_address] returns the prefix followed by a suffix of lowercase
    letters and digits of length [max(0, 32 - len(prefix))]: the result has
    length exactly 32 whenever the prefix has at most 32 characters, as in the
    call without argument (prefix "bc1q"), and it is the prefix itself, with an
    empty suffix, when the prefix is longer than 32 characters. *)
Theorem generate_address_spec (prefix : string) (g : rng) :
  (exists suffix,
      fst (generate_address prefix g) = Ok (prefix ++ suffix)%string /\
      String.length suffix = Z.to_nat (32 - len prefix) /\
      Forall (fun c => c ∈ list_ascii_of_string (ascii_lowercase ++ digits))
             (list_ascii_of_string suffix) /\
      (len prefix <= 32 -> String.length (prefix ++ suffix) = 32%nat) /\
      (32 < len prefix -> suffix = ""%string /\
                          fst (generate_address prefix g) = Ok prefix))
  /\
  (exists suffix,
      fst (generate_address default_prefix g) = Ok ("bc1q" ++ suffix)%string /\
      String.length ("bc1q" ++ suffix) = 32%nat).
Proof.
  assert (Hgen : forall p,
    exists suffix,
      fst (generate_address p g) = Ok (p ++ suffix)%string /\
      String.length suffix = Z.to_nat (32 - len p) /\
      Forall (fun c => c ∈ list_ascii_of_string (ascii_lowercase ++ digits))
             (list_ascii_of_string suffix)).
  { intros p. unfold generate_address, choices.
    destruct (choices_loop_spec (list_ascii_of_string (ascii_lowercase ++ digits))
                (Z.to_nat (32 - len p)) g) as (chars & Hchars & Hlen & Hall);
      [discriminate|].
    destruct (choices_loop _ _ g) as [r g']. simpl in Hchars. subst r.
    exists (join chars). cbn [fst res_bind]. repeat split.
    - now rewrite length_join.
    - unfold join. now rewrite list_ascii_of_string_of_list_ascii. }
  split.
  - destruct (Hgen prefix) as (suffix & Hres & Hlen & Hall).
    exists suffix. split; [exact Hres|]. split; [exact Hlen|]. split; [exact Hall|].
    split.
    + intros Hle. rewrite length_append, Hlen. unfold len in *. lia.
    + intros Hlong.
      assert (Hempty : suffix = ""%string).
      { destruct suffix; [reflexivity|]. simpl in Hlen. unfold len in *. lia. }
      split; [exact Hempty|].
      rewrite Hres, Hempty. now rewrite append_empty_r.
  - destruct (Hgen default_prefix) as (suffix & Hres & Hlen & _).
    exists suffix. split; [exact Hres|].
    rewrite length_append, Hlen. reflexivity.
Qed.

(** *** [validate_block_height] *)

(** [int()] succeeds on every number that is not a fractional float (a float
    on which [is_integer()] is false, which includes the infinities and NaN). *)
Lemma int_of_whole_number (n : number) :
  is_fractional_float n = false -> exists z, int_ n = Ok z.
Proof.
  destruct n as [z|f]; simpl; [now exists z|].
  unfold float_is_integer, int_of_float.
  destruct (Prim2SF f) as [s|s| |s m e]; simpl; try discriminate; eauto.
Qed.

(** C3. [validate_block_height] always returns a (bool, message) pair and lets
    no exception escape: a string, and a float that is not integral, yield
    (False, "Block height must be an integer"); any other input converts to an
    integer and yields "cannot be negative" below 0, "seems unrealistic" above
    800000 and (True, "Valid block height") otherwise; with the five examples
    of the specification. *)
Theorem validate_block_height_spec (height : height_arg) :
  (exists ok message, validate_block_height height = Ok (ok, message))
  /\
  match height with
  | HStr _ => validate_block_height height = Ok (false, must_be_integer)
  | HNum n =>
      if is_fractional_float n
      then validate_block_height height = Ok (false, must_be_integer)
      else exists height_int,
             int_ n = Ok height_int /\
             validate_block_height height = Ok (verdict height_int) /\
             (height_int < 0 ->
              validate_block_height height = Ok (false, "Block height cannot be negative"%string)) /\
             (800000 < height_int ->
              validate_block_height height = Ok (false, "Block height seems unrealistic"%string)) /\
             (0 <= height_int <= 800000 ->
              validate_block_height height = Ok (true, "Valid block height"%string))
  end
  /\ validate_block_height (HNum (PInt 800000)) = Ok (true, "Valid block height"%string)
  /\ validate_block_height (HNum (PInt 800001)) = Ok (false, "Block height seems unrealistic"%string)
  /\ validate_block_height (HNum (PInt (-1))) = Ok (false, "Block height cannot be negative"%string)
  /\ validate_block_height (HStr "abc") = Ok (false, "Block height must be an integer"%string)
  /\ validate_block_height (HNum (PFloat 100.5)) = Ok (false, "Block height must be an integer"%string).
Proof.
  assert (Hcases :
    match height with
    | HStr _ => validate_block_height height = Ok (false, must_be_integer)
    | HNum n =>
        if is_fractional_float n
        then validate_block_height height = Ok (false, must_be_integer)
        else exists height_int,
               int_ n = Ok height_int /\
               validate_block_height height = Ok (verdict height_int)
    end).
  { destruct height as [n|s]; [|reflexivity].
    cbn [validate_block_height].
    destruct (is_fractional_float n) eqn:Hfrac; [reflexivity|].
    destruct (int_of_whole_number n Hfrac) as [z Hz].
    exists z. split; [exact Hz|]. rewrite Hz. cbn [res_bind]. unfold verdict.
    rewrite Z.gtb_ltb.
    destruct (z <? 0); [reflexivity|]. now destruct (800000 <? z). }
  split; [|split; [|repeat split; vm_compute; reflexivity]].
  - destruct height as [n|s]; [|do 2 eexists; reflexivity].
    destruct (is_fractional_float n); [do 2 eexists; exact Hcases|].
    destruct Hcases as (z & _ & Hz). rewrite Hz.
    destruct (verdict z). do 2 eexists; reflexivity.
  - destruct height as [n|s]; [|exact Hcases].
    destruct (is_fractional_float n); [exact Hcases|].
    destruct Hcases as (z & Hint & Hz). exists z.
    split; [exact Hint|]. split; [exact Hz|].
    rewrite Hz. unfold verdict.
    repeat split; intros Hrange.
    + destruct (Z.ltb_spec z 0); [reflexivity|lia].
    + destruct (Z.ltb_spec z 0); [lia|].
      destruct (Z.ltb_spec 800000 z); [reflexivity|lia].
    + destruct (Z.ltb_spec z 0); [lia|].
      destruct (Z.ltb_spec 800000 z); [lia|reflexivity].
Qed.

(** *** Rounding an integer to binary64 *)

Section Rounding.

Lemma fexp_eq (e : Z) : fexp prec emax e = Z.max (e - 53) (-1074).
Proof. reflexivity. Qed.

(** The number of binary digits of a positive number brackets it between two
    consecutive powers of two. *)
Lemma digits2_pos_bounds (p : positive) :
  2 ^ (Zpos (digits2_pos p) - 1) <= Zpos p < 2 ^ Zpos (digits2_pos p).
Proof.
  induction p as [p IH|p IH|]; cbn [digits2_pos];
    [| |vm_compute; split; congruence].
  - rewrite Pos2Z.inj_succ, (Pos2Z.inj_xI p).
    replace (Z.succ (Zpos (digits2_pos p)) - 1) with (Z.succ (Zpos (digits2_pos p) - 1)) by lia.
    rewrite !Z.pow_succ_r by lia.
    destruct IH as [Hlo Hhi]. revert Hlo Hhi.
    generalize (2 ^ (Zpos (digits2_pos p) - 1)) (2 ^ Zpos (digits2_pos p)). lia.
  - rewrite Pos2Z.inj_succ, (Pos2Z.inj_xO p).
    replace (Z.succ (Zpos (digits2_pos p)) - 1) with (Z.succ (Zpos (digits2_pos p) - 1)) by lia.
    rewrite !Z.pow_succ_r by lia.
    destruct IH as [Hlo Hhi]. revert Hlo Hhi.
    generalize (2 ^ (Zpos (digits2_pos p) - 1)) (2 ^ Zpos (digits2_pos p)). lia.
Qed.

Lemma digits2_pos_unique (p : positive) (d : Z) :
  2 ^ (d - 1) <= Zpos p < 2 ^ d -> Zpos (digits2_pos p) = d.
Proof.
  intros [Hlo Hhi]. pose proof (digits2_pos_bounds p) as [Hlo' Hhi'].
  assert (0 < d).
  { destruct (Z.ltb_spec 0 d) as [|Hd]; [assumption|].
    destruct (Z.eq_dec d 0) as [->|]; [simpl in Hhi; lia|].
    rewrite Z.pow_neg_r in Hhi by lia. lia. }
  destruct (Z.lt_trichotomy (Zpos (digits2_pos p)) d) as [Hlt|[Heq|Hgt]]; [|exact Heq|].
  - assert (2 ^ Zpos (digits2_pos p) <= 2 ^ (d - 1)) by (apply Z.pow_le_mono_r; lia). lia.
  - assert (2 ^ d <= 2 ^ (Zpos (digits2_pos p) - 1)) by (apply Z.pow_le_mono_r; lia). lia.
Qed.

(** Shifting left appends zero digits. *)
Lemma iter_xO_mul (p k : positive) : Zpos (Pos.iter xO p k) = Zpos p * 2 ^ Zpos k.
Proof.
  apply (Pos.iter_ind positive xO p (fun k q => Zpos q = Zpos p * 2 ^ Zpos k)).
  - rewrite (Pos2Z.inj_xO p). change (2 ^ 1) with 2. lia.
  - intros k' q Hq. rewrite (Pos2Z.inj_xO q), Hq, Pos2Z.inj_succ, Z.pow_succ_r by lia. lia.
Qed.

(** One step of [shr] halves the mantissa. *)
Lemma shr_1_m (mrs : shr_record) :
  0 <= shr_m mrs -> shr_m (shr_1 mrs) = shr_m mrs / 2.
Proof.
  destruct mrs as [m r s]. cbn [shr_m]. intros Hm.
  destruct m as [|[p|p|]|p]; cbn [shr_1 shr_m]; [reflexivity| | |reflexivity|lia].
  - rewrite (Pos2Z.inj_xI p). apply (Z.div_unique_pos _ _ _ 1); lia.
  - rewrite (Pos2Z.inj_xO p). apply (Z.div_unique_pos _ _ _ 0); lia.
Qed.

Lemma shr_1_nonneg (mrs : shr_record) : 0 <= shr_m mrs -> 0 <= shr_m (shr_1 mrs).
Proof. intros H. rewrite shr_1_m by assumption. apply Z.div_pos; lia. Qed.

Lemma iter_shr_1_m (k : positive) (mrs : shr_record) :
  0 <= shr_m mrs ->
  0 <= shr_m (SpecFloat.iter_pos shr_1 k mrs) /\
  shr_m (SpecFloat.iter_pos shr_1 k mrs) = shr_m mrs / 2 ^ Zpos k.
Proof.
  revert mrs. induction k as [k IH|k IH|]; intros mrs Hm; cbn [SpecFloat.iter_pos].
  - pose proof (shr_1_nonneg mrs Hm) as H1.
    destruct (IH (shr_1 mrs) H1) as [H2 E2].
    destruct (IH _ H2) as [H3 E3].
    split; [exact H3|].
    rewrite E3, E2, shr_1_m by assumption.
    rewrite !Z.div_div by lia. f_equal.
    rewrite <- Z.pow_add_r, <- Z.pow_succ_r by lia. f_equal.
    rewrite (Pos2Z.inj_xI k). lia.
  - destruct (IH mrs Hm) as [H2 E2].
    destruct (IH _ H2) as [H3 E3].
    split; [exact H3|].
    rewrite E3, E2. rewrite Z.div_div by lia. f_equal.
    rewrite (Pos2Z.inj_xO k). rewrite <- Z.pow_add_r by lia. f_equal. lia.
  - split; [now apply shr_1_nonneg|].
    rewrite shr_1_m by assumption. reflexivity.
Qed.

Lemma shr_record_of_loc_m (m : Z) (l : location) : shr_m (shr_record_of_loc m l) = m.
Proof. destruct l as [|[]]; reflexivity. Qed.

Lemma round_nearest_even_range (m : Z) (l : location) :
  round_nearest_even m l = m \/ round_nearest_even m l = m + 1.
Proof. destruct l as [|[]]; cbn [round_nearest_even]; auto. destruct (Z.even m); auto. Qed.

(** A mantissa of at least 53 digits with an exponent in the normal range is
    cut down to exactly 53 digits. *)
Lemma shr_fexp_normal (mz : positive) (ez : Z) (lx : location) :
  53 <= Zpos (digits2_pos mz) -> -1074 <= ez ->
  exists mrs,
    shr_fexp prec emax (Zpos mz) ez lx = (mrs, ez + Zpos (digits2_pos mz) - 53) /\
    shr_m mrs = Zpos mz / 2 ^ (Zpos (digits2_pos mz) - 53) /\
    2 ^ 52 <= shr_m mrs < 2 ^ 53.
Proof.
  intros Hd He. pose proof (digits2_pos_bounds mz) as [Hlo Hhi].
  set (d := Zpos (digits2_pos mz)) in *.
  assert (Hbounds : 2 ^ 52 <= Zpos mz / 2 ^ (d - 53) < 2 ^ 53).
  { assert (0 < 2 ^ (d - 53)) by (apply Z.pow_pos_nonneg; lia).
    split.
    - apply Z.div_le_lower_bound; [assumption|].
      rewrite <- Z.pow_add_r by lia. now replace (d - 53 + 52) with (d - 1) by lia.
    - apply Z.div_lt_upper_bound; [assumption|].
      rewrite <- Z.pow_add_r by lia. now replace (d - 53 + 53) with d by lia. }
  unfold shr_fexp. cbn [Zdigits2]. fold d. rewrite fexp_eq.
  replace (Z.max (d + ez - 53) (-1074) - ez) with (d - 53) by lia.
  unfold shr. destruct (d - 53) as [|k|k] eqn:Hk; [| |lia].
  - exists (shr_record_of_loc (Zpos mz) lx).
    rewrite shr_record_of_loc_m. replace (ez + d - 53) with ez by lia.
    change (2 ^ 0) with 1 in *. rewrite Z.div_1_r in *. auto.
  - destruct (iter_shr_1_m k (shr_record_of_loc (Zpos mz) lx)) as [_ E].
    { rewrite shr_record_of_loc_m. lia. }
    rewrite shr_record_of_loc_m in E.
    exists (SpecFloat.iter_pos shr_1 k (shr_record_of_loc (Zpos mz) lx)).
    rewrite E. repeat split; try apply Hbounds. f_equal. lia.
Qed.

Lemma binary_round_aux_normal (s : bool) (mz : positive) (ez : Z) (lx : location) :
  53 <= Zpos (digits2_pos mz) -> -1074 <= ez ->
  exists mrs,
    shr_fexp prec emax (Zpos mz) ez lx = (mrs, ez + Zpos (digits2_pos mz) - 53) /\
    shr_m mrs = Zpos mz / 2 ^ (Zpos (digits2_pos mz) - 53) /\
    2 ^ 52 <= shr_m mrs < 2 ^ 53 /\
    binary_round_aux prec emax s (Zpos mz) ez lx =
      rounded_normal s (round_nearest_even (shr_m mrs) (loc_of_shr_record mrs))
                     (ez + Zpos (digits2_pos mz) - 53).
Proof.
  intros Hd He.
  destruct (shr_fexp_normal mz ez lx Hd He) as (mrs & Hshr & Hm & Hrange).
  exists mrs. repeat split; try assumption; try apply Hrange.
  unfold binary_round_aux. rewrite Hshr.
  set (e1 := ez + Zpos (digits2_pos mz) - 53) in *.
  set (m2 := round_nearest_even (shr_m mrs) (loc_of_shr_record mrs)).
  assert (Hm2 : 2 ^ 52 <= m2 <= 2 ^ 53).
  { destruct (round_nearest_even_range (shr_m mrs) (loc_of_shr_record mrs)) as [E|E];
      fold m2 in E; lia. }
  unfold rounded_normal. destruct (Z.ltb_spec m2 (2 ^ 53)) as [Hlt|Hge].
  - destruct m2 as [|q|q] eqn:Eq; [simpl in Hm2; lia| |lia].
    assert (Hq : Zpos (digits2_pos q) = 53) by (apply digits2_pos_unique; simpl; lia).
    unfold shr_fexp. cbn [Zdigits2]. rewrite Hq, fexp_eq.
    replace (Z.max (53 + e1 - 53) (-1074) - e1) with 0 by lia.
    cbn [shr shr_record_of_loc shr_m Z.to_pos]. reflexivity.
  - assert (E : m2 = 2 ^ 53) by lia. rewrite E.
    change (2 ^ 53) with 9007199254740992.
    unfold shr_fexp. cbn [Zdigits2]. rewrite fexp_eq.
    change (Zpos (digits2_pos 9007199254740992)) with 54.
    replace (Z.max (54 + e1 - 53) (-1074) - e1) with 1 by lia.
    cbn [shr shr_record_of_loc shr_m SpecFloat.iter_pos shr_1].
    reflexivity.
Qed.

Lemma rounded_normal_valid (s : bool) (m2 e1 : Z) :
  2 ^ 52 <= m2 <= 2 ^ 53 -> -1074 <= e1 ->
  rounded_normal s m2 e1 = S754_infinity s \/
  exists m e, rounded_normal s m2 e1 = S754_finite s m e /\
              valid_binary (S754_finite s m e) = true.
Proof.
  intros Hm He. unfold rounded_normal.
  destruct (Z.ltb_spec m2 (2 ^ 53)) as [Hlt|Hge].
  - destruct (Z.leb_spec e1 971) as [Hle|]; [right|now left].
    exists (Z.to_pos m2), e1. split; [reflexivity|].
    cbn [SpecFloat.valid_binary]. unfold bounded, canonical_mantissa.
    assert (Hq : Zpos (digits2_pos (Z.to_pos m2)) = 53).
    { apply digits2_pos_unique. rewrite Z2Pos.id by (simpl in Hm; lia). simpl. lia. }
    rewrite Hq, fexp_eq. apply andb_true_intro. split.
    + apply Z.eqb_eq. lia.
    + apply Z.leb_le. change (e1 <= 971). lia.
  - destruct (Z.leb_spec (e1 + 1) 971) as [Hle|]; [right|now left].
    exists (Z.to_pos (2 ^ 52)), (e1 + 1). split; [reflexivity|].
    cbn [SpecFloat.valid_binary]. unfold bounded, canonical_mantissa.
    change (Zpos (digits2_pos (Z.to_pos (2 ^ 52)))) with 53.
    rewrite fexp_eq. apply andb_true_intro. split.
    + apply Z.eqb_eq. lia.
    + apply Z.leb_le. change (e1 + 1 <= 971). lia.
Qed.

(** Rounding the integer [p]: it is first aligned to 53 digits (shifted left
    when shorter), then cut and rounded as above. *)
Lemma binary_round_int (s : bool) (p : positive) :
  exists mz ez mrs,
    shr_fexp prec emax (Zpos mz) ez loc_Exact = (mrs, Zpos (digits2_pos p) - 53) /\
    2 ^ 52 <= shr_m mrs < 2 ^ 53 /\
    (53 <= Zpos (digits2_pos p) -> mz = p /\ ez = 0) /\
    binary_round prec emax s p 0 =
      rounded_normal s (round_nearest_even (shr_m mrs) (loc_of_shr_record mrs))
                     (Zpos (digits2_pos p) - 53).
Proof.
  pose proof (digits2_pos_bounds p) as [Hlo Hhi].
  unfold binary_round. rewrite fexp_eq.
  set (d := Zpos (digits2_pos p)) in *.
  assert (Hd : 1 <= d) by (unfold d; lia).
  replace (Z.max (d + 0 - 53) (-1074)) with (d - 53) by lia.
  unfold shl_align. replace (d - 53 - 0) with (d - 53) by lia.
  assert (Hcase : (d - 53 < 0) \/ (0 <= d - 53)) by lia.
  destruct Hcase as [Hshort|Hlong].
  - destruct (d - 53) as [|k|k] eqn:Hk; [lia|lia|].
    assert (Hmz : Zpos (digits2_pos (Pos.iter xO p k)) = 53).
    { apply digits2_pos_unique. rewrite iter_xO_mul.
      assert (Ek : Zpos k = 53 - d) by lia. rewrite Ek.
      assert (E52 : 2 ^ (53 - 1) = 2 ^ (d - 1) * 2 ^ (53 - d)).
      { rewrite <- Z.pow_add_r by lia. f_equal. lia. }
      assert (E53 : 2 ^ 53 = 2 ^ d * 2 ^ (53 - d)).
      { rewrite <- Z.pow_add_r by lia. f_equal. lia. }
      rewrite E52, E53.
      assert (0 < 2 ^ (53 - d)) by (apply Z.pow_pos_nonneg; lia).
      split; [apply Z.mul_le_mono_nonneg_r|apply Z.mul_lt_mono_pos_r]; lia. }
    destruct (binary_round_aux_normal s (Pos.iter xO p k) (Zneg k) loc_Exact)
      as (mrs & Hshr & _ & Hrange & Hres); [lia|lia|].
    rewrite Hmz in Hshr, Hres.
    replace (Zneg k + 53 - 53) with (Zneg k) in Hshr, Hres by lia.
    exists (Pos.iter xO p k), (Zneg k), mrs. repeat split; try assumption; try apply Hrange; lia.
  - destruct (binary_round_aux_normal s p 0 loc_Exact)
      as (mrs & Hshr & _ & Hrange & Hres); [fold d; lia|lia|].
    fold d in Hshr, Hres.
    replace (0 + d - 53) with (d - 53) in Hshr, Hres by lia.
    exists p, 0, mrs.
    destruct (d - 53) as [|k|k] eqn:Hk; [| |lia];
      repeat split; try assumption; try apply Hrange.
Qed.

Lemma binary_round_int_cases (s : bool) (p : positive) :
  binary_round prec emax s p 0 = S754_infinity s \/
  exists m e, binary_round prec emax s p 0 = S754_finite s m e /\
              valid_binary (S754_finite s m e) = true.
Proof.
  destruct (binary_round_int s p) as (mz & ez & mrs & _ & Hrange & _ & ->).
  apply rounded_normal_valid.
  - destruct (round_nearest_even_range (shr_m mrs) (loc_of_shr_record mrs)) as [->| ->]; lia.
  - pose proof (digits2_pos_bounds p). lia.
Qed.

(** [float(z)] of a non-zero [z], when it exists, is a finite non-zero float
    with the sign of [z]. *)
Lemma float_of_int_finite (z : Z) (f : float) :
  z <> 0 -> float_of_int z = Ok f ->
  exists m e, Prim2SF f = S754_finite (z <? 0) m e.
Proof.
  intros Hz. unfold float_of_int.
  destruct z as [|p|p]; [contradiction| |].
  - cbn [binary_normalize].
    destruct (binary_round_int_cases false p) as [->|(m & e & -> & Hvalid)]; [discriminate|].
    intros E. assert (Ef : f = SF2Prim (S754_finite false m e)) by congruence.
    exists m, e. rewrite Ef. now apply Prim2SF_SF2Prim.
  - cbn [binary_normalize].
    destruct (binary_round_int_cases true p) as [->|(m & e & -> & Hvalid)]; [discriminate|].
    intros E. assert (Ef : f = SF2Prim (S754_finite true m e)) by congruence.
    exists m, e. rewrite Ef. now apply Prim2SF_SF2Prim.
Qed.

(** [float(z) == 0.0] only for [z = 0]. *)
Lemma float_of_int_eq_zero (z : Z) (f : float) :
  float_of_int z = Ok f -> PrimFloat.eqb f PrimFloat.zero = true -> z = 0.
Proof.
  intros Hf Hzero. destruct (Z.eq_dec z 0) as [|Hz]; [assumption|exfalso].
  destruct (float_of_int_finite z f Hz Hf) as (m & e & Hsf).
  rewrite FloatAxioms.eqb_spec, Hsf in Hzero.
  destruct (z <? 0); discriminate.
Qed.

(** After [k] steps of [shr] the round bit is bit [k - 1] of the mantissa. *)
Lemma shr_1_r (mrs : shr_record) :
  0 <= shr_m mrs -> shr_r (shr_1 mrs) = Z.testbit (shr_m mrs) 0.
Proof.
  destruct mrs as [m r s]. cbn [shr_m]. intros Hm.
  destruct m as [|[p|p|]|p]; cbn [shr_1 shr_r]; try reflexivity. lia.
Qed.

Lemma iter_shr_1_r (k : positive) (mrs : shr_record) :
  0 <= shr_m mrs ->
  shr_r (SpecFloat.iter_pos shr_1 k mrs) = Z.testbit (shr_m mrs) (Zpos k - 1).
Proof.
  revert mrs. induction k as [k IH|k IH|]; intros mrs Hm; cbn [SpecFloat.iter_pos].
  - pose proof (shr_1_nonneg mrs Hm) as H1.
    destruct (iter_shr_1_m k (shr_1 mrs) H1) as [H2 E2].
    rewrite IH, E2, shr_1_m by assumption.
    rewrite Z.div_div by lia.
    replace (2 * 2 ^ Zpos k) with (2 ^ (Zpos k + 1)) by (rewrite Z.pow_add_r; lia).
    rewrite Z.div_pow2_bits by lia. f_equal. rewrite (Pos2Z.inj_xI k). lia.
  - destruct (iter_shr_1_m k mrs Hm) as [H2 E2].
    rewrite IH, E2 by assumption.
    rewrite Z.div_pow2_bits by lia. f_equal. rewrite (Pos2Z.inj_xO k). lia.
  - now apply shr_1_r.
Qed.

(** With a clear round bit the mantissa is kept; with a set round bit an odd
    mantissa is rounded up. *)
Lemma round_down_without_round_bit (mrs : shr_record) :
  shr_r mrs = false ->
  round_nearest_even (shr_m mrs) (loc_of_shr_record mrs) = shr_m mrs.
Proof.
  destruct mrs as [m r s]. cbn [shr_r shr_m]. intros ->.
  destruct s; reflexivity.
Qed.

Lemma round_up_odd_with_round_bit (mrs : shr_record) :
  shr_r mrs = true -> Z.even (shr_m mrs) = false ->
  round_nearest_even (shr_m mrs) (loc_of_shr_record mrs) = shr_m mrs + 1.
Proof.
  destruct mrs as [m r s]. cbn [shr_r shr_m]. intros -> Hodd.
  destruct s; cbn [loc_of_shr_record round_nearest_even]; [reflexivity|].
  change (IntDef.Z.even m) with (Z.even m). now rewrite Hodd.
Qed.

(** Rounding keeps the sign it is given. *)
Lemma binary_round_aux_sign (s : bool) (mx ex : Z) (lx : location) :
  match binary_round_aux prec emax s mx ex lx with
  | S754_zero s' | S754_infinity s' | S754_finite s' _ _ => s' = s
  | S754_nan => True
  end.
Proof.
  unfold binary_round_aux.
  destruct (shr_fexp prec emax mx ex lx) as [mrs' e'].
  destruct (shr_fexp prec emax _ e' loc_Exact) as [mrs'' e''].
  destruct (shr_m mrs'') as [|m|m]; [reflexivity| |exact I].
  destruct (e'' <=? emax - prec)%Z; reflexivity.
Qed.

Lemma shr_fexp_nonneg (m e : Z) (l : location) :
  0 <= m -> 0 <= shr_m (fst (shr_fexp prec emax m e l)).
Proof.
  intros Hm. unfold shr_fexp, shr.
  destruct (fexp prec emax (Zdigits2 m + e) - e) as [|k|k]; cbn [fst];
    try (rewrite shr_record_of_loc_m; exact Hm).
  apply iter_shr_1_m. now rewrite shr_record_of_loc_m.
Qed.

Lemma binary_round_aux_not_nan (s : bool) (mx ex : Z) (lx : location) :
  0 <= mx -> binary_round_aux prec emax s mx ex lx <> S754_nan.
Proof.
  intros Hm. unfold binary_round_aux.
  pose proof (shr_fexp_nonneg mx ex lx Hm) as H1.
  destruct (shr_fexp prec emax mx ex lx) as [mrs' e']. cbn [fst] in H1.
  assert (H2 : 0 <= round_nearest_even (shr_m mrs') (loc_of_shr_record mrs')).
  { destruct (round_nearest_even_range (shr_m mrs') (loc_of_shr_record mrs'))
      as [->| ->]; lia. }
  pose proof (shr_fexp_nonneg _ e' loc_Exact H2) as H3.
  destruct (shr_fexp prec emax _ e' loc_Exact) as [mrs'' e'']. cbn [fst] in H3.
  destruct (shr_m mrs'') as [|m|m]; [discriminate| |lia].
  destruct (e'' <=? emax - prec)%Z; discriminate.
Qed.

(** A mantissa of at least 53 digits with exponent 0 rounds to an infinity
    exactly from [float_int_limit] on, whatever lies below its last digit. *)
Lemma binary_round_aux_overflow (s : bool) (q : positive) (lx : location) :
  53 <= Zpos (digits2_pos q) ->
  binary_round_aux prec emax s (Zpos q) 0 lx = S754_infinity s <->
  float_int_limit <= Zpos q.
Proof.
  intros Hlong.
  destruct (binary_round_aux_normal s q 0 lx Hlong ltac:(lia))
    as (mrs & Hshr & Hq & Hrange & ->).
  pose proof (digits2_pos_bounds q) as [Hlo Hhi].
  set (d := Zpos (digits2_pos q)) in *.
  replace (0 + d - 53) with (d - 53) in * by lia.
  assert (Hm2 : 2 ^ 52 <= round_nearest_even (shr_m mrs) (loc_of_shr_record mrs) <= 2 ^ 53).
  { destruct (round_nearest_even_range (shr_m mrs) (loc_of_shr_record mrs)) as [->| ->]; lia. }
  unfold float_int_limit.
  destruct (Z.le_gt_cases d 1023) as [Hsmall|Hbig].
  - assert (Hp : Zpos q < 2 ^ 1023).
    { eapply Z.lt_le_trans; [exact Hhi|]. apply Z.pow_le_mono_r; lia. }
    unfold rounded_normal. split; [|lia].
    destruct (_ <? 2 ^ 53);
      [destruct (Z.leb_spec (d - 53) 971)|destruct (Z.leb_spec (d - 53 + 1) 971)];
      try discriminate; lia.
  - destruct (Z.eq_dec d 1024) as [Hd|Hd].
    + assert (Hmrs : mrs = SpecFloat.iter_pos shr_1 971 (shr_record_of_loc (Zpos q) lx)).
      { unfold shr_fexp in Hshr. cbn [Zdigits2] in Hshr. fold d in Hshr.
        rewrite Hd in Hshr. change (fexp prec emax (1024 + 0) - 0) with 971 in Hshr.
        cbn [shr] in Hshr. congruence. }
      assert (Hr : shr_r mrs = Z.testbit (Zpos q) 970).
      { rewrite Hmrs, iter_shr_1_r by (rewrite shr_record_of_loc_m; lia).
        now rewrite shr_record_of_loc_m. }
      rewrite Hd in Hlo, Hhi, Hq. change (1024 - 1) with 1023 in Hlo.
      change (1024 - 53) with 971 in Hq.
      unfold rounded_normal. rewrite Hd. change (1024 - 53 <=? 971) with true.
      change (1024 - 53 + 1 <=? 971) with false. cbv iota.
      destruct (Z.testbit (Zpos q) 970) eqn:Hbit.
      * apply Z.testbit_true in Hbit; [|lia].
        assert (Hcase : Zpos q / 2 ^ 971 < 2 ^ 53 - 1 \/ Zpos q / 2 ^ 971 = 2 ^ 53 - 1)
          by (Z.to_euclidean_division_equations; lia).
        destruct Hcase as [Hlow|Htop].
        -- assert (Hlt : round_nearest_even (shr_m mrs) (loc_of_shr_record mrs) < 2 ^ 53).
           { destruct (round_nearest_even_range (shr_m mrs) (loc_of_shr_record mrs))
               as [->| ->]; lia. }
           apply Z.ltb_lt in Hlt. rewrite Hlt.
           split; [discriminate|]. Z.to_euclidean_division_equations; lia.
        -- rewrite round_up_odd_with_round_bit; [|exact Hr|now rewrite Hq, Htop].
           rewrite Hq, Htop. change (2 ^ 53 - 1 + 1 <? 2 ^ 53) with false. cbv iota.
           split; [|reflexivity]. intros _. Z.to_euclidean_division_equations; lia.
      * rewrite round_down_without_round_bit by exact Hr.
        destruct Hrange as [_ Hlt]. apply Z.ltb_lt in Hlt. rewrite Hlt.
        split; [discriminate|].
        assert (Hno : Z.testbit (Zpos q) 970 <> true) by congruence.
        rewrite Z.testbit_true in Hno by lia.
        Z.to_euclidean_division_equations; lia.
    + assert (Hp : 2 ^ 1024 <= Zpos q).
      { eapply Z.le_trans; [|exact Hlo]. apply Z.pow_le_mono_r; lia. }
      unfold rounded_normal. split; [lia|intros _].
      destruct (_ <? 2 ^ 53);
        [destruct (Z.leb_spec (d - 53) 971)|destruct (Z.leb_spec (d - 53 + 1) 971)];
        try reflexivity; lia.
Qed.

(** An integer of at least 53 digits is rounded as it stands. *)
Lemma binary_round_int_long (s : bool) (p : positive) :
  53 <= Zpos (digits2_pos p) ->
  binary_round prec emax s p 0 = binary_round_aux prec emax s (Zpos p) 0 loc_Exact.
Proof.
  intros Hlong. unfold binary_round, shl_align. rewrite fexp_eq.
  destruct (Z.max (Zpos (digits2_pos p) + 0 - 53) (-1074) - 0) eqn:E;
    [reflexivity|reflexivity|lia].
Qed.

Lemma binary_round_int_overflow (s : bool) (p : positive) :
  binary_round prec emax s p 0 = S754_infinity s <-> float_int_limit <= Zpos p.
Proof.
  destruct (Z.le_gt_cases 53 (Zpos (digits2_pos p))) as [Hlong|Hshort].
  - rewrite binary_round_int_long by exact Hlong.
    now apply binary_round_aux_overflow.
  - destruct (binary_round_int s p) as (mz & ez & mrs & _ & _ & _ & ->).
    pose proof (digits2_pos_bounds p) as [_ Hhi].
    assert (Hp : Zpos p < 2 ^ 53).
    { eapply Z.lt_le_trans; [exact Hhi|]. apply Z.pow_le_mono_r; lia. }
    unfold rounded_normal, float_int_limit. split; [|lia].
    destruct (_ <? 2 ^ 53);
      [destruct (Z.leb_spec (Zpos (digits2_pos p) - 53) 971)
      |destruct (Z.leb_spec (Zpos (digits2_pos p) - 53 + 1) 971)];
      try discriminate; lia.
Qed.

(** [float(z)] fails exactly from [float_int_limit] on, and only with
    OverflowError. *)
Lemma float_of_int_overflow (z : Z) :
  float_of_int z = Raise OverflowError <-> float_int_limit <= Z.abs z.
Proof.
  unfold float_of_int. destruct z as [|p|p]; cbn [binary_normalize Z.abs].
  - split; [discriminate|]. unfold float_int_limit. lia.
  - rewrite <- (binary_round_int_overflow false p).
    destruct (binary_round_int_cases false p) as [->|(m & e & -> & _)];
      split; congruence.
  - rewrite <- (binary_round_int_overflow true p).
    destruct (binary_round_int_cases true p) as [->|(m & e & -> & _)];
      split; congruence.
Qed.

Lemma float_of_int_raises (z : Z) (e : exn) :
  float_of_int z = Raise e -> e = OverflowError.
Proof.
  unfold float_of_int.
  destruct (binary_normalize prec emax z 0 false); congruence.
Qed.

Lemma float_of_int_ok (z : Z) :
  Z.abs z < float_int_limit -> exists f, float_of_int z = Ok f.
Proof.
  intros Hz. destruct (float_of_int z) as [f|e] eqn:E; [now exists f|].
  pose proof (float_of_int_raises z e E) as ->.
  apply float_of_int_overflow in E. lia.
Qed.

End Rounding.

(** *** The quotient of two integers *)

Section IntDivision.

Lemma digits2_pos_le (q : positive) (n : Z) :
  Zpos q < 2 ^ n -> Zpos (digits2_pos q) <= n.
Proof.
  intros Hq. pose proof (digits2_pos_bounds q) as [Hlo _].
  destruct (Z.le_gt_cases (Zpos (digits2_pos q)) n) as [|Hgt]; [assumption|].
  assert (2 ^ n <= 2 ^ (Zpos (digits2_pos q) - 1)).
  { destruct (Z.le_gt_cases 0 n); [apply Z.pow_le_mono_r; lia|].
    rewrite (Z.pow_neg_r 2 n) by lia. apply Z.pow_nonneg. lia. }
  lia.
Qed.

Lemma digits2_pos_ge (q : positive) (n : Z) :
  2 ^ (n - 1) <= Zpos q -> n <= Zpos (digits2_pos q).
Proof.
  intros Hq. pose proof (digits2_pos_bounds q) as [_ Hhi].
  destruct (Z.le_gt_cases n (Zpos (digits2_pos q))) as [|Hgt]; [assumption|].
  assert (2 ^ Zpos (digits2_pos q) <= 2 ^ (n - 1)) by (apply Z.pow_le_mono_r; lia).
  lia.
Qed.

(** A mantissa below [2^53] at the least exponent never rounds to an infinity. *)
Lemma binary_round_aux_subnormal (s : bool) (q : Z) (l : location) :
  0 <= q < 2 ^ 53 ->
  forall s', binary_round_aux prec emax s q (-1074) l <> S754_infinity s'.
Proof.
  intros Hq s'.
  assert (Hdigits : forall m, 0 <= m < 2 ^ 53 ->
            fexp prec emax (Zdigits2 m + -1074) - -1074 = 0).
  { intros m Hm. rewrite fexp_eq.
    assert (Zdigits2 m <= 53); [|lia].
    destruct m as [|m'|m']; cbn [Zdigits2]; [lia| |lia].
    apply digits2_pos_le. lia. }
  unfold binary_round_aux, shr_fexp.
  rewrite (Hdigits q) by lia. cbn [shr].
  set (m2 := round_nearest_even _ _).
  assert (Hm2 : 0 <= m2 <= 2 ^ 53).
  { unfold m2. rewrite shr_record_of_loc_m.
    destruct (round_nearest_even_range q (loc_of_shr_record (shr_record_of_loc q l)))
      as [->| ->]; lia. }
  destruct (Z.eq_dec m2 (2 ^ 53)) as [->|Hne].
  - vm_compute. discriminate.
  - rewrite (Hdigits m2) by lia. cbn [shr shr_record_of_loc shr_m].
    destruct m2 as [|m|m]; discriminate.
Qed.

(** Rounding yields no infinity of the opposite sign. *)
Lemma only_infinity_of_sign (s : bool) (mx ex : Z) (lx : location) :
  (exists s', binary_round_aux prec emax s mx ex lx = S754_infinity s') <->
  binary_round_aux prec emax s mx ex lx = S754_infinity s.
Proof.
  pose proof (binary_round_aux_sign s mx ex lx) as Hs.
  split; [intros [s' H]|intros H; now exists s].
  rewrite H in Hs |- *. now subst s'.
Qed.

Lemma div_eucl_div_mod (m b : Z) : IntDef.Z.div_eucl m b = (m / b, m mod b).
Proof. unfold Z.div, Z.modulo. now destruct (Z.div_eucl m b). Qed.

(** The quotient of two positive integers rounds to an infinity exactly when
    it reaches [float_int_limit]. *)
Lemma SFdiv_int_overflow (sa sb : bool) (a b : positive) :
  (exists s, SFdiv prec emax (S754_finite sa a 0) (S754_finite sb b 0) = S754_infinity s) <->
  float_int_limit * Zpos b <= Zpos a.
Proof.
  cbn [SFdiv]. unfold SFdiv_core_binary. cbn [Zdigits2].
  pose proof (digits2_pos_bounds a) as [Halo Hahi].
  pose proof (digits2_pos_bounds b) as [Hblo Hbhi].
  set (d1 := Zpos (digits2_pos a)) in *. set (d2 := Zpos (digits2_pos b)) in *.
  rewrite fexp_eq.
  set (e' := Z.min (Z.max (d1 + 0 - (d2 + 0) - 53) (-1074)) (0 - 0)).
  set (m' := match 0 - 0 - e' with 0 => Zpos a | Zpos _ => Z.shiftl (Zpos a) (0 - 0 - e') | Zneg _ => 0 end).
  rewrite (div_eucl_div_mod m' (Zpos b)). cbv beta iota zeta.
  rewrite only_infinity_of_sign.
  assert (Hlimit : 2 ^ 53 < float_int_limit) by (unfold float_int_limit; lia).
  destruct (Z.le_gt_cases 53 (d1 - d2)) as [Hbig|Hmid].
  - assert (He : e' = 0) by (unfold e'; lia).
    assert (Hm : m' = Zpos a) by (unfold m'; rewrite He; reflexivity).
    rewrite Hm, He.
    assert (Hq : 2 ^ 52 <= Zpos a / Zpos b).
    { apply Z.div_le_lower_bound; [lia|].
      assert (2 ^ d2 * 2 ^ 52 <= 2 ^ (d1 - 1)).
      { rewrite <- Z.pow_add_r by lia. apply Z.pow_le_mono_r; lia. }
      nia. }
    destruct (Zpos a / Zpos b) as [|q|q] eqn:Eq; [simpl in Hq; lia| |lia].
    rewrite binary_round_aux_overflow by (apply digits2_pos_ge; exact Hq).
    rewrite <- Eq. split; intros H.
    + pose proof (Z.mul_div_le (Zpos a) (Zpos b) ltac:(lia)). nia.
    + apply Z.div_le_lower_bound; lia.
  - assert (Hsmall : Zpos a < 2 ^ 53 * Zpos b).
    { assert (2 ^ d1 <= 2 ^ 53 * 2 ^ (d2 - 1)).
      { rewrite <- Z.pow_add_r by lia. apply Z.pow_le_mono_r; lia. }
      nia. }
    split; [intros H; exfalso|intros H; nia].
    destruct (Z.le_gt_cases (-1021) (d1 - d2)) as [Hnormal|Hsub].
    + assert (He : e' = d1 - d2 - 53) by (unfold e'; lia).
      assert (Hm : m' = Zpos a * 2 ^ (53 - (d1 - d2))).
      { unfold m'. rewrite He.
        destruct (0 - 0 - (d1 - d2 - 53)) as [|k|k] eqn:Ek; [lia| |lia].
        rewrite <- Ek, Z.shiftl_mul_pow2 by lia. f_equal. f_equal. lia. }
      assert (Hpow : 0 < 2 ^ (53 - (d1 - d2))) by (apply Z.pow_pos_nonneg; lia).
      assert (Hlo : 2 ^ 52 <= m' / Zpos b).
      { apply Z.div_le_lower_bound; [lia|].
        assert (E : 2 ^ (d1 - 1) * 2 ^ (53 - (d1 - d2)) = 2 ^ d2 * 2 ^ 52).
        { rewrite <- !Z.pow_add_r by lia. f_equal. lia. }
        rewrite Hm. nia. }
      assert (Hhi : m' / Zpos b < 2 ^ 54).
      { apply Z.div_lt_upper_bound; [lia|].
        assert (E : 2 ^ d1 * 2 ^ (53 - (d1 - d2)) = 2 ^ (d2 - 1) * 2 ^ 54).
        { rewrite <- !Z.pow_add_r by lia. f_equal. lia. }
        rewrite Hm. nia. }
      destruct (m' / Zpos b) as [|q|q] eqn:Eq; [simpl in Hlo; lia| |lia].
      assert (Hd53 : 53 <= Zpos (digits2_pos q)) by (apply digits2_pos_ge; exact Hlo).
      assert (Hd54 : Zpos (digits2_pos q) <= 54) by (apply digits2_pos_le; exact Hhi).
      destruct (binary_round_aux_normal (xorb sa sb) q e'
                  (new_location (Zpos b) (m' mod Zpos b)) Hd53 ltac:(lia))
        as (mrs & _ & _ & _ & Hres).
      rewrite Hres in H. unfold rounded_normal in H.
      destruct (_ <? 2 ^ 53);
        [destruct (Z.leb_spec (e' + Zpos (digits2_pos q) - 53) 971)
        |destruct (Z.leb_spec (e' + Zpos (digits2_pos q) - 53 + 1) 971)];
        try discriminate; lia.
    + assert (He : e' = -1074) by (unfold e'; lia).
      assert (Hm : m' = Zpos a * 2 ^ 1074).
      { unfold m'. rewrite He. change (0 - 0 - -1074) with 1074. cbv iota.
        apply Z.shiftl_mul_pow2. lia. }
      rewrite He in H.
      apply (binary_round_aux_subnormal (xorb sa sb) (m' / Zpos b)
               (new_location (Zpos b) (m' mod Zpos b))) in H; [exact H|].
      split; [apply Z.div_pos; lia|].
      apply Z.div_lt_upper_bound; [lia|].
      assert (E : 2 ^ d1 * 2 ^ 1074 <= 2 ^ (d2 - 1) * 2 ^ 53).
      { rewrite <- !Z.pow_add_r by lia. apply Z.pow_le_mono_r; lia. }
      assert (0 < 2 ^ 1074) by (apply Z.pow_pos_nonneg; lia).
      rewrite Hm. nia.
Qed.

(** [a / b] on ints overflows exactly when [|a| / |b|] reaches
    [float_int_limit]. *)
Lemma int_truediv_overflow (a b : Z) :
  b <> 0 ->
  int_truediv a b = Raise OverflowError <-> float_int_limit * Z.abs b <= Z.abs a.
Proof.
  intros Hb. unfold int_truediv. destruct (Z.eqb_spec b 0) as [|_]; [contradiction|].
  assert (Hlimit : 0 < float_int_limit) by (unfold float_int_limit; lia).
  assert (Hcase : forall sa sb a' b',
    match SFdiv prec emax (S754_finite sa a' 0) (S754_finite sb b' 0) with
    | S754_infinity _ => Raise OverflowError
    | sf => Ok (SF2Prim sf)
    end = Raise OverflowError <-> float_int_limit * Zpos b' <= Zpos a').
  { intros sa sb a' b'. rewrite <- (SFdiv_int_overflow sa sb a' b'). split.
    - destruct (SFdiv prec emax _ _) as [|s| |]; try discriminate. intros _. now exists s.
    - intros [s ->]. reflexivity. }
  destruct a as [|a|a], b as [|b|b]; try contradiction;
    try apply Hcase; (split; [discriminate|cbn [Z.abs]; lia]).
Qed.

End IntDivision.

(** *** Comparing floats *)

Section Comparisons.

Lemma SFcompare_swap (x y : spec_float) :
  SFcompare y x = option_map CompOpp (SFcompare x y).
Proof.
  destruct x as [sx|sx| |sx mx ex], y as [sy|sy| |sy my ey];
    try reflexivity; try (destruct sx; reflexivity); try (destruct sy; reflexivity);
    try (destruct sx, sy; reflexivity).
  cbn [SFcompare option_map].
  change (IntDef.Z.compare ey ex) with (ey ?= ex).
  change (IntDef.Z.compare ex ey) with (ex ?= ey).
  rewrite (Z.compare_antisym ex ey).
  change (PosDef.Pos.compare_cont Eq my mx) with (Pos.compare_cont Eq my mx).
  change (PosDef.Pos.compare_cont Eq mx my) with (Pos.compare_cont Eq mx my).
  replace (Pos.compare_cont Eq my mx) with (CompOpp (Pos.compare_cont Eq mx my))
    by apply (Pos.compare_cont_antisym mx my Eq).
  destruct sx, sy; try reflexivity;
    destruct (ex ?= ey); cbn [CompOpp]; reflexivity.
Qed.

(** [a < b] excludes [b <= a]. *)
Lemma float_lt_not_ge (a b : float) : float_lt a b = true -> float_ge a b = false.
Proof.
  unfold float_lt, float_ge. rewrite ltb_spec, leb_spec.
  unfold SFltb, SFleb. rewrite (SFcompare_swap (Prim2SF a) (Prim2SF b)).
  destruct (SFcompare (Prim2SF a) (Prim2SF b)) as [[]|]; cbn; congruence.
Qed.

(** Once [a] is comparable with something and [b] is not a NaN, [a >= b]
    failing means [a < b]. *)
Lemma float_not_ge_lt (a b c : float) :
  float_le c a = true -> Prim2SF b <> S754_nan ->
  float_ge a b = false -> float_lt a b = true.
Proof.
  unfold float_lt, float_ge, float_le. rewrite ltb_spec, !leb_spec.
  unfold SFltb, SFleb. rewrite (SFcompare_swap (Prim2SF a) (Prim2SF b)).
  intros Hc Hb.
  assert (Ha : Prim2SF a <> S754_nan).
  { intros E. rewrite E in Hc. destruct (Prim2SF c); discriminate. }
  destruct (SFcompare (Prim2SF a) (Prim2SF b)) as [[]|] eqn:Hab; cbn; try congruence.
  destruct (Prim2SF a), (Prim2SF b); try discriminate; congruence.
Qed.

End Comparisons.

(** *** [tx_priority] *)

Section TxPriority.

Lemma truediv_by_zero (fee_btc : number) :
  truediv fee_btc (PInt 0) = Raise ZeroDivisionError.
Proof. destruct fee_btc as [a|f]; reflexivity. Qed.

Lemma truediv_zero_division (fee_btc : number) (size_bytes : Z) :
  truediv fee_btc (PInt size_bytes) = Raise ZeroDivisionError -> size_bytes = 0.
Proof.
  destruct fee_btc as [a|f]; cbn [truediv].
  - unfold int_truediv. destruct (Z.eqb_spec size_bytes 0) as [|_]; [auto|].
    destruct (SFdiv prec emax (SF_of_Z a) (SF_of_Z size_bytes)); discriminate.
  - destruct (float_of_int size_bytes) as [b|e] eqn:Hb; cbn [res_bind].
    + unfold float_truediv.
      destruct (PrimFloat.eqb b PrimFloat.zero) eqn:Hzero; [|discriminate].
      intros _. now apply (float_of_int_eq_zero size_bytes b).
    + apply float_of_int_raises in Hb. congruence.
Qed.

Lemma truediv_raises (fee_btc : number) (size_bytes : Z) (e : exn) :
  truediv fee_btc (PInt size_bytes) = Raise e ->
  e = ZeroDivisionError \/ e = OverflowError.
Proof.
  destruct fee_btc as [a|f]; cbn [truediv].
  - unfold int_truediv. destruct (size_bytes =? 0); [left; congruence|].
    destruct (SFdiv prec emax (SF_of_Z a) (SF_of_Z size_bytes));
      try discriminate. right. congruence.
  - destruct (float_of_int size_bytes) as [b|e'] eqn:Hb; cbn [res_bind].
    + unfold float_truediv.
      destruct (PrimFloat.eqb b PrimFloat.zero); [left; congruence|discriminate].
    + apply float_of_int_raises in Hb. right. congruence.
Qed.

Lemma truediv_overflow (fee_btc : number) (size_bytes : Z) :
  truediv fee_btc (PInt size_bytes) = Raise OverflowError <->
  size_bytes <> 0 /\ ~ quotient_fits fee_btc size_bytes.
Proof.
  assert (Hlimit : 0 < float_int_limit) by (unfold float_int_limit; lia).
  destruct fee_btc as [a|f]; cbn [truediv quotient_fits].
  - destruct (Z.eq_dec size_bytes 0) as [->|Hne].
    + split; [discriminate|]. intros [H _]. contradiction.
    + rewrite (int_truediv_overflow a size_bytes Hne). split; [|lia].
      intros H. split; [exact Hne|lia].
  - destruct (float_of_int size_bytes) as [b|e] eqn:Hb; cbn [res_bind].
    + split.
      * unfold float_truediv. destruct (PrimFloat.eqb b PrimFloat.zero); discriminate.
      * intros [_ Hbig]. exfalso.
        assert (Hover : float_of_int size_bytes = Raise OverflowError)
          by (apply float_of_int_overflow; lia).
        congruence.
    + pose proof (float_of_int_raises _ _ Hb) as ->.
      apply float_of_int_overflow in Hb. split; [|reflexivity].
      intros _. split; lia.
Qed.

(** [tx_priority] raises exactly what the division raises. *)
Lemma tx_priority_raise (size_bytes : Z) (fee_btc : number) (e : exn) :
  tx_priority size_bytes fee_btc = Raise e <->
  truediv fee_btc (PInt size_bytes) = Raise e.
Proof.
  unfold tx_priority.
  destruct (truediv fee_btc (PInt size_bytes)) as [fee_rate|e']; cbn [res_bind].
  - destruct (float_ge fee_rate 0.00005%float); [split; discriminate|].
    destruct (float_ge fee_rate 0.00001%float); split; discriminate.
  - split; congruence.
Qed.

End TxPriority.

(** C4 (as amended). For every integer [size_bytes != 0] and every number
    [fee_btc] whose quotient by [size_bytes] stays in the float range
    ([|size_bytes| < 2^1024 - 2^970] under a float fee,
    [|fee_btc| < (2^1024 - 2^970) * |size_bytes|] under an int fee),
    [tx_priority] computes [fee_rate = fee_btc / size_bytes] and returns 'high'
    when [fee_rate >= 0.00005], 'medium' when [0.00001 <= fee_rate < 0.00005],
    and 'low' otherwise. *)
Theorem tx_priority_classifies (size_bytes : Z) (fee_btc : number) :
  size_bytes <> 0 ->
  quotient_fits fee_btc size_bytes ->
  exists fee_rate,
    truediv fee_btc (PInt size_bytes) = Ok fee_rate /\
    (float_ge fee_rate 0.00005%float = true ->
     tx_priority size_bytes fee_btc = Ok "high"%string) /\
    (float_le 0.00001%float fee_rate = true -> float_lt fee_rate 0.00005%float = true ->
     tx_priority size_bytes fee_btc = Ok "medium"%string) /\
    (float_ge fee_rate 0.00005%float = false ->
     float_le 0.00001%float fee_rate && float_lt fee_rate 0.00005%float = false ->
     tx_priority size_bytes fee_btc = Ok "low"%string).
Proof.
  intros Hsize Hfits.
  destruct (truediv fee_btc (PInt size_bytes)) as [fee_rate|e] eqn:Hdiv.
  - exists fee_rate. split; [reflexivity|].
    unfold tx_priority. rewrite Hdiv. cbn [res_bind].
    split; [|split].
    + now intros ->.
    + intros Hlo Hhi. rewrite (float_lt_not_ge _ _ Hhi).
      unfold float_le in Hlo. unfold float_ge. now rewrite Hlo.
    + intros Hhigh Hmedium. rewrite Hhigh.
      destruct (float_ge fee_rate 0.00001%float) eqn:Hlo; [|reflexivity].
      assert (Hlt : float_lt fee_rate 0.00005%float = true).
      { apply (float_not_ge_lt _ _ 0.00001%float); [exact Hlo| |exact Hhigh].
        vm_compute. discriminate. }
      unfold float_ge in Hlo. unfold float_le in Hmedium.
      rewrite Hlo, Hlt in Hmedium. discriminate.
  - exfalso. destruct (truediv_raises _ _ _ Hdiv) as [-> | ->].
    + apply Hsize. now apply (truediv_zero_division fee_btc).
    + apply truediv_overflow in Hdiv as [_ Hno]. contradiction.
Qed.

Lemma tx_priority_classifies_witness :
  1 <> 0 /\
  quotient_fits (PFloat 0.00002) 1 /\
  tx_priority 1 (PFloat 0.00002) = Ok "medium"%string.
Proof.
  assert (Hsize : 1 <> 0) by discriminate.
  assert (Hfits : quotient_fits (PFloat 0.00002) 1) by (vm_compute; reflexivity).
  split; [exact Hsize|]. split; [exact Hfits|].
  destruct (tx_priority_classifies 1 (PFloat 0.00002) Hsize Hfits)
    as (fee_rate & Hdiv & _ & Hmedium & _).
  assert (Hrate : fee_rate = 0.00002%float) by (vm_compute in Hdiv; congruence).
  rewrite Hrate in Hmedium. apply Hmedium; vm_compute; reflexivity.
Defined.

(** C4, counterexample. [2 ** 1024] is not zero but cannot be converted to a
    float: the division raises OverflowError and no priority is returned. *)
Lemma tx_priority_huge_size_no_priority :
  2 ^ 1024 <> 0 /\
  ~ exists priority, tx_priority (2 ^ 1024) (PFloat 1) = Ok priority.
Proof.
  split; [vm_compute; discriminate|].
  intros (priority & H). vm_compute in H. discriminate.
Qed.

(** C5 (as amended). With a size of 1000 bytes the three fees of the
    specification give the rates 6e-8, 2e-8 and 1e-9, all below 0.00001:
    [tx_priority(1000, 0.00006)], [tx_priority(1000, 0.00002)] and
    [tx_priority(1000, 0.000001)] are all 'low'. The labels 'high', 'medium'
    and 'low' are those of the same fees over a size of 1 byte. *)
Theorem tx_priority_examples :
  tx_priority 1000 (PFloat 0.00006) = Ok "low"%string /\
  tx_priority 1000 (PFloat 0.00002) = Ok "low"%string /\
  tx_priority 1000 (PFloat 0.000001) = Ok "low"%string /\
  tx_priority 1 (PFloat 0.00006) = Ok "high"%string /\
  tx_priority 1 (PFloat 0.00002) = Ok "medium"%string /\
  tx_priority 1 (PFloat 0.000001) = Ok "low"%string.
Proof. repeat split; vm_compute; reflexivity. Qed.

(** C5, counterexample: the first two examples of the specification. *)
Lemma tx_priority_1000_not_high :
  tx_priority 1000 (PFloat 0.00006) <> Ok "high"%string /\
  tx_priority 1000 (PFloat 0.00002) <> Ok "medium"%string.
Proof. split; vm_compute; discriminate. Qed.

(** C9 (as amended). For every [fee_btc], [tx_priority] with [size_bytes = 0]
    raises ZeroDivisionError, which nothing catches, and a zero size is the
    only input that raises it. The only other failure is an OverflowError of
    the division: with a float fee exactly when [|size_bytes|] reaches
    [2^1024 - 2^970] (too large to convert to float), with an int fee exactly
    when [|fee_btc|] reaches [(2^1024 - 2^970) * |size_bytes|] (the quotient is
    too large for a float). *)
Theorem tx_priority_failures :
  (forall fee_btc, tx_priority 0 fee_btc = Raise ZeroDivisionError) /\
  (forall size_bytes fee_btc,
      tx_priority size_bytes fee_btc = Raise ZeroDivisionError -> size_bytes = 0) /\
  (forall size_bytes fee_btc e,
      tx_priority size_bytes fee_btc = Raise e ->
      e = ZeroDivisionError \/ e = OverflowError) /\
  (forall size_bytes f,
      tx_priority size_bytes (PFloat f) = Raise OverflowError <->
      float_int_limit <= Z.abs size_bytes) /\
  (forall size_bytes a,
      tx_priority size_bytes (PInt a) = Raise OverflowError <->
      size_bytes <> 0 /\ float_int_limit * Z.abs size_bytes <= Z.abs a).
Proof.
  assert (Hlimit : 0 < float_int_limit) by (unfold float_int_limit; lia).
  split; [|split; [|split; [|split]]].
  - intros fee_btc. apply tx_priority_raise, truediv_by_zero.
  - intros size_bytes fee_btc H.
    apply tx_priority_raise in H. now apply (truediv_zero_division fee_btc).
  - intros size_bytes fee_btc e H.
    apply tx_priority_raise in H. now apply (truediv_raises fee_btc size_bytes).
  - intros size_bytes f. rewrite tx_priority_raise, truediv_overflow.
    cbn [quotient_fits]. split; [lia|]. intros H. split; lia.
  - intros size_bytes a. rewrite tx_priority_raise, truediv_overflow.
    cbn [quotient_fits]. split; intros [Hne H]; (split; [exact Hne|lia]).
Qed.

(** C9, counterexample. A zero size is not the only failing input:
    [tx_priority(2 ** 1024, 1.0)] raises OverflowError. *)
Lemma tx_priority_fails_on_huge_size :
  2 ^ 1024 <> 0 /\ tx_priority (2 ^ 1024) (PFloat 1) = Raise OverflowError.
Proof. split; [vm_compute; discriminate|vm_compute; reflexivity]. Qed.

(** *** [calculate_sats] *)

Section CalculateSats.

(** The product of a float [x >= 0] with a positive finite float is a zero,
    a positive finite float or [+inf]. *)
Lemma mul_nonneg (x c : float) (mc : positive) (ec : Z) :
  Prim2SF c = S754_finite false mc ec ->
  float_le PrimFloat.zero x = true ->
  match Prim2SF (PrimFloat.mul x c) with
  | S754_zero _ => True
  | S754_finite s _ _ => s = false
  | S754_infinity s => s = false
  | S754_nan => False
  end.
Proof.
  intros Hc Hx. unfold float_le in Hx. rewrite leb_spec in Hx.
  rewrite mul_spec, Hc. unfold SF64mul.
  change (Prim2SF PrimFloat.zero) with (S754_zero false) in Hx.
  destruct (Prim2SF x) as [sx|sx| |sx mx ex]; cbn [SFmul].
  - exact I.
  - destruct sx; [discriminate|reflexivity].
  - discriminate.
  - destruct sx; [discriminate|]. cbn [xorb].
    pose proof (binary_round_aux_sign false (Zpos (mx * mc)) (ex + ec) loc_Exact) as Hs.
    pose proof (binary_round_aux_not_nan false (Zpos (mx * mc)) (ex + ec) loc_Exact) as Hn.
    destruct (binary_round_aux prec emax false (Zpos (mx * mc)) (ex + ec) loc_Exact);
      try exact Hs; try exact I. apply Hn; [lia|reflexivity].
Qed.

(** Truncation and floor agree on a non-negative value. *)
Lemma SF_trunc_floor_nonneg (m : positive) (e : Z) :
  SF_trunc false m e = SF_floor false m e.
Proof.
  unfold SF_trunc, SF_floor. destruct (Z.leb_spec 0 e); [reflexivity|].
  cbn [cond_Zopp]. apply Z.quot_div_nonneg; [lia|].
  apply Z.pow_pos_nonneg; lia.
Qed.

End CalculateSats.

(** C7 (as amended). For every BTC amount [x >= 0] whose floating-point
    product [x * 100000000] is finite, [calculate_sats(x)] is the floor of
    that product: the integer conversion truncates toward zero, which is the
    floor on a non-negative product. When the product overflows to infinity
    [calculate_sats] raises OverflowError. *)
Theorem calculate_sats_floor (x : float) :
  float_le PrimFloat.zero x = true ->
  (is_finite (PrimFloat.mul x 100000000%float) = true ->
   exists sats,
     calculate_sats x = Ok sats /\
     floor_int (PrimFloat.mul x 100000000%float) = Ok sats) /\
  (is_finite (PrimFloat.mul x 100000000%float) = false ->
   calculate_sats x = Raise OverflowError).
Proof.
  intros Hx.
  assert (Hcalc : calculate_sats x = int_of_float (PrimFloat.mul x 100000000%float))
    by reflexivity.
  pose proof (mul_nonneg x 100000000%float _ _ eq_refl Hx) as Hsign.
  rewrite Hcalc. unfold is_finite, int_of_float, floor_int.
  destruct (Prim2SF (PrimFloat.mul x 100000000%float)) as [s|s| |s m e].
  - split; [|discriminate]. intros _. now exists 0.
  - split; [discriminate|reflexivity].
  - contradiction.
  - subst s. split; [|discriminate]. intros _.
    exists (SF_trunc false m e). split; [reflexivity|].
    now rewrite SF_trunc_floor_nonneg.
Qed.

Lemma calculate_sats_floor_witness :
  float_le PrimFloat.zero 0.29%float = true /\
  is_finite (PrimFloat.mul 0.29 100000000%float) = true /\
  exists sats, calculate_sats 0.29%float = Ok sats /\
               floor_int (PrimFloat.mul 0.29 100000000%float) = Ok sats.
Proof.
  assert (Hx : float_le PrimFloat.zero 0.29%float = true) by (vm_compute; reflexivity).
  assert (Hfin : is_finite (PrimFloat.mul 0.29 100000000%float) = true)
    by (vm_compute; reflexivity).
  split; [exact Hx|]. split; [exact Hfin|].
  exact (proj1 (calculate_sats_floor 0.29%float Hx) Hfin).
Defined.

(** C7, counterexample. [1e301] is a finite non-negative amount, but its
    product with 100000000 is infinite and [int()] raises OverflowError:
    [calculate_sats(1e301)] returns nothing. *)
Lemma calculate_sats_overflow :
  float_le PrimFloat.zero 1e301%float = true /\
  is_finite 1e301%float = true /\
  calculate_sats 1e301%float = Raise OverflowError /\
  ~ exists sats, calculate_sats 1e301%float = Ok sats.
Proof.
  repeat split; try (vm_compute; reflexivity).
  intros (sats & H). vm_compute in H. discriminate.
Qed.

(** ** Further properties *)

(** *** [get_tx_status] *)

(** X1. A status written into the pool is read back, writing one transaction
    leaves the status of every other one unchanged, a removed transaction
    reads 'not found', and a status other than 'not found' is the one stored
    under the key. *)
Theorem get_tx_status_insert_delete
    (tx_pool : gmap string string) (txid other status : string) :
  get_tx_status (<[txid := status]> tx_pool) txid = status /\
  (other <> txid ->
   get_tx_status (<[txid := status]> tx_pool) other = get_tx_status tx_pool other) /\
  get_tx_status (delete txid tx_pool) txid = "not found"%string /\
  (get_tx_status tx_pool txid <> "not found"%string ->
   tx_pool !! txid = Some (get_tx_status tx_pool txid)).
Proof.
  unfold get_tx_status. repeat split.
  - now rewrite lookup_insert_eq.
  - intros Hne. now rewrite lookup_insert_ne.
  - now rewrite lookup_delete_eq.
  - destruct (tx_pool !! txid); simpl; [reflexivity|congruence].
Qed.

(** *** [create_utxo] *)

Lemma create_utxo_lookup (txid : string) (vout : Z) (kwargs : gmap string field)
    (k : string) :
  create_utxo txid vout kwargs !! k =
  match kwargs !! k with
  | Some v => Some v
  | None => ({[ "txid"%string := FStr txid; "vout"%string := FInt vout ]}
               : gmap string field) !! k
  end.
Proof.
  unfold create_utxo, dict_update.
  destruct (kwargs !! k) as [v|] eqn:Hk.
  - now apply lookup_union_Some_l.
  - now rewrite lookup_union_r.
Qed.

(** X2. When the keyword arguments name neither 'txid' nor 'vout' (the call
    itself rejects a keyword that repeats a positional parameter),
    [create_utxo] returns a dictionary holding [txid] and [vout] under their
    keys and every keyword argument under its own: its keys are 'txid',
    'vout' and those of the keyword arguments, two more entries than given. *)
Theorem create_utxo_fields (txid : string) (vout : Z) (kwargs : gmap string field) :
  kwargs !! "txid"%string = None -> kwargs !! "vout"%string = None ->
  create_utxo txid vout kwargs !! "txid"%string = Some (FStr txid) /\
  create_utxo txid vout kwargs !! "vout"%string = Some (FInt vout) /\
  (forall k v, kwargs !! k = Some v -> create_utxo txid vout kwargs !! k = Some v) /\
  (forall k, k <> "txid"%string -> k <> "vout"%string ->
             create_utxo txid vout kwargs !! k = kwargs !! k) /\
  size (create_utxo txid vout kwargs) = (2 + size kwargs)%nat.
Proof.
  intros Htxid Hvout. repeat split.
  - rewrite create_utxo_lookup, Htxid. reflexivity.
  - rewrite create_utxo_lookup, Hvout. reflexivity.
  - intros k v Hk. now rewrite create_utxo_lookup, Hk.
  - intros k Hk1 Hk2. rewrite create_utxo_lookup.
    destruct (kwargs !! k); [reflexivity|].
    rewrite lookup_insert_ne by congruence.
    rewrite lookup_singleton_ne by congruence. reflexivity.
  - unfold create_utxo, dict_update.
    rewrite map_size_disj_union.
    + rewrite map_size_insert_None by reflexivity.
      rewrite map_size_singleton. lia.
    + apply map_disjoint_spec. intros k v w Hk Hw.
      destruct (decide (k = "txid"%string)) as [->|H1]; [congruence|].
      destruct (decide (k = "vout"%string)) as [->|H2]; [congruence|].
      rewrite lookup_insert_ne in Hw by congruence.
      rewrite lookup_singleton_ne in Hw by congruence. discriminate.
Qed.

Lemma create_utxo_fields_witness :
  create_utxo "tx1" 0 {[ "value"%string := FInt 500 ]} !! "txid"%string = Some (FStr "tx1") /\
  create_utxo "tx1" 0 {[ "value"%string := FInt 500 ]} !! "value"%string = Some (FInt 500) /\
  size (create_utxo "tx1" 0 {[ "value"%string := FInt 500 ]}) = 3%nat.
Proof.
  destruct (create_utxo_fields "tx1" 0 {[ "value"%string := FInt 500 ]})
    as (Htxid & _ & Hkw & _ & Hsize); [reflexivity|reflexivity|].
  split; [exact Htxid|]. split; [|exact Hsize].
  apply Hkw. reflexivity.
Defined.

(** *** [add_utxo] and [is_same_wallet] *)

(** X3. On a live list, [add_utxo] returns the reference it was given; the
    list behind it is the old one with [new_utxo] appended at the end (the
    earlier elements keep their order), every other list of the store is
    untouched and no object is created; two calls in a row through the
    returned reference append both elements in call order. *)
Theorem add_utxo_appends_in_place {A : Type}
    (utxos : ref) (new_utxo next_utxo : A) (st : store A) (items : list A) :
  st !! utxos = Some items ->
  fst (add_utxo utxos new_utxo st) = utxos /\
  snd (add_utxo utxos new_utxo st) !! utxos = Some (items ++ [new_utxo]) /\
  (forall other, other <> utxos ->
                 snd (add_utxo utxos new_utxo st) !! other = st !! other) /\
  dom (snd (add_utxo utxos new_utxo st)) = dom st /\
  snd (add_utxo (fst (add_utxo utxos new_utxo st)) next_utxo
                (snd (add_utxo utxos new_utxo st))) !! utxos
    = Some (items ++ [new_utxo; next_utxo]).
Proof.
  intros Hlive. unfold add_utxo, list_append. cbn [fst snd].
  assert (H1 : alter (fun l => l ++ [new_utxo]) utxos st !! utxos
               = Some (items ++ [new_utxo])).
  { now rewrite lookup_alter_eq, Hlive. }
  split; [reflexivity|]. split; [exact H1|]. split; [|split].
  - intros other Hne. now rewrite lookup_alter_ne.
  - apply dom_alter_L.
  - rewrite lookup_alter_eq, H1. cbn. now rewrite <- app_assoc.
Qed.

Lemma add_utxo_appends_in_place_witness :
  snd (add_utxo 1%positive 30 ({[ 1%positive := [10; 20] ]} : store Z)) !! 1%positive
    = Some [10; 20; 30].
Proof.
  exact (proj1 (proj2 (add_utxo_appends_in_place 1%positive 30 40
                         ({[ 1%positive := [10; 20] ]} : store Z) [10; 20] eq_refl))).
Defined.

(** X4. The list returned by [add_utxo] is the same object as its argument,
    and the appended element is seen through a reference exactly when that
    reference is the same object as the list passed: an equal but distinct
    list keeps its contents. *)
Theorem add_utxo_aliasing {A : Type}
    (wallet utxos : ref) (new_utxo : A) (st : store A) (items : list A) :
  st !! wallet = Some items ->
  is_same_wallet (fst (add_utxo utxos new_utxo st)) utxos = true /\
  snd (add_utxo utxos new_utxo st) !! wallet
    = Some (if is_same_wallet wallet utxos then items ++ [new_utxo] else items) /\
  (st !! utxos = Some items -> is_same_wallet wallet utxos = false ->
   snd (add_utxo utxos new_utxo st) !! wallet
     <> snd (add_utxo utxos new_utxo st) !! utxos).
Proof.
  intros Hlive. unfold add_utxo, list_append, is_same_wallet. cbn [fst snd].
  split; [now apply bool_decide_eq_true|]. split.
  - destruct (bool_decide_reflect (wallet = utxos)) as [->|Hne].
    + now rewrite lookup_alter_eq, Hlive.
    + now rewrite lookup_alter_ne.
  - intros Hequal Hdistinct. apply bool_decide_eq_false in Hdistinct.
    rewrite lookup_alter_ne, lookup_alter_eq, Hlive, Hequal by congruence.
    cbn. intros E. injection E as E.
    apply (f_equal (@length A)) in E. rewrite length_app in E. cbn in E. lia.
Qed.

Lemma add_utxo_aliasing_witness :
  snd (add_utxo 1%positive 30
         ({[ 1%positive := [10; 20]; 2%positive := [10; 20] ]} : store Z)) !! 2%positive
    = Some [10; 20].
Proof.
  exact (proj1 (proj2 (add_utxo_aliasing 2%positive 1%positive 30
           ({[ 1%positive := [10; 20]; 2%positive := [10; 20] ]} : store Z)
           [10; 20] eq_refl))).
Defined.

(** *** [find_utxo_with_min_value]: a missing key *)

Lemma valid_utxos_missing_value (utxos : list utxo) (target : Z) :
  (exists u, u ∈ utxos /\ u !! "value" = None) ->
  valid_utxos utxos target = Raise KeyError.
Proof.
  induction utxos as [|u rest IH]; intros (u0 & Hin & Hnone).
  - inversion Hin.
  - cbn [valid_utxos]. unfold getitem.
    destruct (u !! "value") as [v|] eqn:Hu; [|reflexivity].
    cbn [res_bind]. rewrite IH; [reflexivity|].
    apply elem_of_cons in Hin as [->|Hin]; [congruence|]. now exists u0.
Qed.

(** X5. When some UTXO of the list has no 'value' key,
    [find_utxo_with_min_value] raises KeyError, whatever the target and the
    other UTXOs are. *)
Theorem find_utxo_with_min_value_missing_value (utxos : list utxo) (target : Z) :
  (exists u, u ∈ utxos /\ u !! "value" = None) ->
  find_utxo_with_min_value utxos target = Raise KeyError.
Proof.
  intros H. unfold find_utxo_with_min_value.
  now rewrite valid_utxos_missing_value.
Qed.

Lemma find_utxo_with_min_value_missing_value_witness :
  find_utxo_with_min_value [{["value" := 100]}; {["vout" := 0]}] 50 = Raise KeyError.
Proof.
  apply find_utxo_with_min_value_missing_value.
  exists {["vout" := 0]}. split; [|reflexivity].
  apply list_elem_of_further, list_elem_of_here.
Defined.

(** *** [halving_schedule]: the shape of the rewards *)

Section Rewards.

Lemma reward_at_bounds (h : Z) : 0 <= h -> 0 <= reward_at h <= 5000000000.
Proof.
  intros Hh. unfold reward_at. change (50 * 100000000) with 5000000000.
  assert (0 <= h / 210000) by (apply Z.div_pos; lia).
  assert (0 < 2 ^ (h / 210000)) by (apply Z.pow_pos_nonneg; lia).
  split; [apply Z.div_pos; lia|].
  apply Z.div_le_upper_bound; [lia|]. nia.
Qed.

Lemma reward_at_decreasing (h1 h2 : Z) :
  0 <= h1 <= h2 -> reward_at h2 <= reward_at h1.
Proof.
  intros Hh. unfold reward_at.
  assert (0 <= h1 / 210000 <= h2 / 210000).
  { split; [apply Z.div_pos; lia|apply Z.div_le_mono; lia]. }
  apply Z.div_le_compat_l; [lia|].
  split; [apply Z.pow_pos_nonneg; lia|apply Z.pow_le_mono_r; lia].
Qed.

Lemma reward_at_halves (h : Z) :
  0 <= h -> reward_at (h + 210000) = reward_at h / 2.
Proof.
  intros Hh. unfold reward_at.
  assert (0 <= h / 210000) by (apply Z.div_pos; lia).
  replace (h + 210000) with (h + 1 * 210000) by lia.
  rewrite Z.div_add by lia.
  rewrite Z.pow_add_r by lia. change (2 ^ 1) with 2.
  rewrite Z.div_div; [reflexivity| |lia].
  assert (0 < 2 ^ (h / 210000)) by (apply Z.pow_pos_nonneg; lia). lia.
Qed.

Lemma reward_at_exhausted (h : Z) : 6930000 <= h -> reward_at h = 0.
Proof.
  intros Hh. unfold reward_at. apply Z.div_small.
  assert (33 <= h / 210000) by (apply Z.div_le_lower_bound; lia).
  assert (2 ^ 33 <= 2 ^ (h / 210000)) by (apply Z.pow_le_mono_r; lia).
  change (2 ^ 33) with 8589934592 in *. lia.
Qed.

Lemma foldl_record_reward_entries (blocks : list Z) (h : Z) (r : number) :
  foldl record_reward ∅ blocks !! h = Some r -> h ∈ blocks /\ r = PInt (reward_at h).
Proof.
  intros Hr.
  assert (Hin : h ∈ blocks).
  { assert (Hdom : h ∈ dom (foldl record_reward ∅ blocks)) by (apply elem_of_dom; eauto).
    rewrite foldl_record_reward_dom, dom_empty_L in Hdom.
    apply elem_of_union in Hdom as [Hdom|Hdom]; [inversion Hdom|].
    now apply elem_of_list_to_set in Hdom. }
  split; [exact Hin|].
  rewrite (foldl_record_reward_lookup blocks ∅ h Hin) in Hr. congruence.
Qed.

End Rewards.

(** X6. On non-negative heights the schedule only holds integer rewards
    between 0 and 5000000000, and they never increase with the height: a
    height one interval (210000 blocks) further has half the reward, rounded
    down, and every height from 6930000 on (33 halvings) has reward 0. *)
Theorem halving_schedule_rewards_decrease (blocks : list Z) :
  Forall (fun h => 0 <= h) blocks ->
  exists result,
    halving_schedule blocks = Ok result /\
    forall h1 h2 r1 r2,
      result !! h1 = Some r1 -> result !! h2 = Some r2 -> h1 <= h2 ->
      exists z1 z2,
        r1 = PInt z1 /\ r2 = PInt z2 /\
        0 <= z2 <= z1 /\ z1 <= 5000000000 /\
        (h2 = h1 + 210000 -> z2 = z1 / 2) /\
        (6930000 <= h2 -> z2 = 0).
Proof.
  intros Hblocks. exists (foldl record_reward ∅ blocks).
  split; [now apply halving_loop_nonneg|].
  intros h1 h2 r1 r2 H1 H2 Hle.
  apply foldl_record_reward_entries in H1 as [Hin1 ->].
  apply foldl_record_reward_entries in H2 as [Hin2 ->].
  rewrite Forall_forall in Hblocks.
  pose proof (Hblocks h1 Hin1) as Hh1.
  exists (reward_at h1), (reward_at h2).
  pose proof (reward_at_bounds h1 Hh1). pose proof (reward_at_bounds h2 ltac:(lia)).
  pose proof (reward_at_decreasing h1 h2 ltac:(lia)).
  repeat split; try lia.
  - intros ->. now apply reward_at_halves.
  - apply reward_at_exhausted.
Qed.

Lemma halving_schedule_rewards_decrease_witness :
  Forall (fun h => 0 <= h) [0; 210000; 7000000] /\
  exists result, halving_schedule [0; 210000; 7000000] = Ok result.
Proof.
  assert (H : Forall (fun h => 0 <= h) [0; 210000; 7000000]) by (repeat constructor; lia).
  split; [exact H|].
  destruct (halving_schedule_rewards_decrease _ H) as (result & Hres & _).
  now exists result.
Defined.

(** *** [generate_address]: the draws *)

Lemma choices_loop_draws (population : list ascii) (k : nat) (g : rng) :
  population <> [] ->
  forall i, snd (choices_loop population k g) i = g (k + i)%nat.
Proof.
  intros Hne. revert g. induction k as [|k IH]; intros g i; [reflexivity|].
  cbn [choices_loop randbelow].
  assert (Hlt : (g 0 mod length population < length population)%nat).
  { apply Nat.mod_upper_bound. destruct population; [contradiction|discriminate]. }
  destruct (lookup_lt_is_Some_2 _ _ Hlt) as [c ->].
  specialize (IH (fun j => g (S j)) i).
  destruct (choices_loop population k (fun j => g (S j))) as [r g2].
  cbn [snd] in *. rewrite IH. f_equal.
Qed.

(** X7. [generate_address] consumes exactly [max(0, 32 - len(prefix))] draws
    of the random source, one per suffix character and none for a prefix of
    32 characters or more: the generator it leaves behind continues with the
    draw that follows them. *)
Theorem generate_address_draws (prefix : string) (g : rng) (i : nat) :
  snd (generate_address prefix g) i = g (Z.to_nat (32 - len prefix) + i)%nat.
Proof.
  unfold generate_address, choices.
  pose proof (choices_loop_draws (list_ascii_of_string (ascii_lowercase ++ digits))
                (Z.to_nat (32 - len prefix)) g ltac:(discriminate) i) as H.
  destruct (choices_loop _ _ g) as [r g']. exact H.
Qed.

(** *** [normalize_address] and [is_mainnet] *)

Section Normalized.

Lemma length_lower (s : string) : String.length (lower s) = String.length s.
Proof. induction s as [|c s IH]; simpl; [reflexivity|now rewrite IH]. Qed.

Lemma length_lstrip (s : string) : (String.length (lstrip s) <= String.length s)%nat.
Proof.
  induction s as [|c s IH]; simpl; [lia|].
  destruct (is_space c); simpl; lia.
Qed.

Lemma length_rstrip (s : string) : (String.length (rstrip s) <= String.length s)%nat.
Proof.
  induction s as [|c s IH]; simpl; [lia|].
  destruct (rstrip s); [destruct (is_space c)|]; simpl in *; lia.
Qed.

Lemma lstrip_normalized (a : string) : lstrip (normalize_address a) = normalize_address a.
Proof.
  unfold normalize_address, strip. rewrite lstrip_lower. f_equal.
  apply lstrip_clean, rstrip_starts_clean, lstrip_starts_clean.
Qed.

Lemma rstrip_normalized (a : string) : rstrip (normalize_address a) = normalize_address a.
Proof.
  unfold normalize_address, strip. rewrite rstrip_lower. f_equal. apply rstrip_idem.
Qed.

Lemma no_space_lower (s : string) : no_space (lower s) = no_space s.
Proof.
  induction s as [|c s IH]; simpl; [reflexivity|].
  now rewrite is_space_lower_char, IH.
Qed.

Lemma no_space_rstrip (s : string) : no_space s = true -> rstrip s = s.
Proof.
  induction s as [|c s IH]; simpl; [reflexivity|].
  intros H. apply andb_prop in H as [Hc Hs]. rewrite (IH Hs).
  destruct s; [|reflexivity]. now destruct (is_space c).
Qed.

Lemma no_space_strip (s : string) : no_space s = true -> strip s = s.
Proof.
  intros H. unfold strip.
  assert (Hl : lstrip s = s).
  { destruct s as [|c s]; simpl in *; [reflexivity|].
    apply andb_prop in H as [Hc _]. now destruct (is_space c). }
  rewrite Hl. now apply no_space_rstrip.
Qed.

End Normalized.

(** X8. A normalised address has no white space at either end and no
    character that lower-casing would change, and it is never longer than the
    input; an address is left unchanged by [normalize_address] exactly when
    it already has these properties. *)
Theorem normalize_address_shape (a : string) :
  lstrip (normalize_address a) = normalize_address a /\
  rstrip (normalize_address a) = normalize_address a /\
  lower (normalize_address a) = normalize_address a /\
  (String.length (normalize_address a) <= String.length a)%nat /\
  (normalize_address a = a <-> lstrip a = a /\ rstrip a = a /\ lower a = a).
Proof.
  split; [apply lstrip_normalized|]. split; [apply rstrip_normalized|].
  split; [apply lower_idem|]. split.
  - unfold normalize_address, strip. rewrite length_lower.
    pose proof (length_rstrip (lstrip a)). pose proof (length_lstrip a). lia.
  - split.
    + intros E. rewrite <- E.
      split; [apply lstrip_normalized|]. split; [apply rstrip_normalized|].
      apply lower_idem.
    + intros (Hl & Hr & Hlow). unfold normalize_address, strip.
      now rewrite Hl, Hr, Hlow.
Qed.

(** X9. [is_mainnet] accepts exactly the strings that lower-case to
    'mainnet': an accepted string has 7 characters and no white space, so a
    padded name is rejected; [normalize_address] maps every accepted string to
    'mainnet', which is accepted too, as is the lower-cased name. *)
Theorem is_mainnet_exact (network : string) :
  is_mainnet network = true ->
  lower network = "mainnet"%string /\
  String.length network = 7%nat /\
  strip network = network /\
  normalize_address network = "mainnet"%string /\
  is_mainnet (normalize_address network) = true /\
  is_mainnet (lower network) = true.
Proof.
  unfold is_mainnet. intros H. apply String.eqb_eq in H.
  assert (Hstrip : strip network = network).
  { apply no_space_strip. rewrite <- no_space_lower, H. reflexivity. }
  split; [exact H|]. split; [now rewrite <- length_lower, H|].
  split; [exact Hstrip|].
  assert (Hnorm : normalize_address network = "mainnet"%string).
  { unfold normalize_address. now rewrite Hstrip. }
  split; [exact Hnorm|]. split.
  - rewrite Hnorm. reflexivity.
  - rewrite lower_idem, H. reflexivity.
Qed.

Lemma is_mainnet_exact_witness :
  is_mainnet "MainNet" = true /\ normalize_address "MainNet" = "mainnet"%string.
Proof.
  assert (H : is_mainnet "MainNet" = true) by reflexivity.
  split; [exact H|].
  exact (proj1 (proj2 (proj2 (proj2 (is_mainnet_exact "MainNet" H))))).
Defined.

(** *** [find_high_fee] on a concatenation *)

Lemma find_high_fee_from_shift (start : nat) (fee_list : list number) :
  find_high_fee_from start fee_list =
  match find_high_fee_from 0 fee_list with
  | Some (index, fee) => Some ((start + index)%nat, fee)
  | None => None
  end.
Proof.
  revert start. induction fee_list as [|fee rest IH]; intros start; simpl; [reflexivity|].
  destruct (num_gt fee 0.005%float); [f_equal; f_equal; lia|].
  rewrite (IH (S start)), (IH 1%nat).
  destruct (find_high_fee_from 0 rest) as [[index fee']|]; [|reflexivity].
  f_equal. f_equal. lia.
Qed.

Lemma find_high_fee_from_app (start : nat) (fees1 fees2 : list number) :
  find_high_fee_from start (fees1 ++ fees2) =
  match find_high_fee_from start fees1 with
  | Some found => Some found
  | None =>
      match find_high_fee_from 0 fees2 with
      | Some (index, fee) => Some ((start + length fees1 + index)%nat, fee)
      | None => None
      end
  end.
Proof.
  revert start. induction fees1 as [|fee rest IH]; intros start; simpl.
  - rewrite find_high_fee_from_shift.
    destruct (find_high_fee_from 0 fees2) as [[index fee]|]; [|reflexivity].
    f_equal. f_equal. lia.
  - destruct (num_gt fee 0.005%float); [reflexivity|].
    rewrite (IH (S start)).
    destruct (find_high_fee_from (S start) rest); [reflexivity|].
    destruct (find_high_fee_from 0 fees2) as [[index fee']|]; [|reflexivity].
    f_equal. f_equal. lia.
Qed.

(** X10. Searching a concatenation: a match in the first list is the answer
    whatever follows; without one, the answer is the match of the second list
    with its index moved by the length of the first. *)
Theorem find_high_fee_app (fees1 fees2 : list number) :
  find_high_fee (fees1 ++ fees2) =
  match find_high_fee fees1 with
  | Some found => Some found
  | None =>
      match find_high_fee fees2 with
      | Some (index, fee) => Some ((length fees1 + index)%nat, fee)
      | None => None
      end
  end.
Proof.
  unfold find_high_fee. apply (find_high_fee_from_app 0).
Qed.

(** *** The predicates on amounts *)


(** Replaces [Prim2SF c], for a float constant [c], by its value. *)
Ltac eval_float c :=
  let v := eval vm_compute in (Prim2SF c) in
  change (Prim2SF c) with v in *.

(** X11. [calculate_total_reward] always answers with a float, also for an
    integer number of blocks; its only failure is the OverflowError of the
    conversion of an integer number of blocks to a float, raised exactly when
    that integer is at least 2^1024 - 2^970 in absolute value. A float
    argument never fails. *)
Theorem calculate_total_reward_errors (blocks_mined : number) :
  (forall total, calculate_total_reward blocks_mined = Ok total ->
     exists f, total = PFloat f) /\
  (forall e, calculate_total_reward blocks_mined = Raise e -> e = OverflowError) /\
  (calculate_total_reward blocks_mined = Raise OverflowError <->
     exists n, blocks_mined = PInt n /\ float_int_limit <= Z.abs n) /\
  ((exists total, calculate_total_reward blocks_mined = Ok total) <->
     forall n, blocks_mined = PInt n -> Z.abs n < float_int_limit).
Proof.
  unfold calculate_total_reward, mul.
  destruct blocks_mined as [n|f].
  - destruct (float_of_int n) as [f|e] eqn:E; cbn.
    + assert (Hn : Z.abs n < float_int_limit).
      { destruct (Z.lt_ge_cases (Z.abs n) float_int_limit) as [|Hge]; [assumption|].
        apply float_of_int_overflow in Hge. congruence. }
      split; [intros total H; eexists; symmetry; injection H as H; exact H|].
      split; [discriminate|]. split.
      * split; [discriminate|]. intros (n' & Hn' & Hbig). injection Hn' as <-. lia.
      * split; [intros _ n' Hn'; injection Hn' as <-; exact Hn|].
        intros _. eexists. reflexivity.
    + pose proof (float_of_int_raises n e E) as ->.
      pose proof (proj1 (float_of_int_overflow n) E) as Hbig.
      split; [discriminate|]. split; [congruence|]. split.
      * split; [intros _; now exists n|reflexivity].
      * split; [intros (total & H); discriminate|].
        intros H. specialize (H n eq_refl). lia.
  - split; [intros total H; eexists; symmetry; injection H as H; exact H|].
    split; [discriminate|]. split.
    + split; [discriminate|]. intros (n & Hn & _). discriminate.
    + split; [discriminate|]. intros _. eexists. reflexivity.
Qed.

(** X12. [is_valid_tx_fee] accepts no integer fee (no integer lies between
    0.00001 and 0.01), and every fee it accepts is a positive finite float:
    zero, negative fees, infinities and NaN are rejected. *)
Theorem is_valid_tx_fee_rejects (fee : number) :
  (forall n, fee = PInt n -> is_valid_tx_fee fee = false) /\
  (is_valid_tx_fee fee = true ->
     exists f m e, fee = PFloat f /\ Prim2SF f = S754_finite false m e).
Proof.
  assert (Hint : forall n, is_valid_tx_fee (PInt n) = false).
  { intros n. unfold is_valid_tx_fee, float_le_num, num_le_float, int_float_compare.
    eval_float 0.00001%float.
    eval_float 0.01%float.
    cbn [Z.leb Z.compare Z.opp cond_Zopp].
    change (- (-69)) with 69. change (- (-59)) with 59.
    change (2 ^ 69) with 590295810358705651712.
    change (2 ^ 59) with 576460752303423488.
    destruct (Z.compare_spec (n * 590295810358705651712) 5902958103587057);
      destruct (Z.compare_spec (n * 576460752303423488) 5764607523034235);
      try reflexivity; lia. }
  split; [intros n ->; apply Hint|].
  destruct fee as [n|f]; [rewrite Hint; discriminate|].
  unfold is_valid_tx_fee, float_le_num, num_le_float, float_le.
  rewrite !leb_spec.
  eval_float 0.00001%float.
  eval_float 0.01%float.
  intros H. apply andb_prop in H as [H1 H2].
  destruct (Prim2SF f) as [s|s| |s m e] eqn:Hf; try discriminate.
  - destruct s; discriminate.
  - destruct s; [discriminate|]. now exists f, m, e.
Qed.

(** X13. On an integer balance [is_large_balance] is the exact comparison
    [balance > 50], whatever the size of the integer (no conversion to float,
    so no overflow); a float balance it accepts is positive, finite or
    [+inf], never a NaN; and the balance of [get_wallet_details], 50.0 itself,
    is not large. *)
Theorem is_large_balance_exact (balance : number) :
  (forall n, balance = PInt n -> is_large_balance balance = (50 <? n)) /\
  (forall f, balance = PFloat f -> is_large_balance balance = true ->
     Prim2SF f = S754_infinity false \/
     exists m e, Prim2SF f = S754_finite false m e) /\
  is_large_balance (PFloat (snd get_wallet_details)) = false.
Proof.
  split; [|split; [|reflexivity]].
  - intros n ->. unfold is_large_balance, num_gt, int_float_compare.
    eval_float 50.0%float. cbn [Z.leb Z.compare Z.opp cond_Zopp].
    change (- (-47)) with 47. change (2 ^ 47) with 140737488355328.
    destruct (Z.compare_spec (n * 140737488355328) 7036874417766400);
      destruct (Z.ltb_spec 50 n); try reflexivity; lia.
  - intros f ->. unfold is_large_balance, num_gt, float_gt.
    rewrite ltb_spec. eval_float 50.0%float. intros H.
    destruct (Prim2SF f) as [s|s| |s m e]; try discriminate.
    + destruct s; [discriminate|now left].
    + destruct s; [discriminate|]. right. now exists m, e.
Qed.

(** X14. Every value accepted by [is_in_range] is a finite number whose
    integer part lies between 100 and 200: NaN and the infinities are
    rejected, and so is every value below 100 or above 200; an integer is
    accepted exactly when it lies between 100 and 200. *)
Theorem is_in_range_bounds (value : number) :
  (is_in_range value = true ->
     exists z, int_ value = Ok z /\ 100 <= z <= 200) /\
  (forall n, value = PInt n -> (is_in_range value = true <-> 100 <= n <= 200)).
Proof.
  split.
  - destruct value as [n|f]; unfold is_in_range, int_le_num, num_le_int; intros H;
      apply andb_prop in H as [H1 H2].
    + exists n. split; [reflexivity|lia].
    + unfold int_, int_of_float. unfold int_float_compare in H1, H2.
      destruct (Prim2SF f) as [s|s| |s m e]; try discriminate.
      * destruct s; discriminate.
      * unfold SF_trunc. destruct (Z.leb_spec 0 e) as [He|He].
        -- eexists. split; [reflexivity|].
           destruct (Z.compare_spec 100 (cond_Zopp s (Zpos m * 2 ^ e)));
             destruct (Z.compare_spec 200 (cond_Zopp s (Zpos m * 2 ^ e)));
             try discriminate; lia.
        -- eexists. split; [reflexivity|].
           assert (Hp : 0 < 2 ^ (- e)) by (apply Z.pow_pos_nonneg; lia).
           assert (Hlo : 100 * 2 ^ (- e) <= cond_Zopp s (Zpos m)).
           { destruct (Z.compare_spec (100 * 2 ^ (- e)) (cond_Zopp s (Zpos m)));
               try discriminate; lia. }
           assert (Hhi : cond_Zopp s (Zpos m) <= 200 * 2 ^ (- e)).
           { destruct (Z.compare_spec (200 * 2 ^ (- e)) (cond_Zopp s (Zpos m)));
               try discriminate; lia. }
           rewrite Z.quot_div_nonneg by lia. split.
           ++ apply Z.div_le_lower_bound; lia.
           ++ apply Z.div_le_upper_bound; lia.
  - intros n ->. unfold is_in_range, int_le_num, num_le_int.
    rewrite andb_true_iff, !Z.leb_le. reflexivity.
Qed.

Lemma is_in_range_bounds_witness :
  is_in_range (PFloat 150.5%float) = true /\
  exists z, int_ (PFloat 150.5%float) = Ok z /\ 100 <= z <= 200.
Proof.
  assert (H : is_in_range (PFloat 150.5%float) = true) by (vm_compute; reflexivity).
  split; [exact H|].
  exact (proj1 (is_in_range_bounds (PFloat 150.5%float)) H).
Defined.

(** *** [calculate_sats] on negative and exceptional amounts *)

Section Negation.

Lemma binary_round_aux_opp (s : bool) (mx ex : Z) (lx : location) :
  SFopp (binary_round_aux prec emax s mx ex lx) =
  binary_round_aux prec emax (negb s) mx ex lx.
Proof.
  unfold binary_round_aux.
  destruct (shr_fexp prec emax mx ex lx) as [mrs' e'].
  destruct (shr_fexp prec emax _ e' loc_Exact) as [mrs'' e''].
  destruct (shr_m mrs'') as [|m|m]; [reflexivity| |reflexivity].
  destruct (e'' <=? emax - prec)%Z; reflexivity.
Qed.

Lemma SFmul_opp_l (a : spec_float) (mc : positive) (ec : Z) :
  SFmul prec emax (SFopp a) (S754_finite false mc ec) =
  SFopp (SFmul prec emax a (S754_finite false mc ec)).
Proof.
  destruct a as [s|s| |s m e]; cbn [SFopp SFmul]; try reflexivity;
    try (destruct s; reflexivity).
  symmetry. destruct s; cbn [xorb negb].
  - apply (binary_round_aux_opp true).
  - apply (binary_round_aux_opp false).
Qed.

Lemma SF_trunc_opp (s : bool) (m : positive) (e : Z) :
  SF_trunc (negb s) m e = - SF_trunc s m e.
Proof.
  unfold SF_trunc. destruct (Z.leb_spec 0 e) as [He|He].
  - destruct s; cbn [negb cond_Zopp]; lia.
  - assert (Hp : 2 ^ (- e) <> 0) by (apply Z.pow_nonzero; lia).
    destruct s; cbn [negb cond_Zopp].
    + change (Zpos m) with (- Zneg m). now rewrite Z.quot_opp_l, Z.opp_involutive.
    + change (Zneg m) with (- Zpos m). now rewrite Z.quot_opp_l.
Qed.

Lemma int_of_float_opp (f g : float) :
  Prim2SF g = SFopp (Prim2SF f) ->
  int_of_float g =
  match int_of_float f with Ok z => Ok (- z) | Raise e => Raise e end.
Proof.
  unfold int_of_float. intros ->.
  destruct (Prim2SF f) as [s|s| |s m e]; cbn [SFopp]; try reflexivity.
  now rewrite SF_trunc_opp.
Qed.

(** The product with 100000000 is a NaN only for a NaN amount. *)
Lemma mul_sats_nan (x : float) :
  Prim2SF (PrimFloat.mul x 100000000%float) = S754_nan <-> Prim2SF x = S754_nan.
Proof.
  rewrite mul_spec. eval_float 100000000%float. unfold SF64mul.
  destruct (Prim2SF x) as [s|s| |s m e]; cbn [SFmul]; try (split; congruence).
  split; [|discriminate]. intros H. exfalso.
  revert H. apply binary_round_aux_not_nan. lia.
Qed.

End Negation.

(** X15. [calculate_sats] is odd: the amount [-x] gives the negated result of
    [x], and fails with the same exception when [x] does. The integer
    conversion truncates toward zero, so a negative amount is rounded up, not
    to the floor. *)
Theorem calculate_sats_opp (x : float) :
  calculate_sats (PrimFloat.opp x) =
  match calculate_sats x with
  | Ok sats => Ok (- sats)
  | Raise e => Raise e
  end.
Proof.
  change (int_of_float (PrimFloat.mul (PrimFloat.opp x) 100000000%float) =
          match int_of_float (PrimFloat.mul x 100000000%float) with
          | Ok sats => Ok (- sats)
          | Raise e => Raise e
          end).
  apply int_of_float_opp.
  rewrite !mul_spec, opp_spec. eval_float 100000000%float.
  apply SFmul_opp_l.
Qed.

(** X16. The failures of [calculate_sats]: ValueError exactly for a NaN
    amount, OverflowError exactly when the product with 100000000 is an
    infinity (so for every infinite amount), and no other exception. *)
Theorem calculate_sats_errors (x : float) :
  (calculate_sats x = Raise ValueError <-> Prim2SF x = S754_nan) /\
  (calculate_sats x = Raise OverflowError <->
     exists s, Prim2SF (PrimFloat.mul x 100000000%float) = S754_infinity s) /\
  (forall s, Prim2SF x = S754_infinity s -> calculate_sats x = Raise OverflowError) /\
  (forall e, calculate_sats x = Raise e -> e = ValueError \/ e = OverflowError).
Proof.
  assert (Hcalc : calculate_sats x = int_of_float (PrimFloat.mul x 100000000%float))
    by reflexivity.
  rewrite Hcalc. split; [|split; [|split]].
  - rewrite <- mul_sats_nan. unfold int_of_float.
    destruct (Prim2SF (PrimFloat.mul x 100000000%float)); split; congruence.
  - unfold int_of_float.
    destruct (Prim2SF (PrimFloat.mul x 100000000%float)) as [s|s| |s m e].
    + split; [discriminate|]. intros (s' & H). discriminate.
    + split; [intros _; now exists s|reflexivity].
    + split; [discriminate|]. intros (s' & H). discriminate.
    + split; [discriminate|]. intros (s' & H). discriminate.
  - intros s Hx. unfold int_of_float. rewrite mul_spec, Hx.
    eval_float 100000000%float. reflexivity.
  - intros e. unfold int_of_float.
    destruct (Prim2SF (PrimFloat.mul x 100000000%float)); intros H;
      try discriminate; injection H as <-; [now right|now left].
Qed.

(** *** Exact products *)

Section Exact.

Lemma shr_1_double (x : Z) :
  0 <= x ->
  shr_1 {| shr_m := 2 * x; shr_r := false; shr_s := false |} =
  {| shr_m := x; shr_r := false; shr_s := false |}.
Proof. destruct x as [|p|p]; [reflexivity|reflexivity|lia]. Qed.

(** Shifting out [k] zero digits loses nothing. *)
Lemma iter_shr_1_exact (k : positive) (q : Z) :
  0 <= q ->
  SpecFloat.iter_pos shr_1 k {| shr_m := q * 2 ^ Zpos k; shr_r := false; shr_s := false |} =
  {| shr_m := q; shr_r := false; shr_s := false |}.
Proof.
  revert q. induction k as [k IH|k IH|]; intros q Hq; cbn [SpecFloat.iter_pos].
  - assert (Hp : 0 < 2 ^ Zpos k) by (apply Z.pow_pos_nonneg; lia).
    replace (q * 2 ^ Zpos k~1) with (2 * (q * 2 ^ Zpos k * 2 ^ Zpos k)).
    + rewrite shr_1_double by nia. rewrite IH by nia. now apply IH.
    + rewrite (Pos2Z.inj_xI k).
      replace (2 * Zpos k + 1) with (1 + Zpos k + Zpos k) by lia.
      rewrite !Z.pow_add_r by lia. change (2 ^ 1) with 2. ring.
  - assert (Hp : 0 < 2 ^ Zpos k) by (apply Z.pow_pos_nonneg; lia).
    replace (q * 2 ^ Zpos k~0) with (q * 2 ^ Zpos k * 2 ^ Zpos k).
    + rewrite IH by nia. now apply IH.
    + rewrite (Pos2Z.inj_xO k).
      replace (2 * Zpos k) with (Zpos k + Zpos k) by lia.
      rewrite Z.pow_add_r by lia. ring.
  - change (2 ^ 1) with 2. rewrite Z.mul_comm. now apply shr_1_double.
Qed.

(** A mantissa of 53 digits followed by [k] zero digits is rounded to its 53
    digits, with nothing lost. *)
Lemma binary_round_aux_exact (s : bool) (q r : positive) (k ex : Z) :
  Zpos q = Zpos r * 2 ^ k -> 0 <= k -> 2 ^ 52 <= Zpos r < 2 ^ 53 ->
  -1074 <= ex -> ex + k <= 971 ->
  binary_round_aux prec emax s (Zpos q) ex loc_Exact = S754_finite s r (ex + k).
Proof.
  intros Hq Hk Hr Hex Hmax.
  assert (Hdr : Zpos (digits2_pos r) = 53) by (apply digits2_pos_unique; simpl; lia).
  assert (Hdq : Zpos (digits2_pos q) = 53 + k).
  { apply digits2_pos_unique. rewrite Hq.
    replace (53 + k - 1) with (52 + k) by lia. rewrite !Z.pow_add_r by lia.
    assert (0 < 2 ^ k) by (apply Z.pow_pos_nonneg; lia). nia. }
  assert (Hsecond : forall e, -1074 <= e ->
            shr_fexp prec emax (Zpos r) e loc_Exact =
            ({| shr_m := Zpos r; shr_r := false; shr_s := false |}, e)).
  { intros e He. unfold shr_fexp. cbn [Zdigits2]. rewrite Hdr, fexp_eq.
    replace (Z.max (53 + e - 53) (-1074) - e) with 0 by lia. reflexivity. }
  assert (Hfirst : shr_fexp prec emax (Zpos q) ex loc_Exact =
                   ({| shr_m := Zpos r; shr_r := false; shr_s := false |}, ex + k)).
  { unfold shr_fexp. cbn [Zdigits2]. rewrite Hdq, fexp_eq.
    replace (Z.max (53 + k + ex - 53) (-1074) - ex) with k by lia.
    cbn [shr_record_of_loc]. destruct k as [|kp|kp]; [| |lia].
    - cbn [shr]. change (2 ^ 0) with 1 in Hq. rewrite Hq.
      f_equal; [f_equal|]; lia.
    - cbn [shr]. rewrite Hq. now rewrite iter_shr_1_exact by lia. }
  unfold binary_round_aux. rewrite Hfirst.
  cbn [shr_m loc_of_shr_record round_nearest_even].
  rewrite Hsecond by lia. cbn [shr_m].
  destruct (Z.leb_spec (ex + k) (emax - prec)) as [|Hgt]; [reflexivity|].
  change (emax - prec) with 971 in Hgt. lia.
Qed.

Lemma valid_normal (s : bool) (m : positive) (e : Z) :
  2 ^ 52 <= Zpos m < 2 ^ 53 -> -1074 <= e <= 971 ->
  valid_binary (S754_finite s m e) = true.
Proof.
  intros Hm He. cbn [SpecFloat.valid_binary]. unfold bounded, canonical_mantissa.
  assert (Hd : Zpos (digits2_pos m) = 53) by (apply digits2_pos_unique; simpl; lia).
  rewrite Hd, fexp_eq. apply andb_true_intro. split.
  - apply Z.eqb_eq. lia.
  - apply Z.leb_le. change (e <= 971). lia.
Qed.

(** [float(n)] is exact for a non-zero [n] of at most 53 digits. *)
Lemma float_of_int_exact (n : Z) :
  n <> 0 -> Z.abs n < 2 ^ 53 ->
  exists f m e,
    float_of_int n = Ok f /\
    Prim2SF f = S754_finite (n <? 0) m e /\
    2 ^ 52 <= Zpos m < 2 ^ 53 /\ -52 <= e <= 0 /\
    Zpos m = Z.abs n * 2 ^ (- e).
Proof.
  intros Hn Hsmall.
  assert (Hround : forall s p, Zpos p < 2 ^ 53 ->
            exists m e, binary_round prec emax s p 0 = S754_finite s m e /\
                        2 ^ 52 <= Zpos m < 2 ^ 53 /\ -52 <= e <= 0 /\
                        Zpos m = Zpos p * 2 ^ (- e)).
  { intros s p Hp. pose proof (digits2_pos_bounds p) as [Hlo Hhi].
    pose proof (digits2_pos_le p 53 Hp) as Hd.
    set (d := Zpos (digits2_pos p)) in *.
    assert (Hd1 : 1 <= d) by (unfold d; lia).
    unfold binary_round. fold d. rewrite fexp_eq.
    replace (Z.max (d + 0 - 53) (-1074)) with (d - 53) by lia.
    unfold shl_align. replace (d - 53 - 0) with (d - 53) by lia.
    destruct (d - 53) as [|k|k] eqn:Hk; [|lia|].
    - exists p, 0. assert (Hd53 : d = 53) by lia. rewrite Hd53 in Hlo.
      change (53 - 1) with 52 in Hlo.
      rewrite (binary_round_aux_exact s p p 0 0) by (simpl; lia).
      repeat split; try lia; simpl; lia.
    - assert (Ek : Zpos k = 53 - d) by lia.
      assert (Hmz : Zpos (Pos.iter xO p k) = Zpos p * 2 ^ (53 - d)).
      { rewrite iter_xO_mul. now rewrite Ek. }
      assert (Hrange : 2 ^ 52 <= Zpos (Pos.iter xO p k) < 2 ^ 53).
      { rewrite Hmz.
        assert (E52 : 2 ^ 52 = 2 ^ (d - 1) * 2 ^ (53 - d)).
        { rewrite <- Z.pow_add_r by lia. f_equal. lia. }
        assert (E53 : 2 ^ 53 = 2 ^ d * 2 ^ (53 - d)).
        { rewrite <- Z.pow_add_r by lia. f_equal. lia. }
        rewrite E52, E53.
        assert (0 < 2 ^ (53 - d)) by (apply Z.pow_pos_nonneg; lia).
        split; [apply Z.mul_le_mono_nonneg_r|apply Z.mul_lt_mono_pos_r]; lia. }
      exists (Pos.iter xO p k), (Zneg k).
      rewrite (binary_round_aux_exact s (Pos.iter xO p k) (Pos.iter xO p k) 0 (Zneg k))
        by (change (2 ^ 0) with 1; lia).
      replace (Zneg k + 0) with (Zneg k) by lia.
      repeat split; try lia.
      rewrite Hmz. f_equal. f_equal. lia. }
  unfold float_of_int.
  destruct n as [|p|p]; [contradiction| |]; cbn [binary_normalize Z.abs] in *.
  - destruct (Hround false p Hsmall) as (m & e & -> & Hm & He & Hval).
    exists (SF2Prim (S754_finite false m e)), m, e.
    split; [reflexivity|]. split; [|auto].
    apply Prim2SF_SF2Prim, valid_normal; lia.
  - destruct (Hround true p Hsmall) as (m & e & -> & Hm & He & Hval).
    exists (SF2Prim (S754_finite true m e)), m, e.
    split; [reflexivity|]. split; [|auto].
    apply Prim2SF_SF2Prim, valid_normal; lia.
Qed.

End Exact.

(** X17. For a number of blocks [n] with [25 * |n| < 2^53] (up to about
    3.6e14 blocks) the total reward is exact: the float returned is
    [25 * n / 8 = 3.125 * n], with no rounding error. *)
Theorem calculate_total_reward_exact (n : Z) :
  25 * Z.abs n < 2 ^ 53 ->
  exists total,
    calculate_total_reward (PInt n) = Ok (PFloat total) /\
    is_ratio total (25 * n) 3 = true.
Proof.
  intros Hsmall.
  destruct (Z.eq_dec n 0) as [->|Hn].
  { eexists. split; reflexivity. }
  destruct (float_of_int_exact n Hn ltac:(lia)) as (f & m & e & Hf & Hsf & Hm & He & Hval).
  unfold calculate_total_reward, mul. rewrite Hf. cbn [res_bind].
  exists (PrimFloat.mul f MINING_REWARD). split; [reflexivity|].
  unfold is_ratio. rewrite mul_spec, Hsf. unfold MINING_REWARD.
  eval_float 3.125%float. unfold SF64mul. cbn [SFmul].
  set (p5 := Z.to_pos (25 * Z.abs n)).
  assert (Hp5 : Zpos p5 = 25 * Z.abs n) by (unfold p5; rewrite Z2Pos.id; lia).
  pose proof (digits2_pos_bounds p5) as [Hlo Hhi].
  assert (Hd5 : Zpos (digits2_pos p5) <= 53) by (apply digits2_pos_le; lia).
  assert (Hd5' : 5 <= Zpos (digits2_pos p5)).
  { apply digits2_pos_ge. simpl. lia. }
  set (d := Zpos (digits2_pos p5)) in *.
  set (r := Z.to_pos (Zpos p5 * 2 ^ (53 - d))).
  assert (Hpow : 0 < 2 ^ (53 - d)) by (apply Z.pow_pos_nonneg; lia).
  assert (Hr : Zpos r = Zpos p5 * 2 ^ (53 - d)) by (unfold r; rewrite Z2Pos.id; nia).
  assert (Hrange : 2 ^ 52 <= Zpos r < 2 ^ 53).
  { rewrite Hr.
    assert (E52 : 2 ^ 52 = 2 ^ (d - 1) * 2 ^ (53 - d)).
    { rewrite <- Z.pow_add_r by lia. f_equal. lia. }
    assert (E53 : 2 ^ 53 = 2 ^ d * 2 ^ (53 - d)).
    { rewrite <- Z.pow_add_r by lia. f_equal. lia. }
    rewrite E52, E53.
    split; [apply Z.mul_le_mono_nonneg_r|apply Z.mul_lt_mono_pos_r]; lia. }
  rewrite (binary_round_aux_exact _ _ r (d - 5 - e) (e + -51)); try lia.
  - replace (e + -51 + (d - 5 - e)) with (d - 56) by lia.
    destruct (Z.leb_spec 0 (d - 56)); [lia|].
    apply Z.eqb_eq. rewrite Hr, Hp5.
    replace (- (d - 56)) with (3 + (53 - d)) by lia.
    rewrite Z.pow_add_r by lia. change (2 ^ 3) with 8.
    destruct n as [|p|p]; [contradiction| |];
      cbn [Z.ltb Z.compare xorb cond_Zopp].
    + rewrite Z.abs_eq by lia. ring.
    + rewrite Z.abs_neq by lia. ring.
  - assert (E : 2 ^ 48 * 2 ^ (- e) = 2 ^ (53 - d) * 2 ^ (d - 5 - e)).
    { rewrite <- !Z.pow_add_r by lia. f_equal. lia. }
    rewrite Pos2Z.inj_mul, Hval, Hr, Hp5.
    change (Zpos 7036874417766400) with (25 * 2 ^ 48).
    replace (Z.abs n * 2 ^ (- e) * (25 * 2 ^ 48))
      with (25 * Z.abs n * (2 ^ 48 * 2 ^ (- e))) by ring.
    rewrite E. ring.
Qed.

Lemma calculate_total_reward_exact_witness :
  25 * Z.abs 840000 < 2 ^ 53 /\
  exists total,
    calculate_total_reward (PInt 840000) = Ok (PFloat total) /\
    is_ratio total (25 * 840000) 3 = true.
Proof.
  assert (H : 25 * Z.abs 840000 < 2 ^ 53) by (vm_compute; reflexivity).
  split; [exact H|]. exact (calculate_total_reward_exact 840000 H).
Defined.

(** *** [halving_schedule] just below height zero *)

Lemma halving_loop_below_zero (blocks : list Z) (result : gmap Z number) :
  Forall (fun h => -210000 <= h < 0) blocks ->
  exists result',
    halving_loop blocks result = Ok result' /\
    (forall h, h ∈ blocks -> result' !! h = Some (PFloat 10000000000%float)) /\
    (forall h, h ∉ blocks -> result' !! h = result !! h).
Proof.
  intros Hall. revert result.
  induction Hall as [|block rest Hblock _ IH]; intros result.
  - exists result. split; [reflexivity|]. split; [|reflexivity].
    intros h Hh. now apply elem_of_nil in Hh.
  - assert (Hdiv : block / 210000 = -1)
      by (Z.to_euclidean_division_equations; lia).
    assert (Hstep : halving_loop (block :: rest) result =
                    halving_loop rest (<[block := PFloat 10000000000%float]> result)).
    { cbn [halving_loop]. unfold int_floordiv, halving_interval.
      change (210000 =? 0) with false. cbn iota. rewrite Hdiv. reflexivity. }
    destruct (IH (<[block := PFloat 10000000000%float]> result))
      as (result' & Hres & Hin & Hout).
    exists result'. split; [now rewrite Hstep|]. split.
    + intros h Hh. destruct (decide (h ∈ rest)) as [Hrest|Hrest]; [now apply Hin|].
      apply elem_of_cons in Hh as [->|Hh]; [|contradiction].
      rewrite (Hout block Hrest). apply lookup_insert_eq.
    + intros h Hh. apply not_elem_of_cons in Hh as [Hne Hrest].
      rewrite (Hout h Hrest). now apply lookup_insert_ne.
Qed.

(** X18. Heights of the interval just below zero, [-210000 <= h < 0], are
    not rejected: the number of halvings is -1, the divisor [2 ** -1] is the
    float 0.5, and every such height gets the float reward 10000000000.0,
    twice the initial reward, instead of an integer. *)
Theorem halving_schedule_below_zero (blocks : list Z) :
  Forall (fun h => -210000 <= h < 0) blocks ->
  exists result,
    halving_schedule blocks = Ok result /\
    (forall h, h ∈ blocks -> result !! h = Some (PFloat 10000000000%float)) /\
    (forall h, h ∉ blocks -> result !! h = None).
Proof.
  intros Hall. unfold halving_schedule.
  destruct (halving_loop_below_zero blocks ∅ Hall) as (result & Hres & Hin & Hout).
  exists result. split; [exact Hres|]. split; [exact Hin|].
  intros h Hh. rewrite (Hout h Hh). apply lookup_empty.
Qed.

Lemma halving_schedule_below_zero_witness :
  Forall (fun h => -210000 <= h < 0) [-1; -210000] /\
  exists result,
    halving_schedule [-1; -210000] = Ok result /\
    (forall h, h ∈ [-1; -210000] -> result !! h = Some (PFloat 10000000000%float)) /\
    (forall h, h ∉ [-1; -210000] -> result !! h = None).
Proof.
  assert (H : Forall (fun h => -210000 <= h < 0) [-1; -210000])
    by (repeat constructor; lia).
  split; [exact H|]. exact (halving_schedule_below_zero [-1; -210000] H).
Defined.

(** ** [normalize_address] on every string *)

Section UnicodeFacts.

Lemma unicode_assoc_In (c : Z) (table : list (Z * list Z)) (mapped : list Z) :
  Unicode.assoc c table = Some mapped -> In (c, mapped) table.
Proof.
  induction table as [|[k v] table IH]; cbn [Unicode.assoc]; [discriminate|].
  destruct (Z.eqb_spec k c) as [->|_]; intros H.
  - left. congruence.
  - right. now apply IH.
Qed.

Lemma forallb_Forall {A : Type} (p : A -> bool) (l : list A) :
  forallb p l = true -> Forall (fun x => p x = true) l.
Proof.
  induction l as [|x l IH]; cbn [forallb]; intros H; constructor;
    apply andb_prop in H as [Hx Hl]; auto.
Qed.

(** Every entry of the table of lower cases has a lower case that is not
    empty, holds no white space and is left alone by [str.lower]. *)
Lemma unicode_lower_table_checked :
  forallb Unicode.checked Unicode.lower_table = true.
Proof. vm_compute. reflexivity. Qed.

Lemma unicode_to_lower_full_cases (c : Z) :
  (Unicode.assoc c Unicode.lower_table = None /\ Unicode.to_lower_full c = [c]) \/
  Unicode.checked (c, Unicode.to_lower_full c) = true.
Proof.
  unfold Unicode.to_lower_full.
  destruct (Unicode.assoc c Unicode.lower_table) as [mapped|] eqn:E; [right|now left].
  apply unicode_assoc_In in E.
  exact (proj1 (forallb_forall _ _) unicode_lower_table_checked _ E).
Qed.

Lemma unicode_sigma_cases (before after : list Z) :
  Unicode.handle_capital_sigma before after = 962 \/
  Unicode.handle_capital_sigma before after = 963.
Proof.
  unfold Unicode.handle_capital_sigma.
  match goal with |- context [if ?b then 962 else 963] => destruct b end; auto.
Qed.

(** One step of [str.lower]: at least one code point comes out, each is left
    alone by a second [str.lower], and none is white space unless the code
    point lowered is. *)
Lemma unicode_lower_ucs4_spec (before : list Z) (c : Z) (after : list Z) :
  Unicode.lower_ucs4 before c after <> [] /\
  Forall (fun d => Unicode.stable d = true) (Unicode.lower_ucs4 before c after) /\
  (Unicode.is_whitespace c = false ->
   Forall (fun d => Unicode.is_whitespace d = false) (Unicode.lower_ucs4 before c after)).
Proof.
  unfold Unicode.lower_ucs4. destruct (Z.eqb_spec c 931) as [->|Hc].
  - split; [discriminate|].
    destruct (unicode_sigma_cases before after) as [-> | ->];
      (split; [|intros _]); repeat constructor.
  - destruct (unicode_to_lower_full_cases c) as [[Hnone ->]|Hchecked].
    + split; [discriminate|]. split.
      * repeat constructor. unfold Unicode.stable. rewrite Hnone.
        now destruct (Z.eqb_spec c 931).
      * intros Hws. now repeat constructor.
    + unfold Unicode.checked in Hchecked. cbn [snd] in Hchecked.
      destruct (Unicode.to_lower_full c) as [|d mapped]; [discriminate|].
      split; [discriminate|].
      apply forallb_Forall in Hchecked.
      split; [|intros _]; eapply Forall_impl; try exact Hchecked;
        intros x Hx; apply andb_prop in Hx as [Hws Hst]; [exact Hst|].
      now apply negb_true_iff.
Qed.

Lemma unicode_do_lower_stable (before s : list Z) :
  Forall (fun d => Unicode.stable d = true) (Unicode.do_lower before s).
Proof.
  revert before. induction s as [|c rest IH]; intros before; cbn [Unicode.do_lower].
  - constructor.
  - apply Forall_app. split; [apply unicode_lower_ucs4_spec|apply IH].
Qed.

Lemma unicode_do_lower_fixed (before s : list Z) :
  Forall (fun d => Unicode.stable d = true) s -> Unicode.do_lower before s = s.
Proof.
  intros Hs. revert before.
  induction Hs as [|c rest Hc _ IH]; intros before; cbn [Unicode.do_lower]; [reflexivity|].
  rewrite IH. unfold Unicode.lower_ucs4, Unicode.to_lower_full.
  unfold Unicode.stable in Hc. apply andb_prop in Hc as [Hsigma Hnone].
  apply negb_true_iff in Hsigma. rewrite Hsigma.
  destruct (Unicode.assoc c Unicode.lower_table); [discriminate|reflexivity].
Qed.

Lemma unicode_lower_idem (s : list Z) :
  Unicode.lower (Unicode.lower s) = Unicode.lower s.
Proof. apply unicode_do_lower_fixed, unicode_do_lower_stable. Qed.

Lemma unicode_lstrip_starts_clean (s : list Z) :
  Unicode.starts_clean (Unicode.lstrip s) = true.
Proof.
  induction s as [|c s IH]; [reflexivity|]. cbn [Unicode.lstrip].
  destruct (Unicode.is_whitespace c) eqn:E; [exact IH|].
  cbn [Unicode.starts_clean]. now rewrite E.
Qed.

Lemma unicode_starts_clean_lstrip (s : list Z) :
  Unicode.starts_clean s = true -> Unicode.lstrip s = s.
Proof.
  destruct s as [|c s]; [reflexivity|]. cbn [Unicode.starts_clean Unicode.lstrip].
  now destruct (Unicode.is_whitespace c).
Qed.

Lemma unicode_rstrip_starts_clean (s : list Z) :
  Unicode.starts_clean s = true -> Unicode.starts_clean (Unicode.rstrip s) = true.
Proof.
  destruct s as [|c s]; [reflexivity|]. cbn [Unicode.starts_clean Unicode.rstrip].
  intros H. destruct (Unicode.rstrip s); [|exact H].
  destruct (Unicode.is_whitespace c) eqn:E; [discriminate|].
  cbn [Unicode.starts_clean]. now rewrite E.
Qed.

Lemma unicode_rstrip_ends_clean (s : list Z) :
  Unicode.ends_clean (Unicode.rstrip s) = true.
Proof.
  induction s as [|c s IH]; [reflexivity|]. cbn [Unicode.rstrip].
  destruct (Unicode.rstrip s) as [|d r].
  - destruct (Unicode.is_whitespace c) eqn:E; [reflexivity|].
    cbn [Unicode.ends_clean]. now rewrite E.
  - exact IH.
Qed.

Lemma unicode_ends_clean_rstrip (s : list Z) :
  Unicode.ends_clean s = true -> Unicode.rstrip s = s.
Proof.
  induction s as [|c s IH]; [reflexivity|].
  destruct s as [|d s].
  - cbn [Unicode.ends_clean Unicode.rstrip].
    now destruct (Unicode.is_whitespace c).
  - intros H. change (Unicode.ends_clean (d :: s) = true) in H.
    change (match Unicode.rstrip (d :: s) with
            | [] => if Unicode.is_whitespace c then [] else [c]
            | r => c :: r
            end = c :: d :: s).
    now rewrite (IH H).
Qed.

Lemma unicode_ends_clean_app (l1 l2 : list Z) :
  l2 <> [] -> Unicode.ends_clean (l1 ++ l2) = Unicode.ends_clean l2.
Proof.
  intros Hl2. induction l1 as [|c l1 IH]; [reflexivity|].
  cbn [app Unicode.ends_clean]. rewrite <- IH.
  destruct (l1 ++ l2) as [|d l] eqn:E; [|reflexivity].
  apply app_eq_nil in E as [_ E]. contradiction.
Qed.

Lemma unicode_ends_clean_Forall (l : list Z) :
  Forall (fun d => Unicode.is_whitespace d = false) l -> Unicode.ends_clean l = true.
Proof.
  induction 1 as [|c l Hc Hl IH]; [reflexivity|]. cbn [Unicode.ends_clean].
  destruct l; [now rewrite Hc|exact IH].
Qed.

Lemma unicode_do_lower_starts_clean (before s : list Z) :
  Unicode.starts_clean s = true ->
  Unicode.starts_clean (Unicode.do_lower before s) = true.
Proof.
  destruct s as [|c rest]; [reflexivity|].
  cbn [Unicode.starts_clean Unicode.do_lower]. intros Hc. apply negb_true_iff in Hc.
  destruct (unicode_lower_ucs4_spec before c rest) as (Hne & _ & Hws).
  specialize (Hws Hc).
  destruct (Unicode.lower_ucs4 before c rest) as [|d mapped]; [contradiction|].
  apply Forall_inv in Hws. cbn [app Unicode.starts_clean]. now rewrite Hws.
Qed.

Lemma unicode_do_lower_ends_clean (before s : list Z) :
  Unicode.ends_clean s = true ->
  Unicode.ends_clean (Unicode.do_lower before s) = true.
Proof.
  revert before. induction s as [|c rest IH]; intros before; [reflexivity|].
  destruct (unicode_lower_ucs4_spec before c rest) as (Hne & _ & Hws).
  destruct rest as [|d rest].
  - cbn [Unicode.ends_clean Unicode.do_lower]. intros Hc. apply negb_true_iff in Hc.
    rewrite app_nil_r. now apply unicode_ends_clean_Forall, Hws.
  - intros H. change (Unicode.ends_clean (d :: rest) = true) in H.
    change (Unicode.do_lower before (c :: d :: rest))
      with (Unicode.lower_ucs4 before c (d :: rest)
            ++ Unicode.do_lower (c :: before) (d :: rest)).
    rewrite unicode_ends_clean_app; [now apply IH|].
    cbn [Unicode.do_lower].
    destruct (unicode_lower_ucs4_spec (c :: before) d rest) as (Hne' & _).
    destruct (Unicode.lower_ucs4 (c :: before) d rest); [contradiction|discriminate].
Qed.

Lemma unicode_strip_clean (s : list Z) :
  Unicode.starts_clean s = true -> Unicode.ends_clean s = true -> Unicode.strip s = s.
Proof.
  intros Hstart Hend. unfold Unicode.strip.
  rewrite (unicode_starts_clean_lstrip s Hstart).
  now apply unicode_ends_clean_rstrip.
Qed.

(** A normalised address is trimmed. *)
Lemma unicode_strip_normalized (a : list Z) :
  Unicode.strip (Unicode.normalize_address a) = Unicode.normalize_address a.
Proof.
  unfold Unicode.normalize_address, Unicode.lower. apply unicode_strip_clean.
  - apply unicode_do_lower_starts_clean. unfold Unicode.strip.
    apply unicode_rstrip_starts_clean, unicode_lstrip_starts_clean.
  - apply unicode_do_lower_ends_clean. unfold Unicode.strip.
    apply unicode_rstrip_ends_clean.
Qed.

(** On 8-bit strings the two models agree. *)
Lemma unicode_is_whitespace_code (c : ascii) :
  Unicode.is_whitespace (Z.of_N (N_of_ascii c)) = is_space c.
Proof. destruct c as [[] [] [] [] [] [] [] []]; vm_compute; reflexivity. Qed.

Lemma unicode_lower_ucs4_code (before : list Z) (c : ascii) (after : list Z) :
  Unicode.lower_ucs4 before (Z.of_N (N_of_ascii c)) after
  = [Z.of_N (N_of_ascii (lower_char c))].
Proof. destruct c as [[] [] [] [] [] [] [] []]; vm_compute; reflexivity. Qed.

Lemma unicode_codes_cons (c : ascii) (s : string) :
  Unicode.codes (String c s) = Z.of_N (N_of_ascii c) :: Unicode.codes s.
Proof. reflexivity. Qed.

Lemma unicode_lstrip_codes (s : string) :
  Unicode.lstrip (Unicode.codes s) = Unicode.codes (lstrip s).
Proof.
  induction s as [|c s IH]; [reflexivity|].
  rewrite unicode_codes_cons. cbn [Unicode.lstrip lstrip].
  rewrite unicode_is_whitespace_code.
  destruct (is_space c); [exact IH|now rewrite unicode_codes_cons].
Qed.

Lemma unicode_rstrip_codes (s : string) :
  Unicode.rstrip (Unicode.codes s) = Unicode.codes (rstrip s).
Proof.
  induction s as [|c s IH]; [reflexivity|].
  rewrite unicode_codes_cons. cbn [Unicode.rstrip rstrip].
  rewrite IH, unicode_is_whitespace_code.
  destruct (rstrip s) as [|d r].
  - change (Unicode.codes EmptyString) with (@nil Z).
    now destruct (is_space c).
  - now rewrite !unicode_codes_cons.
Qed.

Lemma unicode_do_lower_codes (before : list Z) (s : string) :
  Unicode.do_lower before (Unicode.codes s) = Unicode.codes (lower s).
Proof.
  revert before. induction s as [|c s IH]; intros before; [reflexivity|].
  cbn [lower]. rewrite !unicode_codes_cons. cbn [Unicode.do_lower].
  now rewrite unicode_lower_ucs4_code, IH.
Qed.

(** The 8-bit [normalize_address] is the restriction of the one on code
    points to the strings below U+0100. *)
Lemma normalize_address_codes (address : string) :
  Unicode.normalize_address (Unicode.codes address)
  = Unicode.codes (normalize_address address).
Proof.
  unfold Unicode.normalize_address, normalize_address, Unicode.strip, strip, Unicode.lower.
  now rewrite unicode_lstrip_codes, unicode_rstrip_codes, unicode_do_lower_codes.
Qed.

End UnicodeFacts.

(** C10. [normalize_address] is idempotent on every string, read as a
    sequence of arbitrary code points: normalising a normalised address
    returns it unchanged. A normalised address is trimmed and lower-cased,
    and every trimmed and lower-cased address is returned unchanged. The
    example has an ideographic space, the capital I with dot (two code points
    in lower case), a capital sigma at the end of a word and an em space. *)
Theorem normalize_address_idempotent_unicode (a : list Z) :
  Unicode.normalize_address (Unicode.normalize_address a) = Unicode.normalize_address a /\
  Unicode.strip (Unicode.normalize_address a) = Unicode.normalize_address a /\
  Unicode.lower (Unicode.normalize_address a) = Unicode.normalize_address a /\
  (Unicode.strip a = a -> Unicode.lower a = a -> Unicode.normalize_address a = a) /\
  Unicode.normalize_address [12288; 304; 931; 8195] = [105; 775; 962].
Proof.
  assert (Hlower : Unicode.lower (Unicode.normalize_address a) = Unicode.normalize_address a)
    by apply unicode_lower_idem.
  pose proof (unicode_strip_normalized a) as Hstrip.
  split; [|split; [exact Hstrip|split; [exact Hlower|split]]].
  - unfold Unicode.normalize_address at 1. now rewrite Hstrip.
  - intros Ha Hl. unfold Unicode.normalize_address. now rewrite Ha.
  - vm_compute. reflexivity.
Qed.
